(** * SuperSplat in-browser SAM2 segmentation: a shallow embedding

    The development follows the TypeScript sources of the segmentation
    pipeline:

    - [ImageUtils]    image-utils.ts (tensor packing, logits thresholding,
                      binary mask resize);
    - [Core]          sam2-core.ts (class SAM2Core: encode cache, decode,
                      candidate ranking);
    - [Worker]        sam2-worker.ts (request/response protocol, try/catch
                      around every handler);
    - [Capability]    capability-check.ts (WebGPU probe, VRAM estimate);
    - [ModelLoader]   model-loader.ts (cache, streaming download, progress);
    - [Provider]      webgpu-provider.ts (class WebGPUProvider);
    - [Service]       class SegmentationService (its pending mask) and
                      mask-selection.ts;
    - [ServiceFlow]   class SegmentationService (its event handlers);
    - [ModelCache]    model-loader.ts (the IndexedDB store behind the cache);
    - [Selection]     sam-selection.ts (class SamSelection).

    Asynchronous code is sequentialised: every [await] is a call whose
    outcome is taken from an explicit environment, and a request posted to
    the worker is handled to completion before the provider goes on.
    External collaborators (ONNX Runtime sessions, the 2D canvas rasteriser,
    IndexedDB, fetch, the GPU adapter, the document) are functions of the
    environment that the theorems quantify over. *)

From Stdlib Require Import QArith Ascii String.
From stdpp Require Import gmap strings list fin_maps pretty sorting.

Local Open Scope string_scope.
Local Open Scope list_scope.
Local Open Scope nat_scope.

(** ** JavaScript values used by the pipeline *)

(** Elements of a [Float32Array] as far as the code observes them: the code
    only stores, copies and compares them.  A finite float is represented by
    the rational it denotes (so [+0] and [-0] coincide, as they do for [>]). *)
Module F32.

Inductive f32 : Type :=
| NaN
| NegInf
| Fin (q : Q)
| PosInf.

(** [a > b] of JavaScript: false as soon as one side is NaN. *)
Definition gt (a b : f32) : bool :=
  match a, b with
  | NaN, _ | _, NaN => false
  | NegInf, _ => false
  | _, PosInf => false
  | PosInf, _ => true
  | Fin _, NegInf => true
  | Fin x, Fin y => negb (Qle_bool x y)
  end.

(** [a >= b] of JavaScript. *)
Definition ge (a b : f32) : bool :=
  match a, b with
  | NaN, _ | _, NaN => false
  | PosInf, _ => true
  | _, NegInf => true
  | NegInf, _ => false
  | Fin _, PosInf => false
  | Fin x, Fin y => Qle_bool y x
  end.

Definition is_nan (a : f32) : bool :=
  match a with NaN => true | _ => false end.

Definition zero : f32 := Fin 0.
Definition one : f32 := Fin 1.

End F32.
Import F32.

(** Thrown values.  [SegmentationError] is the class of provider.ts: a
    message, a code and the [details.requestType] the provider attaches. *)
Inductive ErrorCode : Type :=
| NETWORK_ERROR | TIMEOUT | INVALID_RESPONSE | SERVER_ERROR | ABORTED.

Inductive Exn : Type :=
| Error (message : string)
| AbortError (message : string)
| SegmentationError (message : string) (code : ErrorCode)
                    (requestType : option string).

(** [error instanceof Error ? error.message : String(error)] *)
Definition exn_message (e : Exn) : string :=
  match e with
  | Error m | AbortError m | SegmentationError m _ _ => m
  end.

(** [error.name] *)
Definition exn_name (e : Exn) : string :=
  match e with
  | Error _ => "Error"
  | AbortError _ => "AbortError"
  | SegmentationError _ _ _ => "SegmentationError"
  end.

(** Result of a call that may throw. *)
Definition Try (A : Type) : Type := (Exn + A)%type.
Definition ret {A} (a : A) : Try A := inr a.
Definition throw {A} (e : Exn) : Try A := inl e.
Definition bind {A B} (m : Try A) (k : A -> Try B) : Try B :=
  match m with
  | inl e => inl e
  | inr a => k a
  end.
Notation "'let*' x ':=' m 'in' k" := (bind m (fun x => k))
  (at level 10, x name, m at level 100, k at level 200).

Inductive ExecutionProvider : Type := webgpu | wasm.

Inductive PointType : Type := fg | bg.

(** [SAM2Point]: coordinates are JavaScript numbers; only their exact
    rational value is kept (no theorem below depends on rounding). *)
Record SAM2Point : Type := mkPoint {
  pt_x : Q;
  pt_y : Q;
  pt_type : PointType
}.

(** An [ort.Tensor] of type float32. *)
Record Tensor : Type := mkTensor {
  t_data : list f32;
  t_dims : list nat
}.

(** The decoder's [masks] output.  Its [dims] are read as
    [[batch, num_masks, height, width]]: the rank is fixed by the exported
    model, so the four entries are fields. *)
Record MaskTensor : Type := mkMaskTensor {
  mt_data : list f32;
  mt_batch : nat;
  mt_num_masks : nat;
  mt_height : nat;
  mt_width : nat
}.

(** What [encoderSession.run] returns: every named output may be missing. *)
Record EncoderResults : Type := mkEncoderResults {
  er_image_embed : option Tensor;
  er_high_res_feats_0 : option Tensor;
  er_high_res_feats_1 : option Tensor
}.

(** The [feeds] record handed to [decoderSession.run]. *)
Record DecoderFeeds : Type := mkDecoderFeeds {
  image_embed : Tensor;
  point_coords : Tensor;
  point_labels : Tensor;
  mask_input : Tensor;
  has_mask_input : Tensor;
  high_res_feats_0 : option Tensor;
  high_res_feats_1 : option Tensor
}.

(** What [decoderSession.run] returns; of an IoU tensor only [.data] is read. *)
Record DecoderResults : Type := mkDecoderResults {
  dr_masks : option MaskTensor;
  dr_low_res_masks : option MaskTensor;
  dr_iou_predictions : option (list f32);
  dr_iou_pred : option (list f32)
}.

(** An [ArrayBuffer] (or a [Uint8Array] chunk of a download): its length in
    bytes and the [8 * byteLength]-bit number its bytes spell, first byte
    most significant.  Model files run to tens of megabytes, which this
    representation holds without listing them byte by byte. *)
Record Bytes : Type := mkBytes {
  byteLength : N;
  bits : N
}.

Definition bytes_empty : Bytes := mkBytes 0 0.

(** [a] followed by [b]. *)
Definition bytes_app (a b : Bytes) : Bytes :=
  {| byteLength := byteLength a + byteLength b;
     bits := N.lor (N.shiftl (bits a) (8 * byteLength b)) (bits b) |}.

(** "Combine chunks into single ArrayBuffer". *)
Definition bytes_concat (chunks : list Bytes) : Bytes :=
  foldr bytes_app bytes_empty chunks.

(** An [ort.InferenceSession]: the model bytes it was created from and the
    execution provider it runs on. *)
Record Session : Type := mkSession {
  s_model : Bytes;
  s_provider : ExecutionProvider
}.

(** The browser and ONNX Runtime, as deterministic oracles.

    - [canvas_resample rgba w h tw th]: [putImageData] of a [w]x[h] RGBA
      image on a canvas, [drawImage] of that canvas scaled to [tw]x[th],
      then [getImageData(0,0,tw,th).data] (RGBA bytes of the target).
      The oracle stands for canvases of positive sizes: with a width or a
      height of 0 the canvas calls throw, which it does not show;
    - [preprocess rgba w h]: the tensor built by [preprocessImageWithOrt]
      (canvas resize to 1024x1024 and division by 255 in float32).  The
      oracle stands for an image [new ImageData] accepts (positive sizes,
      [4 * w * h] bytes): for another image the source throws before the
      encoder is run, which it does not show;
    - [session_create model ep]: [InferenceSession.create]; [Some msg]
      when it throws;
    - [encoder_run], [decoder_run]: [session.run(feeds)]. *)
Class Runtime : Type := {
  canvas_resample : list N -> nat -> nat -> nat -> nat -> list N;
  preprocess : list N -> nat -> nat -> Tensor;
  session_create : Bytes -> ExecutionProvider -> option string;
  encoder_run : Session -> Tensor -> Try EncoderResults;
  decoder_run : Session -> DecoderFeeds -> Try DecoderResults
}.

(** ** image-utils.ts *)
Module ImageUtils.

Definition SAM2_INPUT_SIZE : nat := 1024.

(** [DEBUG_SAM2 = false]: every [debugSave*] helper returns at once. *)
Definition DEBUG_SAM2 : bool := false.

(** [scalePoint] in exact rationals: the value the double arithmetic of
    the source gives whenever that arithmetic is exact.  For a width or a
    height of 0 the source yields an infinity or NaN, which the rational
    (0, by the convention of [Q]) does not show. *)
Definition scalePoint (x y : Q) (originalWidth originalHeight : nat) : Q * Q :=
  (((x / inject_Z (Z.of_nat originalWidth)) * inject_Z (Z.of_nat SAM2_INPUT_SIZE))%Q,
   ((y / inject_Z (Z.of_nat originalHeight)) * inject_Z (Z.of_nat SAM2_INPUT_SIZE))%Q).

(** The coordinates are kept as they are; the [Float32Array] of the source
    holds their binary32 roundings. *)
Definition createPointCoordsTensorWithOrt (points : list SAM2Point) : Tensor :=
  {| t_data := flat_map (fun p => [Fin (pt_x p); Fin (pt_y p)]) points;
     t_dims := [1; length points; 2] |}.

Definition createPointLabelsTensorWithOrt (points : list SAM2Point) : Tensor :=
  {| t_data := map (fun p => match pt_type p with
                             | fg => Fin 1
                             | bg => Fin 0
                             end) points;
     t_dims := [1; length points] |}.

Definition MASK_INPUT_SIZE : nat := 256 * 256.

(** [maskInput ?? new Float32Array(size)].  The tensor constructor of
    the source refuses a [maskInput] whose length is not 256 * 256; the
    masks the provider keeps for refinement have that length. *)
Definition createMaskInputTensorWithOrt (maskInput : option (list f32)) : Tensor :=
  {| t_data := match maskInput with
               | Some m => m
               | None => repeat (Fin 0) MASK_INPUT_SIZE
               end;
     t_dims := [1; 1; 256; 256] |}.

Definition createHasMaskTensorWithOrt (hasMask : bool) : Tensor :=
  {| t_data := [Fin (if hasMask then 1 else 0)];
     t_dims := [1] |}.

(** The index clamp of [processMaskLogits]:
    [Math.max(0, Math.min(maskIndex, numMasks - 1))] when out of range. *)
Definition clampMaskIndex (maskIndex numMasks : nat) : nat :=
  if (numMasks <=? maskIndex)
  then Z.to_nat (Z.max 0 (Z.min (Z.of_nat maskIndex) (Z.of_nat numMasks - 1)))
  else maskIndex.

(** The values [data[offset + i]] for [i = 0 .. size - 1], as the copy
    and threshold loops read them: a read past the end of [data] yields
    [undefined], which a [Float32Array] stores as NaN and [>] treats as
    NaN. *)
Definition window (data : list f32) (offset size : nat) : list f32 :=
  let w := take size (drop offset data) in
  w ++ repeat NaN (size - length w).

(** [processMaskLogits(logits, maskIndex, threshold = 0.0)] *)
Definition processMaskLogits (logits : MaskTensor) (maskIndex : nat)
  : list N * nat * nat :=
  let height := mt_height logits in
  let width := mt_width logits in
  let maskSize := height * width in
  let maskIndex := clampMaskIndex maskIndex (mt_num_masks logits) in
  let maskOffset := maskIndex * maskSize in
  (map (fun v => if gt v (Fin 0) then 255%N else 0%N)
       (window (mt_data logits) maskOffset maskSize),
   width, height).

(** The [ImageData] filled from a grayscale mask: [createImageData] gives
    [4*w*h] zero bytes, the loop writes [v,v,v,255] per mask byte, writes
    past the end are dropped. *)
Definition maskToImageData (mask : list N) (w h : nat) : list N :=
  take (4 * (w * h))
       (flat_map (fun v => [v; v; v; 255%N]) mask ++ repeat 0%N (4 * (w * h))).

Section WithRuntime.
Context {rt : Runtime}.

(** [resizeMask]: draw scaled, read back, re-threshold the red channel at
    127.  A missing byte is [undefined], and [undefined > 127] is false. *)
Definition resizeMask (mask : list N) (maskWidth maskHeight : nat)
           (targetWidth targetHeight : nat) : list N :=
  let dst := canvas_resample (maskToImageData mask maskWidth maskHeight)
                             maskWidth maskHeight targetWidth targetHeight in
  map (fun i => if (127 <? nth (i * 4) dst 0)%N then 255%N else 0%N)
      (seq 0 (targetWidth * targetHeight)).

End WithRuntime.

End ImageUtils.

(** ** sam2-core.ts *)
Module Core.
Import ImageUtils.

Record ImageRecord : Type := mkImageRecord {
  img_data : list N;
  img_width : nat;
  img_height : nat
}.

Record SAM2MaskCandidate : Type := mkCandidate {
  c_index : nat;
  c_iouScore : f32;
  c_mask : list N;
  c_width : nat;
  c_height : nat;
  c_logits : list f32
}.

Record Timing : Type := mkTiming {
  tm_encode : option Q;
  tm_decode : Q;
  tm_total : Q
}.

Record SAM2Result : Type := mkResult {
  r_mask : list N;
  r_width : nat;
  r_height : nat;
  r_logits : option (list f32);
  r_allMasks : option (list SAM2MaskCandidate);
  r_selectedMaskIndex : option nat;
  r_timing : Timing
}.

(** The fields of class [SAM2Core].  [encoderRuns] and [decoderRuns] are
    not in the source: they record, oldest first, the feeds of every
    [encoderSession.run] and [decoderSession.run] call made so far. *)
Record SAM2Core : Type := mkCore {
  ort : bool;
  encoderSession : option Session;
  decoderSession : option Session;
  imageEmbeddings : gmap string Tensor;
  highResFeatures : gmap string (list Tensor);
  cachedImageData : gmap string ImageRecord;
  currentProvider : ExecutionProvider;
  verbose : bool;
  encoderRuns : list Tensor;
  decoderRuns : list DecoderFeeds
}.

(** [new SAM2Core()] *)
Definition new : SAM2Core :=
  {| ort := false; encoderSession := None; decoderSession := None;
     imageEmbeddings := ∅; highResFeatures := ∅; cachedImageData := ∅;
     currentProvider := wasm; verbose := false;
     encoderRuns := []; decoderRuns := [] |}.

Definition set_sessions (e d : option Session) (c : SAM2Core) : SAM2Core :=
  {| ort := ort c; encoderSession := e; decoderSession := d;
     imageEmbeddings := imageEmbeddings c;
     highResFeatures := highResFeatures c;
     cachedImageData := cachedImageData c;
     currentProvider := currentProvider c; verbose := verbose c;
     encoderRuns := encoderRuns c; decoderRuns := decoderRuns c |}.

Definition set_caches (emb : gmap string Tensor) (hr : gmap string (list Tensor))
           (img : gmap string ImageRecord) (c : SAM2Core) : SAM2Core :=
  {| ort := ort c; encoderSession := encoderSession c;
     decoderSession := decoderSession c;
     imageEmbeddings := emb; highResFeatures := hr; cachedImageData := img;
     currentProvider := currentProvider c; verbose := verbose c;
     encoderRuns := encoderRuns c; decoderRuns := decoderRuns c |}.

Definition set_loaded (v : bool) (c : SAM2Core) : SAM2Core :=
  {| ort := true; encoderSession := encoderSession c;
     decoderSession := decoderSession c;
     imageEmbeddings := imageEmbeddings c;
     highResFeatures := highResFeatures c;
     cachedImageData := cachedImageData c;
     currentProvider := currentProvider c; verbose := v;
     encoderRuns := encoderRuns c; decoderRuns := decoderRuns c |}.

Definition set_currentProvider (p : ExecutionProvider) (c : SAM2Core) : SAM2Core :=
  {| ort := ort c; encoderSession := encoderSession c;
     decoderSession := decoderSession c;
     imageEmbeddings := imageEmbeddings c;
     highResFeatures := highResFeatures c;
     cachedImageData := cachedImageData c;
     currentProvider := p; verbose := verbose c;
     encoderRuns := encoderRuns c; decoderRuns := decoderRuns c |}.

Definition log_encoder_run (t : Tensor) (c : SAM2Core) : SAM2Core :=
  {| ort := ort c; encoderSession := encoderSession c;
     decoderSession := decoderSession c;
     imageEmbeddings := imageEmbeddings c;
     highResFeatures := highResFeatures c;
     cachedImageData := cachedImageData c;
     currentProvider := currentProvider c; verbose := verbose c;
     encoderRuns := encoderRuns c ++ [t]; decoderRuns := decoderRuns c |}.

Definition log_decoder_run (f : DecoderFeeds) (c : SAM2Core) : SAM2Core :=
  {| ort := ort c; encoderSession := encoderSession c;
     decoderSession := decoderSession c;
     imageEmbeddings := imageEmbeddings c;
     highResFeatures := highResFeatures c;
     cachedImageData := cachedImageData c;
     currentProvider := currentProvider c; verbose := verbose c;
     encoderRuns := encoderRuns c; decoderRuns := decoderRuns c ++ [f] |}.

(** [disposeSessions]: errors of [release()] are swallowed. *)
Definition disposeSessions (c : SAM2Core) : SAM2Core :=
  set_sessions None None c.

Definition clearImageCache (imageId : string) (c : SAM2Core) : SAM2Core :=
  set_caches (delete imageId (imageEmbeddings c))
             (delete imageId (highResFeatures c))
             (cachedImageData c) c.

Definition clearAllCaches (c : SAM2Core) : SAM2Core :=
  set_caches ∅ ∅ (cachedImageData c) c.

Definition dispose (c : SAM2Core) : SAM2Core :=
  disposeSessions (clearAllCaches c).

Definition getProvider (c : SAM2Core) : ExecutionProvider := currentProvider c.

Definition isInitialized (c : SAM2Core) : bool :=
  bool_decide (encoderSession c <> None) && bool_decide (decoderSession c <> None).

(** The [for] loop of [decode] over [iouData]: [i] is the loop index,
    [maxIoU] and [bestMaskIndex] the two mutable locals. *)
Fixpoint iouLoop (iouData : list f32) (i : nat) (maxIoU : f32)
         (bestMaskIndex : nat) : nat * f32 :=
  match iouData with
  | [] => (bestMaskIndex, maxIoU)
  | v :: rest =>
      if gt v maxIoU
      then iouLoop rest (S i) v i
      else iouLoop rest (S i) maxIoU bestMaskIndex
  end.

(** Lines 350-371 of [decode]: [bestMaskIndex] starts at 0 and the loop
    only runs when there is more than one score. *)
Definition selectBestMaskIndex (iouTensor : option (list f32)) : nat :=
  match iouTensor with
  | Some iouData =>
      if 1 <? length iouData
      then fst (iouLoop iouData 0 NegInf 0)
      else 0
  | None => 0
  end.

(** [a ?? b] *)
Definition nullish {A} (a b : option A) : option A :=
  match a with
  | Some x => Some x
  | None => b
  end.

(** Copy of one plane of [fullLogits] into a fresh [Float32Array]:
    [out[j] = fullLogits[offset + j]] for [j < maskSize]. *)
Definition sliceLogits (fullLogits : list f32) (offset maskSize : nat) : list f32 :=
  window fullLogits offset maskSize.

Section WithRuntime.
Context {rt : Runtime}.

(** [createSessions]: providers are tried in order; a failure releases
    whatever was created and moves on. *)
Fixpoint trySessions (encoderData decoderData : Bytes)
         (providers : list ExecutionProvider) (c : SAM2Core)
  : Try ExecutionProvider * SAM2Core :=
  match providers with
  | [] => (throw (Error "Failed to create ONNX sessions with any available provider"), c)
  | provider :: rest =>
      match session_create encoderData provider with
      | Some _ => trySessions encoderData decoderData rest (disposeSessions c)
      | None =>
          let c1 := set_sessions (Some (mkSession encoderData provider))
                                 (decoderSession c) c in
          match session_create decoderData provider with
          | Some _ => trySessions encoderData decoderData rest (disposeSessions c1)
          | None =>
              (ret provider,
               set_sessions (encoderSession c1)
                            (Some (mkSession decoderData provider)) c1)
          end
      end
  end.

Definition createSessions (encoderData decoderData : Bytes)
           (preferredProvider : ExecutionProvider) (c : SAM2Core)
  : Try ExecutionProvider * SAM2Core :=
  if ort c
  then trySessions encoderData decoderData
         (match preferredProvider with
          | webgpu => [webgpu; wasm]
          | wasm => [wasm]
          end) c
  else (throw (Error "ONNX Runtime not loaded"), c).

(** [initialize(encoderData, decoderData, options)]; [verbose] is forced
    to [true] by the source. *)
Definition initialize (encoderData decoderData : Bytes)
           (preferredProvider : option ExecutionProvider) (c : SAM2Core)
  : Try ExecutionProvider * SAM2Core :=
  let c := set_loaded true c in
  match createSessions encoderData decoderData
          (default webgpu preferredProvider) c with
  | (inl e, c') => (inl e, c')
  | (inr provider, c') => (inr provider, set_currentProvider provider c')
  end.

(** [encodeImage]; [elapsed] is [performance.now() - startTime]. *)
Definition encodeImage (imageId : string) (imageData : list N)
           (width height : nat) (elapsed : Q) (c : SAM2Core)
  : Try Q * SAM2Core :=
  match encoderSession c, ort c with
  | Some session, true =>
      if bool_decide (is_Some (imageEmbeddings c !! imageId))
      then (ret 0%Q, c)
      else
        let inputTensor := preprocess imageData width height in
        let c := log_encoder_run inputTensor c in
        match encoder_run session inputTensor with
        | inl e => (throw e, c)
        | inr results =>
            let img := <[imageId := mkImageRecord imageData width height]>
                         (cachedImageData c) in
            let emb := match er_image_embed results with
                       | Some t => <[imageId := t]> (imageEmbeddings c)
                       | None => imageEmbeddings c
                       end in
            let highResFeats :=
              match er_high_res_feats_0 results with Some t => [t] | None => [] end ++
              match er_high_res_feats_1 results with Some t => [t] | None => [] end in
            let hr := if 0 <? length highResFeats
                      then <[imageId := highResFeats]> (highResFeatures c)
                      else highResFeatures c in
            (ret elapsed, set_caches emb hr img c)
        end
  | _, _ => (throw (Error "SAM2 not initialized"), c)
  end.

(** The [feeds] object [decode] builds. *)
Definition buildFeeds (c : SAM2Core) (imageId : string) (embeddings : Tensor)
           (points : list SAM2Point) (originalWidth originalHeight : nat)
           (previousMask : option (list f32)) : DecoderFeeds :=
  let scaledPoints :=
    map (fun p =>
           let xy := scalePoint (pt_x p) (pt_y p) originalWidth originalHeight in
           mkPoint (fst xy) (snd xy) (pt_type p)) points in
  let highResFeats := highResFeatures c !! imageId in
  {| image_embed := embeddings;
     point_coords := createPointCoordsTensorWithOrt scaledPoints;
     point_labels := createPointLabelsTensorWithOrt scaledPoints;
     mask_input := createMaskInputTensorWithOrt previousMask;
     has_mask_input :=
       createHasMaskTensorWithOrt (bool_decide (previousMask <> None));
     high_res_feats_0 := highResFeats ≫= (fun l => l !! 0);
     high_res_feats_1 := highResFeats ≫= (fun l => l !! 1) |}.

(** Body of the loop of [decode] that builds [allMasks]: candidate [i]. *)
Definition buildCandidate (maskTensor : MaskTensor)
           (iouData : option (list f32))
           (originalWidth originalHeight : nat) (i : nat)
  : SAM2MaskCandidate :=
  let '(_, maskWidth, maskHeight) := processMaskLogits maskTensor i in
  let maskSize := maskWidth * maskHeight in
  let maskLogits := sliceLogits (mt_data maskTensor) (i * maskSize) maskSize in
  let rawMaskForCandidate := (processMaskLogits maskTensor i).1.1 in
  let resizedMask :=
    resizeMask rawMaskForCandidate maskWidth maskHeight
               originalWidth originalHeight in
  {| c_index := i;
     c_iouScore := match iouData with
                   | Some iouData => nth i iouData NaN
                   | None => Fin 1
                   end;
     c_mask := resizedMask;
     c_width := originalWidth;
     c_height := originalHeight;
     c_logits := maskLogits |}.

(** Everything [decode] does after [decoderSession.run] returned. *)
Definition postprocess (results : DecoderResults)
           (originalWidth originalHeight : nat) (decodeTime : Q)
  : Try SAM2Result :=
  match nullish (dr_masks results) (dr_low_res_masks results) with
  | None => throw (Error "No mask output from decoder")
  | Some maskTensor =>
      let iouTensor := nullish (dr_iou_predictions results) (dr_iou_pred results) in
      let bestMaskIndex := selectBestMaskIndex iouTensor in
      let '(rawMask, maskWidth, maskHeight) :=
        processMaskLogits maskTensor bestMaskIndex in
      let maskSize := maskWidth * maskHeight in
      let fullLogits := mt_data maskTensor in
      let selectedMaskLogits :=
        sliceLogits fullLogits (bestMaskIndex * maskSize) maskSize in
      let iouData := iouTensor in
      let finalMask :=
        resizeMask rawMask maskWidth maskHeight originalWidth originalHeight in
      let numMasks := match iouData with
                      | Some iouData => length iouData
                      | None => 1
                      end in
      let allMasks :=
        map (buildCandidate maskTensor iouData originalWidth originalHeight)
            (seq 0 numMasks) in
      ret {| r_mask := finalMask;
             r_width := originalWidth;
             r_height := originalHeight;
             r_logits := Some selectedMaskLogits;
             r_allMasks := Some allMasks;
             r_selectedMaskIndex := Some bestMaskIndex;
             r_timing := {| tm_encode := None;
                            tm_decode := decodeTime;
                            tm_total := decodeTime |} |}
  end.

(** [decode(imageId, points, originalWidth, originalHeight, previousMask)];
    [previousMask = None] is [undefined]. *)
Definition decode (imageId : string) (points : list SAM2Point)
           (originalWidth originalHeight : nat)
           (previousMask : option (list f32)) (decodeTime : Q) (c : SAM2Core)
  : Try SAM2Result * SAM2Core :=
  match decoderSession c, ort c with
  | Some session, true =>
      match imageEmbeddings c !! imageId with
      | None =>
          (throw (Error ("No embeddings found for image " +:+ imageId +:+
                         ". Call encodeImage first.")), c)
      | Some embeddings =>
          let feeds := buildFeeds c imageId embeddings points
                                  originalWidth originalHeight previousMask in
          let c := log_decoder_run feeds c in
          match decoder_run session feeds with
          | inl e => (throw e, c)
          | inr results =>
              (postprocess results originalWidth originalHeight decodeTime, c)
          end
      end
  | _, _ => (throw (Error "SAM2 not initialized"), c)
  end.

(** [segment] = [encodeImage] then [decode], timings merged. *)
Definition segment (imageId : string) (imageData : list N)
           (width height : nat) (points : list SAM2Point)
           (previousMask : option (list f32))
           (encodeElapsed decodeElapsed : Q) (c : SAM2Core)
  : Try SAM2Result * SAM2Core :=
  match encodeImage imageId imageData width height encodeElapsed c with
  | (inl e, c) => (inl e, c)
  | (inr encodeTime, c) =>
      match decode imageId points width height previousMask decodeElapsed c with
      | (inl e, c) => (inl e, c)
      | (inr result, c) =>
          (inr {| r_mask := r_mask result;
                  r_width := r_width result;
                  r_height := r_height result;
                  r_logits := r_logits result;
                  r_allMasks := r_allMasks result;
                  r_selectedMaskIndex := r_selectedMaskIndex result;
                  r_timing :=
                    {| tm_encode := Some encodeTime;
                       tm_decode := tm_decode (r_timing result);
                       tm_total := (encodeTime + tm_decode (r_timing result))%Q |} |},
           c)
      end
  end.

End WithRuntime.

End Core.

(** ** sam2-worker.ts *)
Module Worker.
Import Core.

Record SAM2Options : Type := mkOptions {
  preferredProvider : option ExecutionProvider;
  opt_verbose : option bool
}.

(** [WorkerRequestMessage].  [ReqUnknown] stands for a message whose
    [type] is none of the seven known ones (the [default] branch). *)
Inductive WorkerRequestMessage : Type :=
| ReqInitialize (encoderData decoderData : Bytes) (options : option SAM2Options)
| ReqEncode (imageId : string) (imageData : list N) (width height : nat)
| ReqDecode (imageId : string) (points : list SAM2Point) (width height : nat)
            (previousMask : option (list f32))
| ReqSegment (imageId : string) (imageData : list N) (width height : nat)
             (points : list SAM2Point) (previousMask : option (list f32))
| ReqClearCache (imageId : option string)
| ReqDispose
| ReqGetStatus
| ReqUnknown (type : string).

(** [message.type] *)
Definition request_type (m : WorkerRequestMessage) : string :=
  match m with
  | ReqInitialize _ _ _ => "initialize"
  | ReqEncode _ _ _ _ => "encode"
  | ReqDecode _ _ _ _ _ => "decode"
  | ReqSegment _ _ _ _ _ _ => "segment"
  | ReqClearCache _ => "clearCache"
  | ReqDispose => "dispose"
  | ReqGetStatus => "getStatus"
  | ReqUnknown t => t
  end.

(** Payload shared by the [decoded] and [segmented] responses. *)
Record MaskPayload : Type := mkPayload {
  p_imageId : string;
  p_mask : list N;
  p_width : nat;
  p_height : nat;
  p_logits : option (list f32);
  p_allMasks : option (list SAM2MaskCandidate);
  p_selectedMaskIndex : option nat;
  p_timing : Timing
}.

Inductive WorkerResponseMessage : Type :=
| RespInitialized (provider : ExecutionProvider)
| RespEncoded (imageId : string) (encodeTime : Q)
| RespDecoded (payload : MaskPayload)
| RespSegmented (payload : MaskPayload)
| RespCacheCleared (imageId : option string)
| RespDisposed
| RespStatus (initialized : bool) (provider : option ExecutionProvider)
| RespError (message requestType : string)
| RespDebug (filename : string).

(** The module-level [let sam2: SAM2Core | null]. *)
Definition WorkerState : Type := option SAM2Core.

(** Readings of [performance.now()] differences during one request. *)
Record Clock : Type := mkClock {
  encodeElapsed : Q;
  decodeElapsed : Q
}.

(** [result.allMasks?.map(m => ({ index: m.index, ... }))] *)
Definition toWorkerCandidates (allMasks : option (list SAM2MaskCandidate))
  : option (list SAM2MaskCandidate) :=
  (fun l => map (fun m => {| c_index := c_index m;
                             c_iouScore := c_iouScore m;
                             c_mask := c_mask m;
                             c_width := c_width m;
                             c_height := c_height m;
                             c_logits := c_logits m |}) l) <$> allMasks.

Definition toPayload (imageId : string) (result : SAM2Result) : MaskPayload :=
  {| p_imageId := imageId;
     p_mask := r_mask result;
     p_width := r_width result;
     p_height := r_height result;
     p_logits := r_logits result;
     p_allMasks := toWorkerCandidates (r_allMasks result);
     p_selectedMaskIndex := r_selectedMaskIndex result;
     p_timing := r_timing result |}.

Definition postError (message requestType : string) : WorkerResponseMessage :=
  RespError message requestType.

Section WithRuntime.
Context {rt : Runtime}.

(** [handleInitialize]: an engine that exists is disposed of, then replaced
    by a fresh one, which stays in place even when its [initialize] throws. *)
Definition handleInitialize (encoderData decoderData : Bytes)
           (options : option SAM2Options) (sam2 : WorkerState)
  : Try WorkerResponseMessage * WorkerState :=
  let fresh := Core.new in
  match Core.initialize encoderData decoderData
          (options ≫= preferredProvider) fresh with
  | (inl e, c) => (inl e, Some c)
  | (inr provider, c) => (inr (RespInitialized provider), Some c)
  end.

Definition handleEncode (clk : Clock) (imageId : string) (imageData : list N)
           (width height : nat) (sam2 : WorkerState)
  : Try WorkerResponseMessage * WorkerState :=
  match sam2 with
  | None => (throw (Error "SAM2 not initialized"), sam2)
  | Some c =>
      match encodeImage imageId imageData width height (encodeElapsed clk) c with
      | (inl e, c) => (inl e, Some c)
      | (inr encodeTime, c) => (inr (RespEncoded imageId encodeTime), Some c)
      end
  end.

Definition handleDecode (clk : Clock) (imageId : string)
           (points : list SAM2Point) (width height : nat)
           (previousMask : option (list f32)) (sam2 : WorkerState)
  : Try WorkerResponseMessage * WorkerState :=
  match sam2 with
  | None => (throw (Error "SAM2 not initialized"), sam2)
  | Some c =>
      match decode imageId points width height previousMask
                   (decodeElapsed clk) c with
      | (inl e, c) => (inl e, Some c)
      | (inr result, c) => (inr (RespDecoded (toPayload imageId result)), Some c)
      end
  end.

Definition handleSegment (clk : Clock) (imageId : string) (imageData : list N)
           (width height : nat) (points : list SAM2Point)
           (previousMask : option (list f32)) (sam2 : WorkerState)
  : Try WorkerResponseMessage * WorkerState :=
  match sam2 with
  | None => (throw (Error "SAM2 not initialized"), sam2)
  | Some c =>
      match segment imageId imageData width height points previousMask
                    (encodeElapsed clk) (decodeElapsed clk) c with
      | (inl e, c) => (inl e, Some c)
      | (inr result, c) => (inr (RespSegmented (toPayload imageId result)), Some c)
      end
  end.

(** [if (message.imageId)]: the empty string is falsy. *)
Definition handleClearCache (imageId : option string) (sam2 : WorkerState)
  : Try WorkerResponseMessage * WorkerState :=
  match sam2 with
  | None => (throw (Error "SAM2 not initialized"), sam2)
  | Some c =>
      let c := match imageId with
               | Some id => if bool_decide (id = "")
                            then clearAllCaches c
                            else clearImageCache id c
               | None => clearAllCaches c
               end in
      (inr (RespCacheCleared imageId), Some c)
  end.

Definition handleDispose (sam2 : WorkerState)
  : Try WorkerResponseMessage * WorkerState :=
  (inr RespDisposed, None).

Definition handleGetStatus (sam2 : WorkerState)
  : Try WorkerResponseMessage * WorkerState :=
  (inr (RespStatus (default false (isInitialized <$> sam2))
                   (getProvider <$> sam2)), sam2).

(** The [switch] of [self.onmessage]. *)
Definition dispatch (clk : Clock) (message : WorkerRequestMessage)
           (sam2 : WorkerState) : Try WorkerResponseMessage * WorkerState :=
  match message with
  | ReqInitialize e d o => handleInitialize e d o sam2
  | ReqEncode id img w h => handleEncode clk id img w h sam2
  | ReqDecode id pts w h prev => handleDecode clk id pts w h prev sam2
  | ReqSegment id img w h pts prev => handleSegment clk id img w h pts prev sam2
  | ReqClearCache id => handleClearCache id sam2
  | ReqDispose => handleDispose sam2
  | ReqGetStatus => handleGetStatus sam2
  | ReqUnknown _ => (inr (postError "Unknown message type" "unknown"), sam2)
  end.

(** [self.onmessage]: the [try]/[catch] turns a thrown value into an
    [error] response carrying [message.type]; the worker state that the
    handler left behind stays in place. *)
Definition onmessage (clk : Clock) (message : WorkerRequestMessage)
           (sam2 : WorkerState) : list WorkerResponseMessage * WorkerState :=
  match dispatch clk message sam2 with
  | (inr response, sam2) => ([response], sam2)
  | (inl error, sam2) =>
      ([postError (exn_message error) (request_type message)], sam2)
  end.

End WithRuntime.

End Worker.

(** ** capability-check.ts *)
Module Capability.

Record GPUAdapterInfo : Type := mkAdapterInfo {
  vendor : string;
  architecture : string;
  description : string
}.

Record WebGPUCapabilities : Type := mkCapabilities {
  available : bool;
  unavailableReason : option string;
  adapterInfo : option GPUAdapterInfo;
  estimatedVRAM : N;
  isDiscreteGPU : bool;
  isLowVRAM : bool
}.

(** 4GB in bytes *)
Definition LOW_VRAM_THRESHOLD : N := 4 * 1024 * 1024 * 1024.

(** A [GPUAdapter] as the probe sees it: [requestAdapterInfo] may be
    absent ([None]), may reject, or yields the info; [limits.maxBufferSize]
    is an unsigned integer. *)
Record GPUAdapter : Type := mkAdapter {
  requestAdapterInfo : option (Try GPUAdapterInfo);
  maxBufferSize : N
}.

(** The host the probe runs on. *)
Inductive Host : Type :=
| NoGpuApi                          (* no [navigator] or no [navigator.gpu] *)
| RequestAdapterThrows (e : Exn)    (* [requestAdapter] rejects *)
| NoAdapter                         (* [requestAdapter] resolves to null *)
| HasAdapter (adapter : GPUAdapter).

(** ASCII [toLowerCase]. *)
Definition lower_ascii (a : ascii) : ascii :=
  let n := nat_of_ascii a in
  if (65 <=? n) && (n <=? 90) then ascii_of_nat (n + 32) else a.

Fixpoint toLowerCase (s : string) : string :=
  match s with
  | EmptyString => EmptyString
  | String a rest => String (lower_ascii a) (toLowerCase rest)
  end.

(** [s.includes(keyword)] *)
Fixpoint includes (keyword s : string) : bool :=
  String.prefix keyword s ||
  match s with
  | EmptyString => false
  | String _ rest => includes keyword rest
  end.

Definition discreteKeywords : list string :=
  ["nvidia"; "geforce"; "rtx"; "gtx"; "quadro"; "amd"; "radeon"; "rx "; "vega"].

Definition detectDiscreteGPU (info : GPUAdapterInfo) : bool :=
  let vendor := toLowerCase (vendor info) in
  let architecture := toLowerCase (architecture info) in
  let description := toLowerCase (description info) in
  let combined := vendor +:+ " " +:+ architecture +:+ " " +:+ description in
  existsb (fun keyword => includes keyword combined) discreteKeywords ||
  (includes "intel" vendor &&
   (includes "arc" architecture || includes "arc" description)).

Definition unavailable (reason : string) : WebGPUCapabilities :=
  {| available := false;
     unavailableReason := Some reason;
     adapterInfo := None;
     estimatedVRAM := 0;
     isDiscreteGPU := false;
     isLowVRAM := true |}.

(** The body of the [try] block once an adapter was obtained. *)
Definition probeAdapter (adapter : GPUAdapter) : Try WebGPUCapabilities :=
  let* adapterInfo :=
    match requestAdapterInfo adapter with
    | None => ret None
    | Some (inl e) => throw e
    | Some (inr info) => ret (Some info)
    end in
  let maxBufferSize := maxBufferSize adapter in
  let estimatedVRAM := (maxBufferSize * 4)%N in
  let isDiscreteGPU := match adapterInfo with
                       | Some info => detectDiscreteGPU info
                       | None => false
                       end in
  let isLowVRAM := (estimatedVRAM <? LOW_VRAM_THRESHOLD)%N &&
                   (0 <? estimatedVRAM)%N in
  ret {| available := true;
         unavailableReason := None;
         adapterInfo := adapterInfo;
         estimatedVRAM := estimatedVRAM;
         isDiscreteGPU := isDiscreteGPU;
         isLowVRAM := isLowVRAM |}.

Definition checkWebGPUCapabilities (host : Host) : WebGPUCapabilities :=
  match host with
  | NoGpuApi => unavailable "WebGPU API not available in this browser"
  | NoAdapter => unavailable "No WebGPU adapter available"
  | RequestAdapterThrows e =>
      unavailable ("WebGPU initialization failed: " +:+ exn_message e)
  | HasAdapter adapter =>
      match probeAdapter adapter with
      | inr caps => caps
      | inl e => unavailable ("WebGPU initialization failed: " +:+ exn_message e)
      end
  end.

End Capability.

(** ** model-loader.ts *)
Module ModelLoader.

Record ModelConfig : Type := mkConfig {
  name : string;
  url : string;
  expectedSize : N
}.

Inductive ModelKey : Type := encoder | decoder.

Definition SAM2_MODELS (key : ModelKey) : ModelConfig :=
  match key with
  | encoder =>
      {| name := "SAM2 Encoder";
         url := "https://huggingface.co/g-ronimo/sam2-tiny/resolve/main/sam2_hiera_tiny_encoder.with_runtime_opt.ort";
         expectedSize := 42 * 1024 * 1024 |}
  | decoder =>
      {| name := "SAM2 Decoder";
         url := "https://huggingface.co/g-ronimo/sam2-tiny/resolve/main/sam2_hiera_tiny_decoder_pr1.onnx";
         expectedSize := 15 * 1024 * 1024 |}
  end.

(** What [fetch(config.url, { signal })] and the body reader do.
    [Streamed len chunks failure]: [content-length] header, the chunks
    [reader.read()] delivers, and the value a later [read()] rejects with
    (an [AbortError] when the signal fires), if any. *)
Inductive FetchOutcome : Type :=
| FetchThrows (e : Exn)
| HttpNotOk (status : string) (statusText : string)
| NoBody (buffer : Bytes)
| Streamed (contentLength : option N) (chunks : list Bytes)
           (failure : option Exn).

(** IndexedDB and the network at the time of one load.  [cached key] is
    what [getCachedModel] resolves to: the stored buffer, or [None] when
    nothing is stored or the database does not open.  The requests made on
    the store are taken to succeed; [ModelCache] models the store itself
    and the requests that fail. *)
Record LoaderEnv : Type := mkLoaderEnv {
  cached : ModelKey -> option Bytes;
  fetch : ModelKey -> FetchOutcome
}.

(** One call of a progress callback: [(loaded, total, name)]. *)
Definition Progress : Type := (N * N * string)%type.

(** The [while (true)] read loop of [downloadModel]: the [loaded] value
    reported after each chunk. *)
Fixpoint readLoop (chunks : list Bytes) (loaded : N) : list N :=
  match chunks with
  | [] => []
  | value :: rest =>
      let loaded := (loaded + byteLength value)%N in
      loaded :: readLoop rest loaded
  end.

(** [downloadModel]: the callbacks made, then the buffer or the thrown value. *)
Definition downloadModel (config : ModelConfig) (outcome : FetchOutcome)
  : list Progress * Try Bytes :=
  match outcome with
  | FetchThrows e => ([], throw e)
  | HttpNotOk status statusText =>
      ([], throw (Error ("Failed to download " +:+ name config +:+ ": " +:+
                         status +:+ " " +:+ statusText)))
  | NoBody buffer =>
      ([(byteLength buffer, byteLength buffer, name config)], ret buffer)
  | Streamed contentLength chunks failure =>
      let total := default (expectedSize config) contentLength in
      (map (fun loaded => (loaded, total, name config)) (readLoop chunks 0%N),
       match failure with
       | Some e => throw e
       | None => ret (bytes_concat chunks)
       end)
  end.

(** [loadModel]: cache first, else download.  The cache write that follows
    a download is taken to succeed or to find the database closed, neither
    of which fails the load; [ModelCache.loadModel] covers a write request
    that fails. *)
Definition loadModel (env : LoaderEnv) (modelKey : ModelKey)
  : list Progress * Try Bytes :=
  match cached env modelKey with
  | Some buffer =>
      ([(byteLength buffer, byteLength buffer, name (SAM2_MODELS modelKey))],
       ret buffer)
  | None => downloadModel (SAM2_MODELS modelKey) (fetch env modelKey)
  end.

Definition totalSize : N :=
  (expectedSize (SAM2_MODELS encoder) + expectedSize (SAM2_MODELS decoder))%N.

(** The closure [trackProgress] of [loadAllModels]: its captured locals
    [(totalLoaded, currentModel)] are threaded; the result is the call
    [onProgress(overallLoaded, totalSize, modelName)] it makes. *)
Definition trackProgress (st : N * string) (ev : Progress)
  : (N * string) * Progress :=
  let '(totalLoaded, currentModel) := st in
  let '(loaded, total, modelName) := ev in
  let '(totalLoaded, currentModel) :=
    if bool_decide (modelName <> currentModel)
    then (if bool_decide (currentModel = name (SAM2_MODELS encoder))
          then expectedSize (SAM2_MODELS encoder)
          else totalLoaded,
          modelName)
    else (totalLoaded, currentModel) in
  let overallLoaded :=
    if bool_decide (currentModel = name (SAM2_MODELS encoder))
    then loaded
    else (expectedSize (SAM2_MODELS encoder) + loaded)%N in
  ((totalLoaded, currentModel), (overallLoaded, totalSize, modelName)).

Fixpoint trackAll (st : N * string) (evs : list Progress)
  : (N * string) * list Progress :=
  match evs with
  | [] => (st, [])
  | ev :: rest =>
      let '(st, out) := trackProgress st ev in
      let '(st, outs) := trackAll st rest in
      (st, out :: outs)
  end.

(** [loadAllModels]: the [onProgress] calls made, oldest first, and the
    two buffers or the thrown value. *)
Definition loadAllModels (env : LoaderEnv)
  : list Progress * Try (Bytes * Bytes) :=
  let st := (0%N, name (SAM2_MODELS encoder)) in
  let '(evs1, r1) := loadModel env encoder in
  let '(st, out1) := trackAll st evs1 in
  match r1 with
  | inl e => (out1, inl e)
  | inr enc =>
      let st := (fst st, name (SAM2_MODELS decoder)) in
      let '(evs2, r2) := loadModel env decoder in
      let '(st, out2) := trackAll st evs2 in
      match r2 with
      | inl e => (out1 ++ out2, inl e)
      | inr dec => (out1 ++ out2, inr (enc, dec))
      end
  end.

Definition getTotalModelSize : N := totalSize.

End ModelLoader.

(** A promise as its caller eventually sees it.  [Pending] is a promise
    that is never settled. *)
Inductive Settled (A : Type) : Type :=
| Fulfilled (a : A)
| Rejected (e : Exn)
| Pending.
Arguments Fulfilled {A} a.
Arguments Rejected {A} e.
Arguments Pending {A}.

(** ** webgpu-provider.ts *)
Module Provider.
Import Core Worker Capability ModelLoader.

Inductive ProviderState : Type :=
| idle | loading_models | initializing | ready | processing | error.

Definition state_name (s : ProviderState) : string :=
  match s with
  | idle => "idle"
  | loading_models => "loading-models"
  | initializing => "initializing"
  | ready => "ready"
  | processing => "processing"
  | error => "error"
  end.

Record SegmentationRequest : Type := mkRequest {
  image : list N;
  width : nat;
  height : nat;
  points : list SAM2Point
}.

(** [SegmentationResponse].  A field is [None] when the object the
    provider returns has [undefined] there. *)
Record SegmentationResponse : Type := mkResponse {
  resp_width : option nat;
  resp_height : option nat;
  resp_mask : option (list N);
  resp_logits : option (list f32);
  resp_allMasks : option (list SAM2MaskCandidate);
  resp_selectedMaskIndex : option nat
}.

(** The fields of class [WebGPUProvider].  [worker = Some w] is a live
    [Worker] whose module state is [w].  [pendingRequests] lists the keys
    of the [Map] in insertion order.  [statusLog] and [progressLog]
    record the calls of [options.onStatusChange] and [options.onProgress],
    oldest first. *)
Record WebGPUProvider : Type := mkProvider {
  worker : option WorkerState;
  state : ProviderState;
  capabilities : option WebGPUCapabilities;
  currentProvider : option ExecutionProvider;
  pendingRequests : list string;
  requestCounter : nat;
  abortController : bool;
  optPreferredProvider : option ExecutionProvider;
  optVerbose : option bool;
  imageIdCounter : nat;
  previousMaskLogits : gmap string (list f32);
  currentImageId : option string;
  statusLog : list ProviderState;
  progressLog : list Progress
}.

(** [new WebGPUProvider(options)] *)
Definition new (preferred : option ExecutionProvider) (verbose : option bool)
  : WebGPUProvider :=
  {| worker := None; state := idle; capabilities := None;
     currentProvider := None; pendingRequests := []; requestCounter := 0;
     abortController := false;
     optPreferredProvider := preferred; optVerbose := verbose;
     imageIdCounter := 0; previousMaskLogits := ∅; currentImageId := None;
     statusLog := []; progressLog := [] |}.

Definition set_worker (w : option WorkerState) (p : WebGPUProvider) : WebGPUProvider :=
  {| worker := w; state := state p; capabilities := capabilities p;
     currentProvider := currentProvider p;
     pendingRequests := pendingRequests p; requestCounter := requestCounter p;
     abortController := abortController p;
     optPreferredProvider := optPreferredProvider p; optVerbose := optVerbose p;
     imageIdCounter := imageIdCounter p;
     previousMaskLogits := previousMaskLogits p;
     currentImageId := currentImageId p;
     statusLog := statusLog p; progressLog := progressLog p |}.

(** [setState]: assign and notify the listener. *)
Definition setState (s : ProviderState) (p : WebGPUProvider) : WebGPUProvider :=
  {| worker := worker p; state := s; capabilities := capabilities p;
     currentProvider := currentProvider p;
     pendingRequests := pendingRequests p; requestCounter := requestCounter p;
     abortController := abortController p;
     optPreferredProvider := optPreferredProvider p; optVerbose := optVerbose p;
     imageIdCounter := imageIdCounter p;
     previousMaskLogits := previousMaskLogits p;
     currentImageId := currentImageId p;
     statusLog := statusLog p ++ [s]; progressLog := progressLog p |}.

Definition set_capabilities (c : option WebGPUCapabilities) (p : WebGPUProvider)
  : WebGPUProvider :=
  {| worker := worker p; state := state p; capabilities := c;
     currentProvider := currentProvider p;
     pendingRequests := pendingRequests p; requestCounter := requestCounter p;
     abortController := abortController p;
     optPreferredProvider := optPreferredProvider p; optVerbose := optVerbose p;
     imageIdCounter := imageIdCounter p;
     previousMaskLogits := previousMaskLogits p;
     currentImageId := currentImageId p;
     statusLog := statusLog p; progressLog := progressLog p |}.

Definition set_currentProvider (e : option ExecutionProvider) (p : WebGPUProvider)
  : WebGPUProvider :=
  {| worker := worker p; state := state p; capabilities := capabilities p;
     currentProvider := e;
     pendingRequests := pendingRequests p; requestCounter := requestCounter p;
     abortController := abortController p;
     optPreferredProvider := optPreferredProvider p; optVerbose := optVerbose p;
     imageIdCounter := imageIdCounter p;
     previousMaskLogits := previousMaskLogits p;
     currentImageId := currentImageId p;
     statusLog := statusLog p; progressLog := progressLog p |}.

Definition set_pending (l : list string) (n : nat) (p : WebGPUProvider)
  : WebGPUProvider :=
  {| worker := worker p; state := state p; capabilities := capabilities p;
     currentProvider := currentProvider p;
     pendingRequests := l; requestCounter := n;
     abortController := abortController p;
     optPreferredProvider := optPreferredProvider p; optVerbose := optVerbose p;
     imageIdCounter := imageIdCounter p;
     previousMaskLogits := previousMaskLogits p;
     currentImageId := currentImageId p;
     statusLog := statusLog p; progressLog := progressLog p |}.

Definition set_abortController (b : bool) (p : WebGPUProvider) : WebGPUProvider :=
  {| worker := worker p; state := state p; capabilities := capabilities p;
     currentProvider := currentProvider p;
     pendingRequests := pendingRequests p; requestCounter := requestCounter p;
     abortController := b;
     optPreferredProvider := optPreferredProvider p; optVerbose := optVerbose p;
     imageIdCounter := imageIdCounter p;
     previousMaskLogits := previousMaskLogits p;
     currentImageId := currentImageId p;
     statusLog := statusLog p; progressLog := progressLog p |}.

Definition set_session (counter : nat) (logits : gmap string (list f32))
           (imageId : option string) (p : WebGPUProvider) : WebGPUProvider :=
  {| worker := worker p; state := state p; capabilities := capabilities p;
     currentProvider := currentProvider p;
     pendingRequests := pendingRequests p; requestCounter := requestCounter p;
     abortController := abortController p;
     optPreferredProvider := optPreferredProvider p; optVerbose := optVerbose p;
     imageIdCounter := counter;
     previousMaskLogits := logits;
     currentImageId := imageId;
     statusLog := statusLog p; progressLog := progressLog p |}.

Definition log_progress (evs : list Progress) (p : WebGPUProvider) : WebGPUProvider :=
  {| worker := worker p; state := state p; capabilities := capabilities p;
     currentProvider := currentProvider p;
     pendingRequests := pendingRequests p; requestCounter := requestCounter p;
     abortController := abortController p;
     optPreferredProvider := optPreferredProvider p; optVerbose := optVerbose p;
     imageIdCounter := imageIdCounter p;
     previousMaskLogits := previousMaskLogits p;
     currentImageId := currentImageId p;
     statusLog := statusLog p; progressLog := progressLog p ++ evs |}.

(** [isAvailable]: the probe result is cached, the answer is a constant. *)
Definition isAvailable (host : Host) (p : WebGPUProvider) : bool * WebGPUProvider :=
  let p := match capabilities p with
           | None => set_capabilities (Some (checkWebGPUCapabilities host)) p
           | Some _ => p
           end in
  (true, p).

Definition getCapabilities (host : Host) (p : WebGPUProvider)
  : WebGPUCapabilities * WebGPUProvider :=
  match capabilities p with
  | None => let caps := checkWebGPUCapabilities host in
            (caps, set_capabilities (Some caps) p)
  | Some caps => (caps, p)
  end.

Definition getState (p : WebGPUProvider) : ProviderState := state p.

(** [`img_${++this.imageIdCounter}`] *)
Definition freshImageId (p : WebGPUProvider) : string :=
  "img_" +:+ pretty (S (imageIdCounter p)).

Definition startNewSession (p : WebGPUProvider) : WebGPUProvider :=
  set_session (S (imageIdCounter p)) ∅ (Some (freshImageId p)) p.

Definition clearPreviousMask (p : WebGPUProvider) : WebGPUProvider :=
  match currentImageId p with
  | Some id => set_session (imageIdCounter p) (delete id (previousMaskLogits p))
                           (currentImageId p) p
  | None => p
  end.

(** "Use current session imageId, or create one if not started". *)
Definition ensureImageId (p : WebGPUProvider) : string * WebGPUProvider :=
  match currentImageId p with
  | Some id => (id, p)
  | None => (freshImageId p,
             set_session (S (imageIdCounter p)) (previousMaskLogits p)
                         (Some (freshImageId p)) p)
  end.

(** [handleWorkerMessage]: a non-debug message settles the first pending
    request, if there is one.  The result names the request settled. *)
Definition handleWorkerMessage (message : WorkerResponseMessage) (p : WebGPUProvider)
  : option (string * Settled WorkerResponseMessage) * WebGPUProvider :=
  match message with
  | RespDebug _ => (None, p)
  | _ =>
      match pendingRequests p with
      | [] => (None, p)
      | requestId :: rest =>
          let p := set_pending rest (requestCounter p) p in
          match message with
          | RespError m requestType =>
              (Some (requestId,
                     Rejected (SegmentationError m SERVER_ERROR (Some requestType))), p)
          | _ => (Some (requestId, Fulfilled message), p)
          end
      end
  end.

(** Delivery of the worker's responses, in order, to [handleWorkerMessage]. *)
Fixpoint deliver (responses : list WorkerResponseMessage) (p : WebGPUProvider)
  : list (string * Settled WorkerResponseMessage) * WebGPUProvider :=
  match responses with
  | [] => ([], p)
  | m :: rest =>
      let '(s, p) := handleWorkerMessage m p in
      let '(ss, p) := deliver rest p in
      (match s with Some x => x :: ss | None => ss end, p)
  end.

(** How the promise of request [requestId] ends up. *)
Fixpoint outcomeOf (requestId : string)
         (settlements : list (string * Settled WorkerResponseMessage))
  : Settled WorkerResponseMessage :=
  match settlements with
  | [] => Pending
  | (id, s) :: rest =>
      if bool_decide (id = requestId) then s else outcomeOf requestId rest
  end.

Section WithRuntime.
Context {rt : Runtime}.

(** [sendWorkerMessage]: register the request, post it, and (the worker
    being run to completion here) receive its responses. *)
Definition sendWorkerMessage (clk : Clock) (message : WorkerRequestMessage)
           (p : WebGPUProvider)
  : Settled WorkerResponseMessage * WebGPUProvider :=
  match worker p with
  | None => (Rejected (Error "Worker not created"), p)
  | Some w =>
      let requestId := "req_" +:+ pretty (S (requestCounter p)) in
      let p := set_pending (pendingRequests p ++ [requestId])
                           (S (requestCounter p)) p in
      let '(responses, w) := onmessage clk message w in
      let p := set_worker (Some w) p in
      let '(settlements, p) := deliver responses p in
      (outcomeOf requestId settlements, p)
  end.

(** [initializeWorker]: [result.provider] of the response, [None] when
    the response has no such field. *)
Definition initializeWorker (clk : Clock) (encoderData decoderData : Bytes)
           (p : WebGPUProvider)
  : Settled (option ExecutionProvider) * WebGPUProvider :=
  let options := {| preferredProvider := Some (default webgpu (optPreferredProvider p));
                    opt_verbose := optVerbose p |} in
  match sendWorkerMessage clk (ReqInitialize encoderData decoderData (Some options)) p with
  | (Fulfilled (RespInitialized provider), p) => (Fulfilled (Some provider), p)
  | (Fulfilled _, p) => (Fulfilled None, p)
  | (Rejected e, p) => (Rejected e, p)
  | (Pending, p) => (Pending, p)
  end.

(** What one [initialize] call meets: the loader's environment and
    whether [new Worker(...)] throws. *)
Record InitEnv : Type := mkInitEnv {
  loaderEnv : LoaderEnv;
  workerSpawnFails : option Exn
}.

(** The [catch] and [finally] of [initialize]. *)
Definition initializeFailed (e : Exn) (p : WebGPUProvider)
  : Settled (option ExecutionProvider) * WebGPUProvider :=
  let p := set_abortController false (setState error p) in
  (Rejected (if bool_decide (exn_name e = "AbortError")
             then SegmentationError "Initialization aborted" ABORTED None
             else e), p).

Definition initialize (env : InitEnv) (clk : Clock) (p : WebGPUProvider)
  : Settled (option ExecutionProvider) * WebGPUProvider :=
  match state p with
  | ready => (Fulfilled (currentProvider p), p)
  | loading_models | initializing =>
      (Rejected (Error "Initialization already in progress"), p)
  | _ =>
      let p := set_abortController true (setState loading_models p) in
      let '(progress, models) := loadAllModels (loaderEnv env) in
      let p := log_progress progress p in
      match models with
      | inl e => initializeFailed e p
      | inr (encoderData, decoderData) =>
          let p := setState initializing p in
          match workerSpawnFails env with
          | Some e => initializeFailed e p
          | None =>
              let p := set_worker (Some None) p in
              match initializeWorker clk encoderData decoderData p with
              | (Fulfilled provider, p) =>
                  let p := setState ready (set_currentProvider provider p) in
                  (Fulfilled provider, set_abortController false p)
              | (Rejected e, p) => initializeFailed e p
              | (Pending, p) => (Pending, p)
              end
          end
      end
  end.

(** [abort]: pending promises are rejected and forgotten. *)
Definition abort (p : WebGPUProvider) : WebGPUProvider :=
  set_pending [] (requestCounter p) p.

Definition dispose (clk : Clock) (p : WebGPUProvider) : WebGPUProvider :=
  let p := abort p in
  let p := match worker p with
           | Some _ => set_worker None (snd (sendWorkerMessage clk ReqDispose p))
           | None => p
           end in
  set_currentProvider None (setState idle p).

(** The state check that opens [preEncodeImage] and [segmentSingleView]:
    auto-initialise from [idle], refuse any other state but [ready]. *)
Definition ensureReady (what : string) (env : InitEnv) (clk : Clock)
           (p : WebGPUProvider) : Settled unit * WebGPUProvider :=
  match state p with
  | ready => (Fulfilled tt, p)
  | idle =>
      match initialize env clk p with
      | (Fulfilled _, p) => (Fulfilled tt, p)
      | (Rejected e, p) => (Rejected e, p)
      | (Pending, p) => (Pending, p)
      end
  | s => (Rejected (Error (what +:+ " (state: " +:+ state_name s +:+ ")")), p)
  end.

Definition preEncodeImage (env : InitEnv) (clk : Clock) (imageData : list N)
           (width height : nat) (p : WebGPUProvider)
  : Settled (option Q) * WebGPUProvider :=
  match ensureReady "Provider not ready for encoding" env clk p with
  | (Rejected e, p) => (Rejected e, p)
  | (Pending, p) => (Pending, p)
  | (Fulfilled _, p) =>
      let '(imageId, p) := ensureImageId p in
      match sendWorkerMessage clk (ReqEncode imageId imageData width height) p with
      | (Fulfilled (RespEncoded _ encodeTime), p) => (Fulfilled (Some encodeTime), p)
      | (Fulfilled _, p) => (Fulfilled None, p)
      | (Rejected e, p) => (Rejected e, p)
      | (Pending, p) => (Pending, p)
      end
  end.

Definition MASK_SIZE : nat := 256 * 256.

(** The [bestMaskLogits] buffer the provider keeps for refinement. *)
Definition extractBestMaskLogits (logits : list f32) : list f32 :=
  if length logits =? MASK_SIZE then logits
  else if MASK_SIZE <=? length logits then take MASK_SIZE logits
  else repeat (Fin 0) MASK_SIZE.

(** The fields [segmentSingleView] reads off the worker's response. *)
Definition payloadOf (m : WorkerResponseMessage) : option MaskPayload :=
  match m with
  | RespSegmented payload | RespDecoded payload => Some payload
  | _ => None
  end.

Definition segmentSingleView (env : InitEnv) (clk : Clock)
           (request : SegmentationRequest) (p : WebGPUProvider)
  : Settled SegmentationResponse * WebGPUProvider :=
  match ensureReady "Provider not ready" env clk p with
  | (Rejected e, p) => (Rejected e, p)
  | (Pending, p) => (Pending, p)
  | (Fulfilled _, p) =>
      let p := setState processing p in
      let '(imageId, p) := ensureImageId p in
      let sam2Points := map (fun q => mkPoint (pt_x q) (pt_y q) (pt_type q))
                            (points request) in
      let previousMask := previousMaskLogits p !! imageId in
      match sendWorkerMessage clk
              (ReqSegment imageId (image request) (width request)
                          (height request) sam2Points previousMask) p with
      | (Rejected e, p) => (Rejected e, setState ready p)
      | (Pending, p) => (Pending, p)
      | (Fulfilled result, p) =>
          let result := payloadOf result in
          let p := match result ≫= p_logits with
                   | Some logits =>
                       set_session (imageIdCounter p)
                                   (<[imageId := extractBestMaskLogits logits]>
                                      (previousMaskLogits p))
                                   (currentImageId p) p
                   | None => p
                   end in
          let p := setState ready p in
          let allMasks :=
            match result ≫= p_allMasks with
            | Some l => if 0 <? length l
                        then Some (map (fun wm =>
                               {| c_index := c_index wm;
                                  c_iouScore := c_iouScore wm;
                                  c_mask := c_mask wm;
                                  c_width := c_width wm;
                                  c_height := c_height wm;
                                  c_logits := c_logits wm |}) l)
                        else None
            | None => None
            end in
          (Fulfilled {| resp_width := p_width <$> result;
                        resp_height := p_height <$> result;
                        resp_mask := p_mask <$> result;
                        resp_logits := result ≫= p_logits;
                        resp_allMasks := allMasks;
                        resp_selectedMaskIndex := result ≫= p_selectedMaskIndex |},
           p)
      end
  end.

End WithRuntime.

End Provider.

(** ** mask-selection.ts and segmentation-service.ts (pending mask) *)
Module Service.
Import Core Provider.

Inductive SelectionOp : Type := add | remove | set.

Record MaskSelectionOptions : Type := mkSelectionOptions {
  op : SelectionOp;
  threshold : option Q;
  targetWidth : option nat;
  targetHeight : option nat
}.

Record Canvas : Type := mkCanvas {
  cv_width : option nat;
  cv_height : option nat;
  cv_pixels : list N
}.

(** The document as [applyMaskToSelection] uses it: whether
    [canvas.getContext('2d')] yields a context, and the pixels that end up
    on the canvas after [createImageData], the fill loop and
    [putImageData] or the scaled [drawImage] (or the value one of these
    DOM calls throws). *)
Class Dom : Type := {
  getContext2d : bool;
  paint : SegmentationResponse -> MaskSelectionOptions -> Try (list N)
}.

(** Calls of [events.fire] that concern the pending mask. *)
Inductive Event : Type :=
| SelectByMask (op : SelectionOp) (canvas : Canvas)
| MaskApplied (width height : option nat)
| MaskCancelled.

Record PendingMask : Type := mkPending {
  response : SegmentationResponse;
  canvasWidth : nat;
  canvasHeight : nat
}.

(** Class [SegmentationService]: the provider it owns, the pending mask,
    and [fired], the events fired so far, oldest first. *)
Record SegmentationService : Type := mkService {
  provider : option WebGPUProvider;
  isInitializing : bool;
  pendingMask : option PendingMask;
  fired : list Event
}.

Definition set_pendingMask (m : option PendingMask) (s : SegmentationService)
  : SegmentationService :=
  {| provider := provider s; isInitializing := isInitializing s;
     pendingMask := m; fired := fired s |}.

Definition fire (e : Event) (s : SegmentationService) : SegmentationService :=
  {| provider := provider s; isInitializing := isInitializing s;
     pendingMask := pendingMask s; fired := fired s ++ [e] |}.

Definition determineSelectionOp : SelectionOp := add.

Section WithDom.
Context {dom : Dom}.

(** [applyMaskToSelection(response, options, events)] *)
Definition applyMaskToSelection (response : SegmentationResponse)
           (options : MaskSelectionOptions) (s : SegmentationService)
  : Try unit * SegmentationService :=
  let canvas_width := nullish (targetWidth options) (resp_width response) in
  let canvas_height := nullish (targetHeight options) (resp_height response) in
  if getContext2d
  then match paint response options with
       | inl e => (throw e, s)
       | inr pixels =>
           (ret tt,
            fire (SelectByMask (op options)
                               (mkCanvas canvas_width canvas_height pixels)) s)
       end
  else (throw (Error "Failed to create canvas 2D context"), s).

(** [applyPendingMask] *)
Definition applyPendingMask (s : SegmentationService)
  : Try unit * SegmentationService :=
  match pendingMask s with
  | None => (ret tt, s)
  | Some pm =>
      let selectionOp := determineSelectionOp in
      match applyMaskToSelection (response pm)
              {| op := selectionOp;
                 threshold := Some (1 # 2)%Q;
                 targetWidth := Some (canvasWidth pm);
                 targetHeight := Some (canvasHeight pm) |} s with
      | (inl e, s) => (inl e, s)
      | (inr _, s) =>
          let s := set_pendingMask None s in
          (ret tt, fire (MaskApplied (resp_width (response pm))
                                     (resp_height (response pm))) s)
      end
  end.

(** [cancelPendingMask] *)
Definition cancelPendingMask (s : SegmentationService) : SegmentationService :=
  match pendingMask s with
  | None => s
  | Some _ => fire MaskCancelled (set_pendingMask None s)
  end.

End WithDom.

End Service.

(** * Vocabulary of the statements *)
Module Vocabulary.
Import ModelLoader.




(** A mask byte is either 0 or 255. *)
Definition binary (mask : list N) : Prop :=
  Forall (fun b => b = 0%N \/ b = 255%N) mask.

(** [best] is the argmax of [scores] with ties broken toward the smallest
    index, in terms of the comparisons the code performs: no score is
    greater than the selected one, no score at a smaller index is greater
    than or equal to it, and the selected score is an entry of [scores]
    that exceeds [-Infinity]; only when no score exceeds [-Infinity] (all
    are NaN or [-Infinity], or there is none) is the index 0.  At most one
    index satisfies this. *)
Definition first_argmax (scores : list f32) (best : nat) : Prop :=
  (forall j, j < length scores ->
             gt (nth j scores NaN) (nth best scores NaN) = false) /\
  (forall j, j < best ->
             ge (nth j scores NaN) (nth best scores NaN) = false) /\
  ((best < length scores /\ gt (nth best scores NaN) NegInf = true) \/
   (best = 0 /\
    forall j, j < length scores -> gt (nth j scores NaN) NegInf = false)).

(** Invariant of the IoU loop after the scores [seen] were visited. *)
Definition loop_inv (seen : list f32) (maxIoU : f32) (best : nat) : Prop :=
  Forall (fun v => gt v maxIoU = false) seen /\
  ((maxIoU = NegInf /\ best = 0) \/
   (best < length seen /\ nth best seen NaN = maxIoU /\
    gt maxIoU NegInf = true /\
    forall j, j < best -> ge (nth j seen NaN) maxIoU = false)).

(** How [handleWorkerMessage] settles the oldest pending request when
    [response] arrives. *)
Definition settle (response : Worker.WorkerResponseMessage)
  : Settled Worker.WorkerResponseMessage :=
  match response with
  | Worker.RespError m requestType =>
      Rejected (SegmentationError m SERVER_ERROR (Some requestType))
  | Worker.RespDebug _ => Pending
  | _ => Fulfilled response
  end.

(** The rejection the provider produces for a value thrown in the worker
    while it handled [message]. *)
Definition workerFailure (e : Exn) (message : Worker.WorkerRequestMessage) : Exn :=
  SegmentationError (exn_message e) SERVER_ERROR
                    (Some (Worker.request_type message)).

(** [p] is ready, has no request outstanding, and its worker holds an
    initialised engine [core] in which the session image [imageId] is
    already encoded. *)
Definition ready_for (p : Provider.WebGPUProvider) (imageId : string)
           (core : Core.SAM2Core) (ds : Session) (emb : Tensor) : Prop :=
  Provider.state p = Provider.ready /\
  Provider.worker p = Some (Some core) /\
  Provider.pendingRequests p = [] /\
  Provider.currentImageId p = Some imageId /\
  Core.ort core = true /\
  is_Some (Core.encoderSession core) /\
  Core.decoderSession core = Some ds /\
  Core.imageEmbeddings core !! imageId = Some emb.

(** The response the provider builds from an engine result. *)
Definition responseOf (r : Core.SAM2Result) : Provider.SegmentationResponse :=
  {| Provider.resp_width := Some (Core.r_width r);
     Provider.resp_height := Some (Core.r_height r);
     Provider.resp_mask := Some (Core.r_mask r);
     Provider.resp_logits := Core.r_logits r;
     Provider.resp_allMasks :=
       match Core.r_allMasks r with
       | Some l => if 0 <? length l then Some l else None
       | None => None
       end;
     Provider.resp_selectedMaskIndex := Core.r_selectedMaskIndex r |}.

(** The logits the provider keeps after a result. *)
Definition storedAfter (r : Core.SAM2Result) (imageId : string)
           (stored : gmap string (list f32)) : gmap string (list f32) :=
  match Core.r_logits r with
  | Some logits => <[imageId := Provider.extractBestMaskLogits logits]> stored
  | None => stored
  end.

(** [q] is the value of a finite binary32 number: [m * 2^e] for integers
    [|m| < 2^24] and [-149 <= e <= 104].  A quotient and a product with
    this value are computed exactly by the double arithmetic of
    JavaScript, and a [Float32Array] stores them unchanged. *)
Definition float32_value (q : Q) : Prop :=
  exists m e : Z,
    (Z.abs m < 2 ^ 24)%Z /\ (-149 <= e <= 104)%Z /\
    (q == inject_Z m * 2 ^ e)%Q.

(** Both sessions can be created on execution provider [ep]. *)
Definition sessionsCreatable {rt : Runtime} (enc dec : Bytes)
           (ep : ExecutionProvider) : bool :=
  bool_decide (session_create enc ep = None) &&
  bool_decide (session_create dec ep = None).

(** The providers [createSessions] tries, in order. *)
Definition providersTried (preferred : option ExecutionProvider)
  : list ExecutionProvider :=
  match default webgpu preferred with
  | webgpu => [webgpu; wasm]
  | wasm => [wasm]
  end.

(** A [debug] message of the worker. *)
Definition isDebug (response : Worker.WorkerResponseMessage) : bool :=
  match response with
  | Worker.RespDebug _ => true
  | _ => false
  end.

(** The calls a client can make on a [WebGPUProvider], each with what the
    call meets in its environment. *)
Inductive ApiCall : Type :=
| CallIsAvailable (host : Capability.Host)
| CallGetCapabilities (host : Capability.Host)
| CallInitialize (env : Provider.InitEnv) (clk : Worker.Clock)
| CallStartNewSession
| CallClearPreviousMask
| CallPreEncodeImage (env : Provider.InitEnv) (clk : Worker.Clock)
                     (imageData : list N) (width height : nat)
| CallSegmentSingleView (env : Provider.InitEnv) (clk : Worker.Clock)
                        (request : Provider.SegmentationRequest)
| CallAbort
| CallDispose (clk : Worker.Clock).

(** The provider after one call, each call being run to completion. *)
Definition afterCall {rt : Runtime} (c : ApiCall) (p : Provider.WebGPUProvider)
  : Provider.WebGPUProvider :=
  match c with
  | CallIsAvailable host => (Provider.isAvailable host p).2
  | CallGetCapabilities host => (Provider.getCapabilities host p).2
  | CallInitialize env clk => (Provider.initialize env clk p).2
  | CallStartNewSession => Provider.startNewSession p
  | CallClearPreviousMask => Provider.clearPreviousMask p
  | CallPreEncodeImage env clk imageData w h =>
      (Provider.preEncodeImage env clk imageData w h p).2
  | CallSegmentSingleView env clk request =>
      (Provider.segmentSingleView env clk request p).2
  | CallAbort => Provider.abort p
  | CallDispose clk => Provider.dispose clk p
  end.

(** The provider after a sequence of calls, first call first. *)
Definition afterCalls {rt : Runtime} (calls : list ApiCall)
           (p : Provider.WebGPUProvider) : Provider.WebGPUProvider :=
  foldl (fun p c => afterCall c p) p calls.

(** [imageId] is one of the session ids the provider has issued so far. *)
Definition issued (p : Provider.WebGPUProvider) (imageId : string) : Prop :=
  exists k, 1 <= k <= Provider.imageIdCounter p /\
            imageId = "img_" +:+ pretty k.

(** Every decoder run so far was given a [mask_input] of 256 x 256 floats. *)
Definition maskInputsSized (core : Core.SAM2Core) : Prop :=
  Forall (fun feeds => length (t_data (mask_input feeds)) = 256 * 256)
         (Core.decoderRuns core).

(** The engine holds both sessions. *)
Definition engineReady (core : Core.SAM2Core) : Prop :=
  Core.ort core = true /\
  is_Some (Core.encoderSession core) /\
  is_Some (Core.decoderSession core).

(** What holds of a provider between two calls. *)
Record consistent (p : Provider.WebGPUProvider) : Prop := mkConsistent {
  cons_quiet : Provider.pendingRequests p = [];
  cons_state : Provider.state p = Provider.idle \/
               Provider.state p = Provider.ready \/
               Provider.state p = Provider.error;
  cons_ready : Provider.state p = Provider.ready ->
               exists core, Provider.worker p = Some (Some core) /\
                            engineReady core;
  cons_sized : map_Forall (fun _ logits => length logits = 256 * 256)
                          (Provider.previousMaskLogits p);
  cons_feeds : forall core, Provider.worker p = Some (Some core) ->
                            maskInputsSized core;
  cons_cache : forall core imageId,
      Provider.worker p = Some (Some core) ->
      is_Some (Core.imageEmbeddings core !! imageId) -> issued p imageId;
  cons_session : forall imageId,
      Provider.currentImageId p = Some imageId -> issued p imageId;
  cons_stored : forall imageId,
      is_Some (Provider.previousMaskLogits p !! imageId) ->
      Provider.currentImageId p = Some imageId
}.

End Vocabulary.

(** * Test fixtures *)
Module Fixtures.
Import ModelLoader.

(** Nothing is cached; the server streams a 2-byte encoder and a 1-byte
    decoder, one chunk each. *)
Definition tinyDownloads : LoaderEnv :=
  {| cached := fun _ => None;
     fetch := fun key =>
                match key with
                | encoder => Streamed None [mkBytes 2 258] None
                | decoder => Streamed None [mkBytes 1 3] None
                end |}.


(** No model is cached and the server answers 404 for the encoder. *)
Definition serverDown : LoaderEnv :=
  {| cached := fun _ => None;
     fetch := fun _ => HttpNotOk "404" "Not Found" |}.

(** Three 2x2 candidate planes of logits. *)
Definition threeMasks : MaskTensor :=
  {| mt_data := [Fin 1; Fin (-1); Fin 1; Fin 1;
                 Fin (-1); Fin (-1); Fin 2; Fin (-3);
                 Fin 2; Fin 2; Fin 2; Fin (-1 # 2)];
     mt_batch := 1; mt_num_masks := 3; mt_height := 2; mt_width := 2 |}.

Definition threeScores : list f32 := [Fin (7 # 10); Fin (9 # 10); Fin (8 # 10)].

(** A runtime for the examples: the rasteriser repeats the source pixels
    cyclically, every session can be created, the encoder emits one
    embedding, and the decoder throws when it is given no point and
    otherwise emits [threeMasks] with [threeScores]. *)
#[export] Instance tinyRuntime : Runtime :=
  {| canvas_resample := fun rgba w h tw th =>
       flat_map (fun i => let v := nth (4 * (i mod (w * h))) rgba 0%N in
                          [v; v; v; 255%N])
                (seq 0 (tw * th));
     preprocess := fun _ _ _ => mkTensor [] [1; 3; 1024; 1024];
     session_create := fun _ _ => None;
     encoder_run := fun _ _ =>
       inr {| er_image_embed := Some (mkTensor [Fin 1] [1]);
              er_high_res_feats_0 := None;
              er_high_res_feats_1 := None |};
     decoder_run := fun _ feeds =>
       if length (t_data (point_labels feeds)) =? 0
       then inl (Error "shape mismatch")
       else inr {| dr_masks := Some threeMasks;
                   dr_low_res_masks := None;
                   dr_iou_predictions := Some threeScores;
                   dr_iou_pred := None |} |}.

Definition goodEnv : Provider.InitEnv :=
  {| Provider.loaderEnv := tinyDownloads; Provider.workerSpawnFails := None |}.

Definition badEnv : Provider.InitEnv :=
  {| Provider.loaderEnv := serverDown; Provider.workerSpawnFails := None |}.

(** An engine with both sessions created and image [img_1] encoded. *)
Definition encodedCore : Core.SAM2Core :=
  {| Core.ort := true;
     Core.encoderSession := Some (mkSession (mkBytes 2 258) webgpu);
     Core.decoderSession := Some (mkSession (mkBytes 1 3) webgpu);
     Core.imageEmbeddings := {[ "img_1" := mkTensor [Fin 1] [1] ]};
     Core.highResFeatures := ∅;
     Core.cachedImageData := ∅;
     Core.currentProvider := webgpu;
     Core.verbose := true;
     Core.encoderRuns := [];
     Core.decoderRuns := [] |}.

(** The same engine before any image was encoded. *)
Definition initializedCore : Core.SAM2Core :=
  Core.set_caches ∅ ∅ ∅ encodedCore.

Definition onePoint : list SAM2Point := [mkPoint 1 0 fg].

(** A 2x1 image, two RGBA pixels. *)
Definition twoPixels : list N := [0; 0; 0; 255; 0; 0; 0; 255]%N.

Definition emptyResult : Core.SAM2Result :=
  {| Core.r_mask := []; Core.r_width := 0; Core.r_height := 0;
     Core.r_logits := None; Core.r_allMasks := None;
     Core.r_selectedMaskIndex := None;
     Core.r_timing := Core.mkTiming None 0 0 |}.

(** A first decode of [img_1] with one foreground point. *)
Definition firstDecode : Try Core.SAM2Result * Core.SAM2Core :=
  Core.decode "img_1" onePoint 2 1 None 8 encodedCore.

Definition firstResult : Core.SAM2Result :=
  match firstDecode.1 with
  | inr r => r
  | inl _ => emptyResult
  end.

Definition clock : Worker.Clock :=
  {| Worker.encodeElapsed := 120; Worker.decodeElapsed := 8 |}.

(** A provider in the middle of [initialize], at the [await] of
    [loadAllModels]. *)
Definition loadingProvider : Provider.WebGPUProvider :=
  Provider.set_abortController true
    (Provider.setState Provider.loading_models (Provider.new None None)).

(** A provider in the middle of [initialize], at the [await] of
    [initializeWorker]: the worker was created and its [initialize] request
    is outstanding. *)
Definition initializingProvider : Provider.WebGPUProvider :=
  Provider.set_pending ["req_1"] 1
    (Provider.set_worker (Some None)
       (Provider.setState Provider.initializing loadingProvider)).

(** A ready provider in session [img_1], its worker holding [encodedCore];
    no previous mask is stored. *)
Definition readyProvider : Provider.WebGPUProvider :=
  {| Provider.worker := Some (Some encodedCore);
     Provider.state := Provider.ready;
     Provider.capabilities := None;
     Provider.currentProvider := Some webgpu;
     Provider.pendingRequests := [];
     Provider.requestCounter := 1;
     Provider.abortController := false;
     Provider.optPreferredProvider := None;
     Provider.optVerbose := None;
     Provider.imageIdCounter := 1;
     Provider.previousMaskLogits := ∅;
     Provider.currentImageId := Some "img_1";
     Provider.statusLog := [Provider.loading_models; Provider.initializing;
                            Provider.ready];
     Provider.progressLog := [] |}.

Definition firstRequest : Provider.SegmentationRequest :=
  {| Provider.image := twoPixels; Provider.width := 2; Provider.height := 1;
     Provider.points := onePoint |}.


(** The first request of the session, run on [readyProvider]. *)
Definition firstSegment
  : Settled Provider.SegmentationResponse * Provider.WebGPUProvider :=
  Provider.segmentSingleView
    {| Provider.loaderEnv := tinyDownloads; Provider.workerSpawnFails := None |}
    {| Worker.encodeElapsed := 120; Worker.decodeElapsed := 8 |}
    firstRequest readyProvider.

Definition emptyResponse : Provider.SegmentationResponse :=
  {| Provider.resp_width := None; Provider.resp_height := None;
     Provider.resp_mask := None; Provider.resp_logits := None;
     Provider.resp_allMasks := None;
     Provider.resp_selectedMaskIndex := None |}.

Definition firstResponse : Provider.SegmentationResponse :=
  match firstSegment.1 with
  | Fulfilled r => r
  | _ => emptyResponse
  end.

(** A request without points, on which the decoder of [tinyRuntime] throws. *)
Definition pointlessRequest : Provider.SegmentationRequest :=
  {| Provider.image := twoPixels; Provider.width := 2; Provider.height := 1;
     Provider.points := [] |}.

(** One 256x256 plane of logits, all equal to [v]. *)
Definition plane (v : Q) : list f32 := repeat (Fin v) (256 * 256).







(** A provider whose first [initialize] failed because the server was down. *)
Definition failedProvider : Provider.WebGPUProvider :=
  (Provider.initialize badEnv clock (Provider.new None None)).2.

(** A document whose canvases always give a 2D context and paint nothing. *)
#[export] Instance blankDom : Service.Dom :=
  {| Service.getContext2d := true;
     Service.paint := fun _ _ => inr [] |}.

Definition someResponse : Provider.SegmentationResponse :=
  {| Provider.resp_width := Some 2; Provider.resp_height := Some 1;
     Provider.resp_mask := Some [255%N; 0%N];
     Provider.resp_logits := None;
     Provider.resp_allMasks := None;
     Provider.resp_selectedMaskIndex := Some 0 |}.

(** A service holding a mask that awaits confirmation. *)
Definition serviceWithPending : Service.SegmentationService :=
  {| Service.provider := None; Service.isInitializing := false;
     Service.pendingMask := Some (Service.mkPending someResponse 4 2);
     Service.fired := [] |}.

(** [readyProvider] after a first mask of session [img_1] was stored. *)
Definition refinedProvider : Provider.WebGPUProvider :=
  Provider.set_session 1 {[ "img_1" := plane 1 ]} (Some "img_1") readyProvider.

(** A provider just after a successful [initialize]: ready, its engine
    initialised, no session started and nothing encoded. *)
Definition coldProvider : Provider.WebGPUProvider :=
  {| Provider.worker := Some (Some initializedCore);
     Provider.state := Provider.ready;
     Provider.capabilities := None;
     Provider.currentProvider := Some webgpu;
     Provider.pendingRequests := [];
     Provider.requestCounter := 1;
     Provider.abortController := false;
     Provider.optPreferredProvider := None;
     Provider.optVerbose := None;
     Provider.imageIdCounter := 0;
     Provider.previousMaskLogits := ∅;
     Provider.currentImageId := None;
     Provider.statusLog := [Provider.loading_models; Provider.initializing;
                            Provider.ready];
     Provider.progressLog := [] |}.

End Fixtures.


(** ** segmentation-service.ts (event handlers of class SegmentationService) *)
Module ServiceFlow.
Import Core Worker Capability ModelLoader Provider Service.

(** The [stats] of [sam.segmentComplete]: three rounded differences of
    [performance.now()] readings. *)
Record SegmentStats : Type := mkStats {
  totalTime : Z;
  encodeTime : Z;
  decodeTime : Z
}.

(** Calls of [events.fire] the handlers of the service make themselves.
    The events fired from the two callbacks the service gives its provider,
    [sam.modelLoadProgress] and [sam.providerStatusChanged], are the
    entries of the provider's [progressLog] and [statusLog]. *)
Inductive SamEvent : Type :=
| SamCapabilities (capabilities : WebGPUCapabilities)
| SamInitError (error : string)
| SamLowVramWarning (estimated threshold : N)
| SamProviderReady
| SamSegmentStart
| SamImageCaptured (image : list N) (width height : nat)
| SamMaskReady (mask : list N) (width height : option nat)
               (allMasks : option (list SAM2MaskCandidate))
               (selectedMaskIndex : option nat)
| SamSegmentComplete (width height : option nat) (hasPendingMask : bool)
                     (stats : SegmentStats)
| SamSegmentError (message : string)
| SamEncodingStart
| SamEncodingComplete (encodeTime : option Q)
| SamEncodingError (message : string).

(** What one handler meets: the GPU host, what [provider.initialize] and
    the worker meet, the size of [this.canvas], what
    [events.invoke('render.offscreen', width, height)] resolves to or
    rejects with, and the timing statistics. *)
Record ServiceEnv : Type := mkServiceEnv {
  host : Host;
  initEnv : InitEnv;
  clock : Clock;
  canvas_width : nat;
  canvas_height : nat;
  renderOffscreen : nat -> nat -> Try (list N);
  stats : SegmentStats
}.

(** A handler's run: the events it fired, oldest first, how its promise
    settles, and the service it leaves. *)
Definition Run : Type :=
  (list SamEvent * Settled unit * SegmentationService)%type.

Definition events (r : Run) : list SamEvent := r.1.1.
Definition outcome (r : Run) : Settled unit := r.1.2.
Definition service (r : Run) : SegmentationService := r.2.

Definition set_provider (p : option WebGPUProvider) (s : SegmentationService)
  : SegmentationService :=
  {| provider := p; isInitializing := isInitializing s;
     pendingMask := pendingMask s; fired := fired s |}.

(** [isInitializing] and [initPromise] are assigned together: the flag is
    set exactly while [initPromise] holds a promise. *)
Definition set_isInitializing (b : bool) (s : SegmentationService)
  : SegmentationService :=
  {| provider := provider s; isInitializing := b;
     pendingMask := pendingMask s; fired := fired s |}.

(** [new SegmentationService(events, canvas)] *)
Definition new : SegmentationService :=
  {| provider := None; isInitializing := false; pendingMask := None;
     fired := [] |}.

(** The [state] field of [getStatus()]. *)
Inductive StatusState : Type :=
| not_initialized
| provider_state (s : ProviderState).

(** [getStatus]: [(state, modelsCached)]. *)
Definition getStatus (s : SegmentationService) : StatusState * bool :=
  match provider s with
  | None => (not_initialized, false)
  | Some p => (provider_state (getState p), false)
  end.

(** [a || b] for an optional string [a]. *)
Definition orString (a : option string) (b : string) : string :=
  match a with
  | None | Some EmptyString => b
  | Some a => a
  end.

(** [this.provider && this.provider.getState() === 'ready'] *)
Definition providerIsReady (s : SegmentationService) : bool :=
  match provider s with
  | Some p => match getState p with
              | ready => true
              | _ => false
              end
  | None => false
  end.

Section WithRuntime.
Context {rt : Runtime}.

(** [_doInitialize] *)
Definition _doInitialize (env : ServiceEnv) (s : SegmentationService) : Run :=
  let capabilities := checkWebGPUCapabilities (host env) in
  let evs := [SamCapabilities capabilities] in
  if negb (available capabilities)
  then
    let error := orString (unavailableReason capabilities)
                          "WebGPU not available" in
    (evs ++ [SamInitError error], Rejected (Error error), s)
  else
    let evs := if isLowVRAM capabilities
               then evs ++ [SamLowVramWarning (estimatedVRAM capabilities)
                                              LOW_VRAM_THRESHOLD]
               else evs in
    let s := set_provider (Some (Provider.new None (Some true))) s in
    match Provider.initialize (initEnv env) (clock env)
                              (Provider.new None (Some true)) with
    | (Fulfilled _, p) =>
        (evs ++ [SamProviderReady], Fulfilled tt, set_provider (Some p) s)
    | (Rejected e, p) =>
        (evs ++ [SamInitError (exn_message e)], Rejected e,
         set_provider (Some p) s)
    | (Pending, p) => (evs, Pending, set_provider (Some p) s)
    end.

(** [initializeProvider].  A call that finds [initPromise] set returns
    that promise; between two handlers this is the case only when an
    earlier initialisation never settled. *)
Definition initializeProvider (env : ServiceEnv) (s : SegmentationService)
  : Run :=
  if isInitializing s then ([], Pending, s)
  else if providerIsReady s then ([], Fulfilled tt, s)
  else
    let s := set_isInitializing true s in
    match _doInitialize env s with
    | (evs, Pending, s) => (evs, Pending, s)
    | (evs, r, s) => (evs, r, set_isInitializing false s)
    end.

(** The step that opens the [try] block of [handleSegmentRequest] and of
    [preEncodeImage]: initialise unless a ready provider exists, then
    insist on a provider. *)
Definition requireProvider (env : ServiceEnv) (s : SegmentationService)
  : list SamEvent * Settled WebGPUProvider * SegmentationService :=
  let '(evs, r, s) := if providerIsReady s then ([], Fulfilled tt, s)
                      else initializeProvider env s in
  match r with
  | Pending => (evs, Pending, s)
  | Rejected e => (evs, Rejected e, s)
  | Fulfilled _ =>
      match provider s with
      | None => (evs, Rejected (Error "Failed to initialize segmentation provider"), s)
      | Some p => (evs, Fulfilled p, s)
      end
  end.

(** [handleSegmentRequest] *)
Definition handleSegmentRequest (env : ServiceEnv) (points : list SAM2Point)
           (s : SegmentationService) : Run :=
  if length points =? 0 then ([], Fulfilled tt, s)
  else
    let evs := [SamSegmentStart] in
    let caught (evs : list SamEvent) (e : Exn) (s : SegmentationService) : Run :=
      (evs ++ [SamSegmentError (exn_message e)], Fulfilled tt, s) in
    match requireProvider env s with
    | (evs1, Pending, s) => (evs ++ evs1, Pending, s)
    | (evs1, Rejected e, s) => caught (evs ++ evs1) e s
    | (evs1, Fulfilled p, s) =>
        let evs := evs ++ evs1 in
        let width := canvas_width env in
        let height := canvas_height env in
        match renderOffscreen env width height with
        | inl e => caught evs e s
        | inr image =>
            let evs := evs ++ [SamImageCaptured image width height] in
            let request :=
              {| image := image; width := width; height := height;
                 points := map (fun p => mkPoint (pt_x p) (pt_y p) (pt_type p))
                               points |} in
            match segmentSingleView (initEnv env) (clock env) request p with
            | (Pending, p) => (evs, Pending, set_provider (Some p) s)
            | (Rejected e, p) => caught evs e (set_provider (Some p) s)
            | (Fulfilled response, p) =>
                let s := set_provider (Some p) s in
                match resp_mask response with
                | Some mask =>
                    let s := set_pendingMask
                               (Some {| response := response;
                                        canvasWidth := width;
                                        canvasHeight := height |}) s in
                    (evs ++ [SamMaskReady mask (resp_width response)
                                          (resp_height response)
                                          (resp_allMasks response)
                                          (resp_selectedMaskIndex response);
                             SamSegmentComplete (resp_width response)
                                                (resp_height response)
                                                true (stats env)],
                     Fulfilled tt, s)
                | None =>
                    caught evs (Error "No mask returned from segmentation") s
                end
            end
        end
    end.

(** [preEncodeImage] of the service. *)
Definition preEncodeImage (env : ServiceEnv) (image : list N)
           (width height : nat) (s : SegmentationService) : Run :=
  let evs := [SamEncodingStart] in
  let caught (evs : list SamEvent) (e : Exn) (s : SegmentationService) : Run :=
    (evs ++ [SamEncodingError (exn_message e)], Fulfilled tt, s) in
  match requireProvider env s with
  | (evs1, Pending, s) => (evs ++ evs1, Pending, s)
  | (evs1, Rejected e, s) => caught (evs ++ evs1) e s
  | (evs1, Fulfilled p, s) =>
      let evs := evs ++ evs1 in
      match Provider.preEncodeImage (initEnv env) (clock env) image width height p with
      | (Pending, p) => (evs, Pending, set_provider (Some p) s)
      | (Rejected e, p) => caught evs e (set_provider (Some p) s)
      | (Fulfilled encodeTime, p) =>
          (evs ++ [SamEncodingComplete encodeTime], Fulfilled tt,
           set_provider (Some p) s)
      end
  end.

(** [captureViewportPreview].  The pre-encoding it starts is not awaited
    by the source; here it is run to its end before the next handler, and
    the outcome is that of the pre-encoding. *)
Definition captureViewportPreview (env : ServiceEnv) (s : SegmentationService)
  : Run :=
  let width := canvas_width env in
  let height := canvas_height env in
  match renderOffscreen env width height with
  | inl e => ([], Fulfilled tt, s)
  | inr image =>
      let s := match provider s with
               | Some p => set_provider (Some (startNewSession p)) s
               | None => s
               end in
      let '(evs, r, s) := preEncodeImage env image width height s in
      (SamImageCaptured image width height :: evs, r, s)
  end.

(** [abort] *)
Definition abort (s : SegmentationService) : SegmentationService :=
  match provider s with
  | Some p => set_provider (Some (Provider.abort p)) s
  | None => s
  end.

(** [dispose]: the provider that was disposed of, as [dispose] left it,
    and the service. *)
Definition dispose (env : ServiceEnv) (s : SegmentationService)
  : option WebGPUProvider * SegmentationService :=
  match provider s with
  | Some p => (Some (Provider.dispose (clock env) p), set_provider None s)
  | None => (None, s)
  end.

End WithRuntime.

(** The events the service subscribes to in [registerEventHandlers], each
    with what its handler meets, and a call of the public [abort]. *)
Inductive ServiceCall : Type :=
| OnSegment (env : ServiceEnv) (points : list SAM2Point)
| OnInitializeProvider (env : ServiceEnv)
| OnDisposeProvider (env : ServiceEnv)
| OnApplyMask (dom : Dom)
| OnCancelMask
| OnCapturePreview (env : ServiceEnv)
| DoAbort.

(** The service after one handler has run to its end. *)
Definition afterHandler {rt : Runtime} (c : ServiceCall) (s : SegmentationService)
  : SegmentationService :=
  match c with
  | OnSegment env points => service (handleSegmentRequest env points s)
  | OnInitializeProvider env => service (initializeProvider env s)
  | OnDisposeProvider env => (dispose env s).2
  | OnApplyMask dom => (@applyPendingMask dom s).2
  | OnCancelMask => cancelPendingMask s
  | OnCapturePreview env => service (captureViewportPreview env s)
  | DoAbort => abort s
  end.

(** The service after a sequence of handlers, first one first. *)
Definition afterHandlers {rt : Runtime} (calls : list ServiceCall)
           (s : SegmentationService) : SegmentationService :=
  foldl (fun s c => afterHandler c s) s calls.

(** What holds of a service between two handlers: no initialisation is
    outstanding, and its provider, if any, is between two calls. *)
Definition atRest (s : SegmentationService) : Prop :=
  isInitializing s = false /\
  forall p, provider s = Some p -> Vocabulary.consistent p.

(** Events a segmentation request fires on its way, before it ends in a
    mask or in an error. *)
Definition preparatory (ev : SamEvent) : bool :=
  match ev with
  | SamCapabilities _ | SamInitError _ | SamLowVramWarning _ _
  | SamProviderReady | SamImageCaptured _ _ _ => true
  | _ => false
  end.

End ServiceFlow.

(** Fixtures for the handlers of the service. *)
Module ServiceFixtures.
Import Capability ServiceFlow.

(** A browser without [navigator.gpu]; everything else works. *)
Definition noGpuEnv : ServiceEnv :=
  {| host := NoGpuApi;
     initEnv := Fixtures.goodEnv;
     clock := Fixtures.clock;
     canvas_width := 2;
     canvas_height := 1;
     renderOffscreen := fun _ _ => inr Fixtures.twoPixels;
     stats := mkStats 128 90 38 |}.

(** A browser with an adapter that does not tell what it is and allows
    buffers of 2 GiB. *)
Definition gpuEnv : ServiceEnv :=
  {| host := HasAdapter {| requestAdapterInfo := None;
                           maxBufferSize := 2 * 1024 * 1024 * 1024 |};
     initEnv := Fixtures.goodEnv;
     clock := Fixtures.clock;
     canvas_width := 2;
     canvas_height := 1;
     renderOffscreen := fun _ _ => inr Fixtures.twoPixels;
     stats := mkStats 128 90 38 |}.

(** A service whose provider failed to initialise. *)
Definition failedService : Service.SegmentationService :=
  set_provider (Some Fixtures.failedProvider) ServiceFlow.new.

End ServiceFixtures.

(** ** model-loader.ts (the IndexedDB cache) *)
Module ModelCache.
Import ModelLoader.

(** The object store [models] of the database [supersplat-sam2-models]:
    the buffers stored under the model keys. *)
Definition Store : Type := gmap string Bytes.

(** What IndexedDB does to one operation of the loader: [indexedDB.open]
    fails, or the database opens and the request made on the store fails
    (both with the text of [request.error?.message]), or the request
    succeeds; a request that succeeds is taken to be committed. *)
Inductive IdbOutcome : Type :=
| OpenFails (message : string)
| RequestFails (message : string)
| Succeeds.

(** The strings ['encoder'] and ['decoder'] that index [SAM2_MODELS] and
    the store. *)
Definition keyOf (modelKey : ModelKey) : string :=
  match modelKey with
  | encoder => "encoder"
  | decoder => "decoder"
  end.

(** [openDatabase] *)
Definition openDatabase (idb : IdbOutcome) : Try unit :=
  match idb with
  | OpenFails message => throw (Error ("Failed to open IndexedDB: " +:+ message))
  | _ => ret tt
  end.

(** The promise each of [getCachedModel], [cacheModel] and
    [clearModelCache] builds around its request and returns from inside
    its [try] block without awaiting it: its rejection is not caught
    there. *)
Definition request {A : Type} (what : string) (idb : IdbOutcome) (result : A)
  : Try A :=
  match idb with
  | RequestFails message => throw (Error (what +:+ message))
  | _ => ret result
  end.

(** [getCachedModel] *)
Definition getCachedModel (idb : IdbOutcome) (modelKey : string) (store : Store)
  : Try (option Bytes) :=
  match openDatabase idb with
  | inl _ => ret None
  | inr _ => request "Failed to read from cache: " idb (store !! modelKey)
  end.

(** [cacheModel] *)
Definition cacheModel (idb : IdbOutcome) (modelKey : string) (data : Bytes)
           (store : Store) : Try unit * Store :=
  match openDatabase idb with
  | inl _ => (ret tt, store)
  | inr _ =>
      match request "Failed to write to cache: " idb tt with
      | inl e => (throw e, store)
      | inr _ => (ret tt, <[modelKey := data]> store)
      end
  end.

(** [areModelsCached]: the two reads are awaited inside the [try]. *)
Definition areModelsCached (idbEncoder idbDecoder : IdbOutcome) (store : Store)
  : bool :=
  match getCachedModel idbEncoder "encoder" store with
  | inl _ => false
  | inr enc =>
      match getCachedModel idbDecoder "decoder" store with
      | inl _ => false
      | inr dec =>
          bool_decide (enc <> None) && bool_decide (dec <> None)
      end
  end.

(** [getCachedModelInfo]: [(encoder, decoder)] sizes, or null. *)
Definition getCachedModelInfo (idbEncoder idbDecoder : IdbOutcome)
           (store : Store) : option (N * N) :=
  match getCachedModel idbEncoder "encoder" store with
  | inl _ => None
  | inr enc =>
      match getCachedModel idbDecoder "decoder" store with
      | inl _ => None
      | inr dec =>
          match enc, dec with
          | Some enc, Some dec =>
              Some (byteLength enc, byteLength dec)
          | _, _ => None
          end
      end
  end.

(** [clearModelCache] *)
Definition clearModelCache (idb : IdbOutcome) (store : Store)
  : Try unit * Store :=
  match openDatabase idb with
  | inl _ => (ret tt, store)
  | inr _ =>
      match request "Failed to clear cache: " idb tt with
      | inl e => (throw e, store)
      | inr _ => (ret tt, ∅)
      end
  end.

(** [loadModel] on the store: [idbRead] is what the cache read meets,
    [idbWrite] what the cache write meets and [outcome] what the download
    meets, should they be made.  The result lists the progress callbacks,
    then the buffer or the thrown value, then the store. *)
Definition loadModel (idbRead idbWrite : IdbOutcome) (outcome : FetchOutcome)
           (modelKey : ModelKey) (store : Store)
  : list Progress * Try Bytes * Store :=
  match getCachedModel idbRead (keyOf modelKey) store with
  | inl e => ([], throw e, store)
  | inr (Some cached) =>
      let config := SAM2_MODELS modelKey in
      ([(byteLength cached, byteLength cached, name config)], ret cached, store)
  | inr None =>
      let config := SAM2_MODELS modelKey in
      match downloadModel config outcome with
      | (progress, inl e) => (progress, throw e, store)
      | (progress, inr data) =>
          match cacheModel idbWrite (keyOf modelKey) data store with
          | (inl e, store) => (progress, throw e, store)
          | (inr _, store) => (progress, ret data, store)
          end
      end
  end.

(** The loader environment a store amounts to when no request fails: a
    database that does not open reads as an empty cache. *)
Definition envOf (idbRead : ModelKey -> IdbOutcome) (store : Store)
           (fetch : ModelKey -> FetchOutcome) : LoaderEnv :=
  {| cached := fun modelKey =>
       match idbRead modelKey with
       | OpenFails _ => None
       | _ => store !! keyOf modelKey
       end;
     fetch := fetch |}.

End ModelCache.

(** ** sam-selection.ts (class SamSelection) *)
Module Selection.

(** What [events.fire] is called with by the tool. *)
Inductive ToolEvent : Type :=
| PointsChanged (points : list SAM2Point)
| Segment (points : list SAM2Point)
| Cancelled
| Activated
| CapturePreview
| Deactivated.

(** One group [paint] appends to the SVG: the centre of its two circles,
    the fill of the inner circle and the number in its label. *)
Record Marker : Type := mkMarker {
  cx : Q;
  cy : Q;
  fill : string;
  label : nat
}.

(** The closure of the constructor: the [points] array, the children of
    the SVG element, and whether [keydown] is registered on the document. *)
Record SamSelection : Type := mkSelection {
  points : list SAM2Point;
  svg : list Marker;
  listening : bool
}.

(** The fields of a [KeyboardEvent] the tool reads. *)
Record KeyboardEvent : Type := mkKey {
  key : string;
  ctrlKey : bool;
  metaKey : bool
}.

(** [new SamSelection(events, parent)] *)
Definition new : SamSelection :=
  {| points := []; svg := []; listening := false |}.

(** The groups [paint] draws for [points]: one per point, in order,
    numbered from 1, green for foreground and red for background. *)
Definition markers (points : list SAM2Point) : list Marker :=
  imap (fun index point =>
          {| cx := pt_x point; cy := pt_y point;
             fill := match pt_type point with
                     | fg => "#22c55e"
                     | bg => "#ef4444"
                     end;
             label := index + 1 |}) points.

(** [paint]: redraw, then fire [sam.pointsChanged]. *)
Definition paint (s : SamSelection) : list ToolEvent * SamSelection :=
  ([PointsChanged (points s)],
   {| points := points s; svg := markers (points s); listening := listening s |}).

Definition set_points (l : list SAM2Point) (s : SamSelection) : SamSelection :=
  {| points := l; svg := svg s; listening := listening s |}.

Definition set_listening (b : bool) (s : SamSelection) : SamSelection :=
  {| points := points s; svg := svg s; listening := b |}.

(** [clearPoints] *)
Definition clearPoints (s : SamSelection) : list ToolEvent * SamSelection :=
  paint (set_points [] s).

(** [undoLastPoint] *)
Definition undoLastPoint (s : SamSelection) : list ToolEvent * SamSelection :=
  if 0 <? length (points s)
  then paint (set_points (removelast (points s)) s)
  else ([], s).

(** [keydown] *)
Definition keydown (e : KeyboardEvent) (s : SamSelection)
  : list ToolEvent * SamSelection :=
  if String.eqb (key e) "Escape"
  then let '(evs, s) := clearPoints s in (evs ++ [Cancelled], s)
  else if String.eqb (key e) "Enter"
  then (if 0 <? length (points s) then [Segment (points s)] else [], s)
  else if String.eqb (key e) "z" && (ctrlKey e || metaKey e)
  then undoLastPoint s
  else ([], s).

(** [activate]: adding a listener that is already registered changes
    nothing. *)
Definition activate (s : SamSelection) : list ToolEvent * SamSelection :=
  let s := set_listening true s in
  let '(evs, s) := clearPoints s in
  (evs ++ [Activated; CapturePreview], s).

(** [deactivate] *)
Definition deactivate (s : SamSelection) : list ToolEvent * SamSelection :=
  let s := set_listening false s in
  let '(evs, s) := clearPoints s in
  (evs ++ [Deactivated], s).

(** The handler of [sam.addPoint]. *)
Definition addPoint (point : SAM2Point) (s : SamSelection)
  : list ToolEvent * SamSelection :=
  paint (set_points (points s ++ [point]) s).

(** The function [sam.getPoints]. *)
Definition getPoints (s : SamSelection) : list SAM2Point := points s.

(** What can happen to the tool: a call of [activate] or [deactivate], a
    key pressed in the document, and the events it subscribes to. *)
Inductive Input : Type :=
| Activate
| Deactivate
| KeyDown (e : KeyboardEvent)
| OnClearPoints
| OnUndoPoint
| OnAddPoint (point : SAM2Point).

Definition step (i : Input) (s : SamSelection) : list ToolEvent * SamSelection :=
  match i with
  | Activate => activate s
  | Deactivate => deactivate s
  | KeyDown e => if listening s then keydown e s else ([], s)
  | OnClearPoints => clearPoints s
  | OnUndoPoint => undoLastPoint s
  | OnAddPoint point => addPoint point s
  end.

(** A sequence of inputs, first one first: all events fired, oldest
    first, and the tool it leaves. *)
Fixpoint run (inputs : list Input) (s : SamSelection)
  : list ToolEvent * SamSelection :=
  match inputs with
  | [] => ([], s)
  | i :: rest =>
      let '(evs, s) := step i s in
      let '(evs', s) := run rest s in
      (evs ++ evs', s)
  end.

(** The payload of the last [sam.pointsChanged] among [evs], if any. *)
Definition lastPointsChanged (evs : list ToolEvent) : option (list SAM2Point) :=
  last (omap (fun ev => match ev with
                        | PointsChanged l => Some l
                        | _ => None
                        end) evs).

(** No [sam.segment] among [evs] carries an empty list of points. *)
Definition segmentsHavePoints (evs : list ToolEvent) : Prop :=
  Forall (fun ev => match ev with
                    | Segment l => l <> []
                    | _ => True
                    end) evs.

End Selection.
(** * Properties of the capability probe *)
Section CapabilityProbe.
Import Capability.

Lemma probeAdapter_available (adapter : GPUAdapter) (caps : WebGPUCapabilities) :
  probeAdapter adapter = inr caps ->
  available caps = true /\
  estimatedVRAM caps = (4 * maxBufferSize adapter)%N /\
  isLowVRAM caps = ((estimatedVRAM caps <? LOW_VRAM_THRESHOLD)%N &&
                    (0 <? estimatedVRAM caps)%N).
Proof.
  unfold probeAdapter.
  destruct (requestAdapterInfo adapter) as [[e|info]|]; simpl;
    intros Heq; inversion Heq; subst; clear Heq; simpl;
    repeat split; lia.
Qed.

Lemma unavailable_fields (reason : string) :
  available (unavailable reason) = false /\
  estimatedVRAM (unavailable reason) = 0%N /\
  isLowVRAM (unavailable reason) = true.
Proof. repeat split. Qed.

(** Claim C9 as stated fails on a host without the WebGPU API: the probe
    reports [isLowVRAM = true] with an estimate of 0 bytes, which is not
    strictly between 0 and 4 GiB. *)
Lemma lowVRAM_reported_without_gpu_api :
  isLowVRAM (checkWebGPUCapabilities NoGpuApi) = true /\
  estimatedVRAM (checkWebGPUCapabilities NoGpuApi) = 0%N /\
  ~ (isLowVRAM (checkWebGPUCapabilities NoGpuApi) = true <->
     (0 < estimatedVRAM (checkWebGPUCapabilities NoGpuApi) < LOW_VRAM_THRESHOLD)%N).
Proof.
  repeat split.
  intros [Hlow _]. simpl in Hlow. specialize (Hlow eq_refl). lia.
Qed.

(** Claim C9, amended: when the probe reports WebGPU available, the
    estimate is 4 times the adapter's [maxBufferSize] and [isLowVRAM]
    holds iff the estimate is strictly between 0 and 4 GiB; when it
    reports WebGPU unavailable, the estimate is 0 and [isLowVRAM] is
    true. *)
Theorem isLowVRAM_characterisation (host : Host) :
  let caps := checkWebGPUCapabilities host in
  if available caps
  then (exists adapter, host = HasAdapter adapter /\
                        estimatedVRAM caps = (4 * maxBufferSize adapter)%N) /\
       (isLowVRAM caps = true <->
        (0 < estimatedVRAM caps < LOW_VRAM_THRESHOLD)%N)
  else estimatedVRAM caps = 0%N /\ isLowVRAM caps = true.
Proof.
  destruct host as [ | e | | adapter ]; simpl; try (split; reflexivity).
  destruct (probeAdapter adapter) as [e|caps] eqn:Hprobe; simpl;
    [split; reflexivity|].
  destruct (probeAdapter_available _ _ Hprobe) as (Hav & Hest & Hlow).
  rewrite Hav. split; [eauto|].
  rewrite Hlow, andb_true_iff, N.ltb_lt, N.ltb_lt. lia.
Qed.

End CapabilityProbe.

(** * Properties of the provider's availability check *)
Section Availability.
Import Capability Provider.

(** Claim C10: [isAvailable] answers [true] on every host and in every
    provider state; in particular on a host whose probe reports WebGPU
    unavailable. *)
Theorem isAvailable_always_true (host : Host) (p : WebGPUProvider) :
  fst (isAvailable host p) = true /\
  fst (isAvailable NoGpuApi p) = true /\
  available (checkWebGPUCapabilities NoGpuApi) = false.
Proof. repeat split. Qed.

Lemma isAvailable_caches_probe (host : Host) (p : WebGPUProvider) :
  capabilities p = None ->
  capabilities (snd (isAvailable host p)) = Some (checkWebGPUCapabilities host).
Proof. intros Hnone. unfold isAvailable. rewrite Hnone. reflexivity. Qed.

End Availability.

(** * Properties of the model loader *)
Section LoaderProgress.
Import ModelLoader Vocabulary.










End LoaderProgress.

(** * Properties of the image helpers *)
Section ImageHelpers.
Import ImageUtils Vocabulary.

Lemma length_window (data : list f32) (offset size : nat) :
  length (window data offset size) = size.
Proof.
  unfold window. rewrite length_app, repeat_length, length_take, length_drop.
  lia.
Qed.

(** [window] reads [data[offset + j]], NaN past the end. *)
Lemma window_nth (data : list f32) (offset size j : nat) :
  j < size ->
  nth j (window data offset size) NaN = nth (offset + j) data NaN.
Proof.
  intros Hj. unfold window.
  destruct (decide (offset + j < length data)) as [Hin|Hout].
  - rewrite app_nth1 by (rewrite length_take, length_drop; lia).
    rewrite !nth_lookup, lookup_take_lt, lookup_drop by lia. reflexivity.
  - rewrite (nth_overflow data) by lia.
    rewrite !nth_lookup.
    destruct (decide (j < length (take size (drop offset data)))) as [Hlt|Hge].
    + rewrite length_take, length_drop in Hlt. lia.
    + rewrite lookup_app_r by lia.
      destruct (repeat NaN _ !! _) as [v|] eqn:Hv; [|reflexivity].
      apply list_elem_of_lookup_2, list_elem_of_In, repeat_spec in Hv.
      simpl. exact Hv.
Qed.

Lemma processMaskLogits_length (logits : MaskTensor) (maskIndex : nat) :
  length (processMaskLogits logits maskIndex).1.1 =
  mt_height logits * mt_width logits.
Proof.
  unfold processMaskLogits. cbn [fst]. rewrite length_map. apply length_window.
Qed.

Lemma processMaskLogits_binary (logits : MaskTensor) (maskIndex : nat) :
  binary (processMaskLogits logits maskIndex).1.1.
Proof.
  unfold processMaskLogits, binary. cbn [fst]. rewrite Forall_map.
  apply Forall_true. intros v. cbn beta. destruct (gt v (Fin 0)); auto.
Qed.

Lemma processMaskLogits_dims (logits : MaskTensor) (maskIndex : nat) :
  (processMaskLogits logits maskIndex).1.2 = mt_width logits /\
  (processMaskLogits logits maskIndex).2 = mt_height logits.
Proof. split; reflexivity. Qed.

Example threshold_second_plane :
  processMaskLogits Fixtures.threeMasks 1 = ([0; 0; 255; 0]%N, 2, 2).
Proof. reflexivity. Qed.

Example threshold_clamps_index :
  processMaskLogits Fixtures.threeMasks 7 = processMaskLogits Fixtures.threeMasks 2.
Proof. reflexivity. Qed.

Context {rt : Runtime}.

Lemma resizeMask_length (mask : list N) (mw mh tw th : nat) :
  length (resizeMask mask mw mh tw th) = tw * th.
Proof. unfold resizeMask. rewrite length_map, length_seq. reflexivity. Qed.

Lemma resizeMask_binary (mask : list N) (mw mh tw th : nat) :
  binary (resizeMask mask mw mh tw th).
Proof.
  unfold resizeMask, binary. rewrite Forall_map.
  apply Forall_true. intros i. cbn beta.
  destruct (127 <? _)%N; auto.
Qed.

End ImageHelpers.

(** * Properties of the candidate ranking *)
Section Ranking.
Import Core Vocabulary.

Lemma gt_irrefl (a : f32) : gt a a = false.
Proof.
  destruct a as [| |q|]; try reflexivity. simpl.
  assert (Qle_bool q q = true) as -> by (apply Qle_bool_iff; apply Qle_refl).
  reflexivity.
Qed.

(** If [u] does not exceed the running maximum and [v] does, then [u] is
    neither greater than nor equal to [v]. *)
Lemma below_new_max (u m v : f32) :
  gt u m = false -> gt v m = true -> gt u v = false /\ ge u v = false.
Proof.
  destruct u as [| |u|], m as [| |m|], v as [| |v|]; simpl;
    try discriminate; try (split; reflexivity).
  intros Hum Hvm.
  apply negb_false_iff, Qle_bool_iff in Hum.
  apply negb_true_iff in Hvm.
  assert (~ (v <= m)%Q) as Hlt by (rewrite <- Qle_bool_iff, Hvm; discriminate).
  apply Qnot_le_lt in Hlt.
  assert (u < v)%Q as Huv by (eapply Qle_lt_trans; eassumption).
  split.
  - apply negb_false_iff, Qle_bool_iff, Qlt_le_weak, Huv.
  - destruct (Qle_bool v u) eqn:Hvu; [|reflexivity].
    apply Qle_bool_iff in Hvu. exfalso.
    eapply Qlt_not_le; eassumption.
Qed.

(** A value that exceeds another one exceeds [-Infinity]. *)
Lemma gt_above_neg_inf (v m : f32) : gt v m = true -> gt v NegInf = true.
Proof. destruct v as [| |v|], m as [| |m|]; simpl; congruence. Qed.

(** Of two values that exceed [-Infinity], one is greater than or equal
    to the other as soon as the other is not greater. *)
Lemma ge_of_not_gt (a b : f32) :
  gt a NegInf = true -> gt b NegInf = true -> gt b a = false -> ge a b = true.
Proof.
  destruct a as [| |x|], b as [| |y|]; simpl; try congruence.
  intros _ _ Hle. apply negb_false_iff in Hle. exact Hle.
Qed.

Lemma iouLoop_inv (rest seen : list f32) (maxIoU : f32) (best : nat) :
  loop_inv seen maxIoU best ->
  loop_inv (seen ++ rest)
           (iouLoop rest (length seen) maxIoU best).2
           (iouLoop rest (length seen) maxIoU best).1.
Proof.
  revert seen maxIoU best.
  induction rest as [|v rest IH]; intros seen maxIoU best Hinv.
  - simpl. rewrite app_nil_r. exact Hinv.
  - cbn [iouLoop].
    replace (seen ++ v :: rest) with ((seen ++ [v]) ++ rest)
      by (rewrite <- app_assoc; reflexivity).
    replace (S (length seen)) with (length (seen ++ [v]))
      by (rewrite length_app; simpl; lia).
    destruct Hinv as [Hall Hbest].
    destruct (gt v maxIoU) eqn:Hgt; apply IH; split.
    + apply Forall_app. split.
      * eapply Forall_impl; [exact Hall|]. cbn beta. intros u Hu.
        apply (below_new_max u maxIoU v); assumption.
      * constructor; [apply gt_irrefl|constructor].
    + right. rewrite length_app. simpl. split; [lia|]. split; [|split].
      * rewrite app_nth2 by lia. rewrite Nat.sub_diag. reflexivity.
      * eapply gt_above_neg_inf. exact Hgt.
      * intros j Hj. rewrite app_nth1 by lia.
        rewrite Forall_forall in Hall.
        apply (below_new_max _ maxIoU v); [|assumption].
        apply Hall, list_elem_of_In, nth_In. exact Hj.
    + apply Forall_app. split; [exact Hall|]. constructor; [exact Hgt|constructor].
    + destruct Hbest as [Hnone|(Hlt & Hnth & Hsel & Hties)]; [left; exact Hnone|].
      right. rewrite length_app. simpl. split; [lia|]. split; [|split].
      * rewrite app_nth1 by lia. exact Hnth.
      * exact Hsel.
      * intros j Hj. rewrite app_nth1 by lia. apply Hties. exact Hj.
Qed.

Lemma loop_inv_first_argmax (scores : list f32) (maxIoU : f32) (best : nat) :
  loop_inv scores maxIoU best -> first_argmax scores best.
Proof.
  intros [Hall [[Hmax Hbest]|(Hlt & Hnth & Hsel & Hties)]].
  - subst. rewrite Forall_forall in Hall.
    assert (forall j, j < length scores -> gt (nth j scores NaN) NegInf = false)
      as Hnone by (intros j Hj; apply Hall, list_elem_of_In, nth_In, Hj).
    split; [|split; [intros j Hj; lia|right; split; [reflexivity|exact Hnone]]].
    intros j Hj. specialize (Hnone j Hj).
    destruct (nth 0 scores NaN) eqn:H0;
      destruct (nth j scores NaN); try reflexivity; discriminate.
  - subst maxIoU. split; [|split; [exact Hties|left; split; assumption]].
    intros j Hj. rewrite Forall_forall in Hall.
    apply Hall, list_elem_of_In, nth_In, Hj.
Qed.

Lemma loop_inv_start : loop_inv [] NegInf 0.
Proof. split; [constructor|left; split; reflexivity]. Qed.

(** [first_argmax] determines the index. *)
Lemma first_argmax_unique (scores : list f32) (best best' : nat) :
  first_argmax scores best -> first_argmax scores best' -> best' = best.
Proof.
  assert (forall b b', first_argmax scores b -> first_argmax scores b' ->
                       b < length scores ->
                       gt (nth b scores NaN) NegInf = true ->
                       b' < length scores ->
                       gt (nth b' scores NaN) NegInf = true ->
                       ~ b < b') as Hord.
  { intros b b' (Hmax & _ & _) (_ & Hties' & _) Hb Hsel Hb' Hsel' Hlt.
    specialize (Hties' b Hlt). specialize (Hmax b' Hb').
    rewrite (ge_of_not_gt _ _ Hsel Hsel' Hmax) in Hties'. discriminate. }
  intros H1 H2.
  pose proof H1 as (_ & _ & [[Hb Hsel]|[Hb Hnone]]);
    pose proof H2 as (_ & _ & [[Hb' Hsel']|[Hb' Hnone']]).
  - pose proof (Hord best best' H1 H2 Hb Hsel Hb' Hsel').
    pose proof (Hord best' best H2 H1 Hb' Hsel' Hb Hsel). lia.
  - rewrite (Hnone' best Hb) in Hsel. discriminate.
  - rewrite (Hnone best' Hb') in Hsel'. discriminate.
  - congruence.
Qed.

(** The index selected from a present IoU tensor: the one index that is the
    argmax with ties broken toward the smallest index; it is an index of
    the tensor unless the tensor is empty. *)
Lemma selectBestMaskIndex_spec (scores : list f32) :
  first_argmax scores (selectBestMaskIndex (Some scores)) /\
  (scores <> [] -> selectBestMaskIndex (Some scores) < length scores) /\
  (forall best, first_argmax scores best ->
                best = selectBestMaskIndex (Some scores)).
Proof.
  assert (first_argmax scores (selectBestMaskIndex (Some scores))) as Hspec.
  { unfold selectBestMaskIndex.
    destruct (1 <? length scores) eqn:Hlen.
    - pose proof (iouLoop_inv scores [] NegInf 0 loop_inv_start) as Hinv.
      simpl in Hinv. eapply loop_inv_first_argmax. exact Hinv.
    - apply Nat.ltb_ge in Hlen.
      split; [|split; [intros j Hj; lia|]].
      + intros j Hj. assert (j = 0) as -> by lia. apply gt_irrefl.
      + destruct (gt (nth 0 scores NaN) NegInf) eqn:Hsel.
        * left. split; [|reflexivity].
          destruct scores; [discriminate Hsel|simpl; lia].
        * right. split; [reflexivity|].
          intros j Hj. assert (j = 0) as -> by lia. exact Hsel. }
  split; [exact Hspec|]. split.
  - intros Hne. destruct Hspec as (_ & _ & [[Hlt _]|[-> _]]); [exact Hlt|].
    destruct scores; [congruence|simpl; lia].
  - intros best Hbest. exact (first_argmax_unique _ _ _ Hspec Hbest).
Qed.

(** For scores without NaN the two order conditions of [first_argmax] are
    the usual ones: the selected score is at least every score and strictly
    above every score before it. *)
Lemma first_argmax_without_nan (scores : list f32) (best : nat) :
  Forall (fun v => is_nan v = false) scores ->
  best < length scores ->
  first_argmax scores best ->
  (forall j, j < length scores ->
             ge (nth best scores NaN) (nth j scores NaN) = true) /\
  (forall j, j < best ->
             gt (nth best scores NaN) (nth j scores NaN) = true).
Proof.
  intros Hnan Hbest (Hmax & Hties & _). rewrite Forall_forall in Hnan.
  assert (forall j, j < length scores -> is_nan (nth j scores NaN) = false)
    as Hnth by (intros j Hj; apply Hnan, list_elem_of_In, nth_In, Hj).
  assert (forall a b, is_nan a = false -> is_nan b = false ->
                      (gt a b = false -> ge b a = true) /\
                      (ge a b = false -> gt b a = true)) as Horder.
  { intros [| |x|] [| |y|]; simpl; try discriminate; intros _ _;
      split; try reflexivity; try discriminate.
    - intros Hle. apply negb_false_iff in Hle. exact Hle.
    - intros Hle. rewrite Hle. reflexivity. }
  split.
  - intros j Hj. apply Horder; auto.
  - intros j Hj. apply Horder; auto. apply Hnth. lia.
Qed.

(** An index past the scores, and the index of a NaN score while another
    score is a number, are not the argmax. *)
Example first_argmax_rejects_other_indices :
  ~ first_argmax [Fin (7 # 10); Fin (9 # 10); Fin (8 # 10)] 3 /\
  ~ first_argmax [Fin (9 # 10); NaN; Fin (1 # 10)] 1 /\
  selectBestMaskIndex (Some [Fin (9 # 10); NaN; Fin (1 # 10)]) = 0.
Proof.
  split; [|split; [|reflexivity]].
  - intros (_ & _ & [[Hlt _]|[Heq _]]); [simpl in Hlt; lia|discriminate Heq].
  - intros (_ & _ & [[_ Hsel]|[Heq _]]); [discriminate Hsel|discriminate Heq].
Qed.

Example select_highest_score :
  selectBestMaskIndex (Some [Fin (7 # 10); Fin (9 # 10); Fin (8 # 10)]) = 1.
Proof. reflexivity. Qed.

Example select_first_of_equal_scores :
  selectBestMaskIndex (Some [Fin (5 # 10); Fin (9 # 10); Fin (9 # 10)]) = 1.
Proof. reflexivity. Qed.

Example select_single_score :
  selectBestMaskIndex (Some [Fin (3 # 10)]) = 0.
Proof. reflexivity. Qed.

Example select_skips_nan :
  selectBestMaskIndex (Some [NaN; Fin (2 # 10); NaN]) = 1.
Proof. reflexivity. Qed.

End Ranking.

(** * Properties of the decoder post-processing *)
Section Decode.
Import ImageUtils Core Vocabulary.
Context {rt : Runtime}.

Lemma buildCandidate_fields (maskTensor : MaskTensor) (iou : option (list f32))
      (W H i : nat) :
  c_index (buildCandidate maskTensor iou W H i) = i /\
  c_mask (buildCandidate maskTensor iou W H i) =
    resizeMask (processMaskLogits maskTensor i).1.1
               (mt_width maskTensor) (mt_height maskTensor) W H /\
  c_iouScore (buildCandidate maskTensor iou W H i) =
    match iou with Some d => nth i d NaN | None => Fin 1 end /\
  c_logits (buildCandidate maskTensor iou W H i) =
    sliceLogits (mt_data maskTensor)
                (i * (mt_width maskTensor * mt_height maskTensor))
                (mt_width maskTensor * mt_height maskTensor).
Proof. repeat split. Qed.

(** The result record built from a decoder output that has a mask tensor. *)
Lemma postprocess_inr (results : DecoderResults) (W H : nat) (t : Q)
      (res : SAM2Result) :
  postprocess results W H t = inr res ->
  exists maskTensor,
    nullish (dr_masks results) (dr_low_res_masks results) = Some maskTensor /\
    let iou := nullish (dr_iou_predictions results) (dr_iou_pred results) in
    let best := selectBestMaskIndex iou in
    r_selectedMaskIndex res = Some best /\
    r_mask res = resizeMask (processMaskLogits maskTensor best).1.1
                            (mt_width maskTensor) (mt_height maskTensor) W H /\
    r_logits res =
      Some (sliceLogits (mt_data maskTensor)
                        (best * (mt_width maskTensor * mt_height maskTensor))
                        (mt_width maskTensor * mt_height maskTensor)) /\
    r_allMasks res =
      Some (map (buildCandidate maskTensor iou W H)
                (seq 0 (match iou with Some d => length d | None => 1 end))) /\
    r_width res = W /\ r_height res = H.
Proof.
  unfold postprocess.
  destruct (nullish (dr_masks results) (dr_low_res_masks results))
    as [maskTensor|]; [|discriminate].
  intros Heq. exists maskTensor. split; [reflexivity|].
  unfold processMaskLogits in Heq. cbn [fst snd] in Heq.
  inversion Heq; subst; clear Heq. cbn. repeat split.
Qed.

Lemma postprocess_total (results : DecoderResults) (W H : nat) (t : Q)
      (maskTensor : MaskTensor) :
  nullish (dr_masks results) (dr_low_res_masks results) = Some maskTensor ->
  exists res, postprocess results W H t = inr res.
Proof.
  intros Hm. unfold postprocess. rewrite Hm.
  unfold processMaskLogits. eexists. reflexivity.
Qed.

(** What a successful [decode] went through. *)
Lemma decode_inr (imageId : string) (points : list SAM2Point) (W H : nat)
      (prev : option (list f32)) (t : Q) (c c' : SAM2Core) (res : SAM2Result) :
  decode imageId points W H prev t c = (inr res, c') ->
  exists session embeddings results,
    decoderSession c = Some session /\
    imageEmbeddings c !! imageId = Some embeddings /\
    decoder_run session (buildFeeds c imageId embeddings points W H prev)
      = inr results /\
    postprocess results W H t = inr res /\
    c' = log_decoder_run (buildFeeds c imageId embeddings points W H prev) c /\
    ort c = true.
Proof.
  unfold decode.
  destruct (decoderSession c) as [session|]; [|intros Heq; inversion Heq].
  destruct (ort c); [|intros Heq; inversion Heq].
  destruct (imageEmbeddings c !! imageId) as [embeddings|];
    [|intros Heq; inversion Heq].
  destruct (decoder_run session _) as [e|results] eqn:Hrun;
    [intros Heq; inversion Heq|].
  intros Heq. inversion Heq as [[Hres Hc]].
  exists session, embeddings, results. repeat split; assumption.
Qed.

(** A successful [encodeImage] leaves the sessions in place. *)
Lemma encodeImage_inr (imageId : string) (imageData : list N) (w h : nat)
      (elapsed : Q) (c c0 : SAM2Core) (t : Q) :
  encodeImage imageId imageData w h elapsed c = (inr t, c0) ->
  ort c0 = true /\ is_Some (encoderSession c0) /\
  decoderSession c0 = decoderSession c.
Proof.
  unfold encodeImage.
  destruct (encoderSession c) as [session|] eqn:Hsession;
    [|intros Heq; inversion Heq].
  destruct (ort c) eqn:Hort; [|intros Heq; inversion Heq].
  destruct (bool_decide (is_Some (imageEmbeddings c !! imageId))).
  - intros Heq. inversion Heq; subst. rewrite Hsession. eauto.
  - destruct (encoder_run session (preprocess imageData w h)) as [e|results];
      intros Heq; inversion Heq; subst. cbn. rewrite Hsession. eauto.
Qed.

(** Claim C2: after a successful [decode], if the decoder emitted IoU
    predictions, the selected index is their argmax with ties broken
    toward the smallest index: it is an index of the scores (unless there
    is none), its score exceeds [-Infinity] (unless no score does, and then
    the index is 0), no score is greater than the selected one, none before
    it is greater or equal, and it is the only index of which all this
    holds.  If the decoder emitted no IoU predictions, the selected index
    is 0 and every returned candidate has score 1.0. *)
Theorem decode_selects_by_iou (imageId : string) (points : list SAM2Point)
        (W H : nat) (prev : option (list f32)) (t : Q) (c c' : SAM2Core)
        (res : SAM2Result) :
  decode imageId points W H prev t c = (inr res, c') ->
  exists session embeddings results,
    decoderSession c = Some session /\
    imageEmbeddings c !! imageId = Some embeddings /\
    decoder_run session (buildFeeds c imageId embeddings points W H prev)
      = inr results /\
    match nullish (dr_iou_predictions results) (dr_iou_pred results) with
    | Some scores =>
        exists best, r_selectedMaskIndex res = Some best /\
                     first_argmax scores best /\
                     (scores <> [] -> best < length scores) /\
                     (forall best', first_argmax scores best' -> best' = best)
    | None =>
        r_selectedMaskIndex res = Some 0 /\
        exists candidate, r_allMasks res = Some [candidate] /\
                          c_iouScore candidate = Fin 1
    end.
Proof.
  intros Hdec.
  destruct (decode_inr _ _ _ _ _ _ _ _ _ Hdec)
    as (session & embeddings & results & Hs & He & Hrun & Hpost & _).
  exists session, embeddings, results. repeat (split; [assumption|]).
  destruct (postprocess_inr _ _ _ _ _ Hpost)
    as (maskTensor & _ & Hsel & _ & _ & Hall & _).
  destruct (nullish (dr_iou_predictions results) (dr_iou_pred results))
    as [scores|].
  - destruct (selectBestMaskIndex_spec scores) as (Hspec & Hbound & Huniq).
    eexists. split; [exact Hsel|]. split; [exact Hspec|].
    split; [exact Hbound|exact Huniq].
  - split; [exact Hsel|]. eexists. split; [exact Hall|]. reflexivity.
Qed.

(** A decoder output without IoU predictions selects index 0. *)
Lemma selectBestMaskIndex_absent : selectBestMaskIndex None = 0.
Proof. reflexivity. Qed.

End Decode.

(** Witness for [decode_selects_by_iou]: scores [0.7, 0.9, 0.8] select
    index 1. *)
Lemma decode_selects_by_iou_witness :
  exists session embeddings results,
    Core.decoderSession Fixtures.encodedCore = Some session /\
    Core.imageEmbeddings Fixtures.encodedCore !! "img_1" = Some embeddings /\
    @decoder_run Fixtures.tinyRuntime session
      (Core.buildFeeds Fixtures.encodedCore "img_1" embeddings
                       Fixtures.onePoint 2 1 None) = inr results /\
    match Core.nullish (dr_iou_predictions results) (dr_iou_pred results) with
    | Some scores =>
        exists best, Core.r_selectedMaskIndex Fixtures.firstResult = Some best /\
                     Vocabulary.first_argmax scores best /\
                     (scores <> [] -> best < length scores) /\
                     (forall best', Vocabulary.first_argmax scores best' ->
                                    best' = best)
    | None =>
        Core.r_selectedMaskIndex Fixtures.firstResult = Some 0 /\
        exists candidate,
          Core.r_allMasks Fixtures.firstResult = Some [candidate] /\
          Core.c_iouScore candidate = Fin 1
    end.
Proof.
  apply (decode_selects_by_iou (rt := Fixtures.tinyRuntime)
           "img_1" Fixtures.onePoint 2 1 None 8 Fixtures.encodedCore
           (Fixtures.firstDecode.2) Fixtures.firstResult).
  reflexivity.
Defined.

(** * Properties of the pending mask *)
Section PendingMaskFacts.
Import Provider Service.
Context {dom : Dom}.

(** With nothing pending, [applyPendingMask] and [cancelPendingMask] change
    nothing and fire nothing. *)
Lemma nothing_pending_noop (s : SegmentationService) :
  pendingMask s = None ->
  applyPendingMask s = (inr tt, s) /\ cancelPendingMask s = s.
Proof.
  intros Hnone. unfold applyPendingMask, cancelPendingMask.
  rewrite Hnone. split; reflexivity.
Qed.

Lemma cancelPendingMask_pending (s : SegmentationService) (pm : PendingMask) :
  pendingMask s = Some pm ->
  fired (cancelPendingMask s) = fired s ++ [MaskCancelled] /\
  pendingMask (cancelPendingMask s) = None.
Proof.
  intros Hsome. unfold cancelPendingMask. rewrite Hsome. split; reflexivity.
Qed.

(** When the canvas cannot be drawn, [applyPendingMask] throws before it
    clears the pending mask and fires nothing. *)
Lemma applyPendingMask_without_context (s : SegmentationService) (pm : PendingMask) :
  pendingMask s = Some pm ->
  getContext2d = false ->
  applyPendingMask s = (inl (Error "Failed to create canvas 2D context"), s).
Proof.
  intros Hsome Hctx. unfold applyPendingMask, applyMaskToSelection.
  rewrite Hsome, Hctx. reflexivity.
Qed.

(** Claim C8: with a pending mask (and a document that lets the selection
    canvas be drawn), [applyPendingMask] fires [select.byMask('add', canvas)]
    once, then [maskApplied] once, and clears the pending mask; after that,
    and after [cancelPendingMask], nothing is pending, so a further
    [applyPendingMask] or [cancelPendingMask] changes nothing and fires
    nothing. *)
Theorem pending_mask_consumed_once (s : SegmentationService) (pm : PendingMask)
        (pixels : list N) :
  pendingMask s = Some pm ->
  getContext2d = true ->
  paint (response pm)
        {| op := add; threshold := Some (1 # 2)%Q;
           targetWidth := Some (canvasWidth pm);
           targetHeight := Some (canvasHeight pm) |} = inr pixels ->
  let applied := (applyPendingMask s).2 in
  let cancelled := cancelPendingMask s in
  (applyPendingMask s).1 = inr tt /\
  fired applied =
    fired s ++
    [SelectByMask add (mkCanvas (Some (canvasWidth pm))
                                (Some (canvasHeight pm)) pixels);
     MaskApplied (resp_width (response pm)) (resp_height (response pm))] /\
  pendingMask applied = None /\
  applyPendingMask applied = (inr tt, applied) /\
  cancelPendingMask applied = applied /\
  fired cancelled = fired s ++ [MaskCancelled] /\
  pendingMask cancelled = None /\
  applyPendingMask cancelled = (inr tt, cancelled) /\
  cancelPendingMask cancelled = cancelled.
Proof.
  intros Hsome Hctx Hpaint applied cancelled.
  assert (applyPendingMask s =
          (inr tt,
           fire (MaskApplied (resp_width (response pm)) (resp_height (response pm)))
                (set_pendingMask None
                   (fire (SelectByMask add
                            (mkCanvas (Some (canvasWidth pm))
                                      (Some (canvasHeight pm)) pixels)) s))))
    as Happly.
  { unfold applyPendingMask, applyMaskToSelection, determineSelectionOp.
    rewrite Hsome, Hctx. cbn [op targetWidth targetHeight Core.nullish].
    rewrite Hpaint. reflexivity. }
  assert (pendingMask applied = None) as Hnone1
    by (unfold applied; rewrite Happly; reflexivity).
  destruct (cancelPendingMask_pending s pm Hsome) as [Hfired2 Hnone2].
  fold cancelled in Hfired2, Hnone2.
  destruct (nothing_pending_noop applied Hnone1) as [Ha1 Hc1].
  destruct (nothing_pending_noop cancelled Hnone2) as [Ha2 Hc2].
  repeat split; try assumption.
  - rewrite Happly. reflexivity.
  - unfold applied. rewrite Happly. cbn [snd fire set_pendingMask fired].
    rewrite <- app_assoc. reflexivity.
Qed.

End PendingMaskFacts.

(** Witness for [pending_mask_consumed_once]: a service with one pending
    mask on a document that always paints. *)
Lemma pending_mask_consumed_once_witness :
  let s := Fixtures.serviceWithPending in
  let applied := (@Service.applyPendingMask Fixtures.blankDom s).2 in
  let cancelled := Service.cancelPendingMask s in
  (@Service.applyPendingMask Fixtures.blankDom s).1 = inr tt /\
  Service.fired applied =
    [Service.SelectByMask Service.add (Service.mkCanvas (Some 4) (Some 2) []);
     Service.MaskApplied (Some 2) (Some 1)] /\
  Service.pendingMask applied = None /\
  @Service.applyPendingMask Fixtures.blankDom applied = (inr tt, applied) /\
  Service.cancelPendingMask applied = applied /\
  Service.fired cancelled = [Service.MaskCancelled] /\
  Service.pendingMask cancelled = None /\
  @Service.applyPendingMask Fixtures.blankDom cancelled = (inr tt, cancelled) /\
  Service.cancelPendingMask cancelled = cancelled.
Proof.
  apply (pending_mask_consumed_once (dom := Fixtures.blankDom)
           Fixtures.serviceWithPending
           (Service.mkPending Fixtures.someResponse 4 2) []);
    reflexivity.
Defined.

(** * Properties of the worker protocol *)
Section WorkerProtocol.
Import Core Worker Provider Vocabulary.
Context {rt : Runtime}.

(** A handler either throws or answers with the response of its request;
    it never posts a debug message ([DEBUG_SAM2] is off). *)
Lemma dispatch_response (clk : Clock) (message : WorkerRequestMessage)
      (w w' : WorkerState) (response : WorkerResponseMessage) :
  dispatch clk message w = (inr response, w') ->
  settle response = Fulfilled response \/
  (exists t, message = ReqUnknown t /\
             response = RespError "Unknown message type" "unknown").
Proof.
  destruct message; cbn [dispatch]; intros Heq.
  - unfold handleInitialize in Heq.
    destruct (Core.initialize _ _ _ _) as [[e|p] c]; inversion Heq; subst.
    left. reflexivity.
  - unfold handleEncode in Heq. destruct w as [c|]; [|inversion Heq].
    destruct (encodeImage _ _ _ _ _ _) as [[e|t] c0]; inversion Heq; subst.
    left. reflexivity.
  - unfold handleDecode in Heq. destruct w as [c|]; [|inversion Heq].
    destruct (decode _ _ _ _ _ _ _) as [[e|r] c0]; inversion Heq; subst.
    left. reflexivity.
  - unfold handleSegment in Heq. destruct w as [c|]; [|inversion Heq].
    destruct (segment _ _ _ _ _ _ _ _ _) as [[e|r] c0]; inversion Heq; subst.
    left. reflexivity.
  - unfold handleClearCache in Heq. destruct w as [c|]; inversion Heq; subst.
    left. reflexivity.
  - inversion Heq; subst. left. reflexivity.
  - inversion Heq; subst. left. reflexivity.
  - inversion Heq; subst. right. eexists. split; reflexivity.
Qed.

(** [self.onmessage] always posts exactly one response and leaves a worker
    state behind; a thrown value becomes an [error] response that carries
    the type of the request. *)
Lemma onmessage_cases (clk : Clock) (message : WorkerRequestMessage)
      (w : WorkerState) :
  match dispatch clk message w with
  | (inr response, w') => onmessage clk message w = ([response], w')
  | (inl e, w') =>
      onmessage clk message w =
      ([RespError (exn_message e) (request_type message)], w')
  end.
Proof.
  unfold onmessage. destruct (dispatch clk message w) as [[e|response] w'];
    reflexivity.
Qed.

(** A request sent while no other is outstanding is settled by the worker's
    answer to it. *)
Lemma sendWorkerMessage_quiet (clk : Clock) (message : WorkerRequestMessage)
      (p : WebGPUProvider) (w : WorkerState) :
  worker p = Some w ->
  pendingRequests p = [] ->
  sendWorkerMessage clk message p =
  (match (dispatch clk message w).1 with
   | inr response => settle response
   | inl e => Rejected (workerFailure e message)
   end,
   set_pending [] (S (requestCounter p))
               (set_worker (Some (dispatch clk message w).2) p)).
Proof.
  intros Hw Hp. unfold sendWorkerMessage. rewrite Hw, Hp.
  pose proof (onmessage_cases clk message w) as Hon.
  destruct (dispatch clk message w) as [[e|response] w'] eqn:Hd;
    rewrite Hon; cbn [fst snd app deliver].
  - cbn [handleWorkerMessage set_pending set_worker pendingRequests outcomeOf].
    rewrite bool_decide_eq_true_2 by reflexivity.
    destruct p; reflexivity.
  - destruct (dispatch_response _ _ _ _ _ Hd) as [Hs|(t & -> & ->)].
    + destruct response; try discriminate Hs;
        cbn [handleWorkerMessage set_pending set_worker pendingRequests outcomeOf settle];
        rewrite bool_decide_eq_true_2 by reflexivity;
        destruct p; reflexivity.
    + cbn [handleWorkerMessage set_pending set_worker pendingRequests outcomeOf settle].
      rewrite bool_decide_eq_true_2 by reflexivity.
      destruct p; reflexivity.
Qed.

End WorkerProtocol.

(** * Properties of the provider life cycle *)
Section Lifecycle.
Import Core Worker ModelLoader Provider Vocabulary.
Context {rt : Runtime}.

Lemma initializeFailed_state (e : Exn) (p : WebGPUProvider) :
  exists e', (initializeFailed e p).1 = Rejected e' /\
             state (initializeFailed e p).2 = error /\
             statusLog (initializeFailed e p).2 = statusLog p ++ [error] /\
             pendingRequests (initializeFailed e p).2 = pendingRequests p.
Proof. unfold initializeFailed. eexists. repeat split. Qed.

(** [initializeWorker] on a freshly spawned worker, nothing else pending. *)
Lemma initializeWorker_fresh (clk : Clock) (enc dec : Bytes) (p : WebGPUProvider) :
  worker p = Some None ->
  pendingRequests p = [] ->
  initializeWorker clk enc dec p =
  (match (Core.initialize enc dec
            (Some (default webgpu (optPreferredProvider p))) Core.new).1 with
   | inr provider => Fulfilled (Some provider)
   | inl e => Rejected (SegmentationError (exn_message e) SERVER_ERROR
                                          (Some "initialize"))
   end,
   set_pending [] (S (requestCounter p))
     (set_worker
        (Some (Some (Core.initialize enc dec
                       (Some (default webgpu (optPreferredProvider p)))
                       Core.new).2)) p)).
Proof.
  intros Hw Hp. unfold initializeWorker.
  rewrite (sendWorkerMessage_quiet _ _ _ _ Hw Hp).
  unfold dispatch, handleInitialize. cbn -[Core.initialize Core.new].
  destruct (Core.initialize enc dec _ Core.new) as [[e|provider] c];
    reflexivity.
Qed.

(** Claim C5 as stated fails for a call made while a load is in flight:
    the provider, in state [loading-models], rejects the second call with
    "Initialization already in progress" instead of sharing the result of
    the first. *)
Lemma initialize_rejected_while_loading :
  @initialize Fixtures.tinyRuntime Fixtures.goodEnv Fixtures.clock
              Fixtures.loadingProvider =
  (Rejected (Error "Initialization already in progress"),
   Fixtures.loadingProvider).
Proof. reflexivity. Qed.

(** The guard also covers state [initializing], in which the request to
    the worker is outstanding. *)
Example initialize_rejected_while_initializing :
  @initialize Fixtures.tinyRuntime Fixtures.goodEnv Fixtures.clock
              Fixtures.initializingProvider =
  (Rejected (Error "Initialization already in progress"),
   Fixtures.initializingProvider) /\
  pendingRequests Fixtures.initializingProvider = ["req_1"].
Proof. split; reflexivity. Qed.

(** Claim C5, amended: [initialize] on a ready provider resolves to the
    current execution provider and changes nothing; a call made while an
    initialisation is in flight (state [loading-models] or [initializing])
    is rejected with "Initialization already in progress" and changes
    nothing, whatever requests are outstanding.  From any other state
    ([idle], [error], [processing]), and with no worker request
    outstanding, the sequence is run from its start: on success the states
    [loading-models], [initializing], [ready] are announced in this order
    and the provider ends [ready]; on failure the provider ends in state
    [error]; either way no request is left outstanding, so that a further
    [initialize] runs the sequence again; and the call succeeds whenever
    the models load, the worker spawns and the engine creates its
    sessions. *)
Theorem initialize_state_machine (env : InitEnv) (clk : Clock) (p : WebGPUProvider) :
  let result := (initialize env clk p).1 in
  let p' := (initialize env clk p).2 in
  match state p with
  | ready => result = Fulfilled (currentProvider p) /\ p' = p
  | loading_models | initializing =>
      result = Rejected (Error "Initialization already in progress") /\ p' = p
  | idle | error | processing =>
      pendingRequests p = [] ->
      (exists rest, statusLog p' = statusLog p ++ loading_models :: rest) /\
      match result with
      | Fulfilled provider =>
          state p' = ready /\ currentProvider p' = provider /\
          statusLog p' = statusLog p ++ [loading_models; initializing; ready] /\
          exists core, worker p' = Some (Some core)
      | Rejected _ =>
          state p' = error /\ last (statusLog p') = Some error
      | Pending => False
      end /\
      pendingRequests p' = [] /\
      (forall enc dec provider core,
          (loadAllModels (loaderEnv env)).2 = inr (enc, dec) ->
          workerSpawnFails env = None ->
          Core.initialize enc dec
            (Some (default webgpu (optPreferredProvider p))) Core.new
          = (inr provider, core) ->
          result = Fulfilled (Some provider))
  end.
Proof.
  intros result p'.
  assert (state p = idle \/ state p = error \/ state p = processing ->
          pendingRequests p = [] ->
          (exists rest, statusLog p' = statusLog p ++ loading_models :: rest) /\
          match result with
          | Fulfilled provider =>
              state p' = ready /\ currentProvider p' = provider /\
              statusLog p' = statusLog p ++ [loading_models; initializing; ready] /\
              exists core, worker p' = Some (Some core)
          | Rejected _ => state p' = error /\ last (statusLog p') = Some error
          | Pending => False
          end /\
          pendingRequests p' = [] /\
          (forall enc dec provider core,
              (loadAllModels (loaderEnv env)).2 = inr (enc, dec) ->
              workerSpawnFails env = None ->
              Core.initialize enc dec
                (Some (default webgpu (optPreferredProvider p))) Core.new
              = (inr provider, core) ->
              result = Fulfilled (Some provider))) as Hrun.
  { intros Hstate Hp.
    assert (initialize env clk p =
            let p := set_abortController true (setState loading_models p) in
            let '(progress, models) := loadAllModels (loaderEnv env) in
            let p := log_progress progress p in
            match models with
            | inl e => initializeFailed e p
            | inr (encoderData, decoderData) =>
                let p := setState initializing p in
                match workerSpawnFails env with
                | Some e => initializeFailed e p
                | None =>
                    let p := set_worker (Some None) p in
                    match initializeWorker clk encoderData decoderData p with
                    | (Fulfilled provider, p) =>
                        let p := setState ready (set_currentProvider provider p) in
                        (Fulfilled provider, set_abortController false p)
                    | (Rejected e, p) => initializeFailed e p
                    | (Pending, p) => (Pending, p)
                    end
                end
            end) as Hinit.
    { unfold initialize. destruct Hstate as [->|[->| ->]]; reflexivity. }
    subst result p'. rewrite Hinit. clear Hinit. cbv zeta.
    destruct (loadAllModels (loaderEnv env)) as [progress [e|[enc dec]]].
    { cbn [fst snd initializeFailed statusLog setState set_abortController
              log_progress state pendingRequests].
      split; [eexists; rewrite <- app_assoc; reflexivity|].
      split; [split; [reflexivity|apply last_snoc]|].
      split; [exact Hp|].
      intros ? ? ? ? Hload. discriminate Hload. }
    destruct (workerSpawnFails env) as [e|].
    { cbn [fst snd initializeFailed statusLog setState set_abortController
              log_progress state pendingRequests].
      split; [eexists; rewrite <- !app_assoc; reflexivity|].
      split; [split; [reflexivity|apply last_snoc]|].
      split; [exact Hp|].
      intros ? ? ? ? _ Hspawn. discriminate Hspawn. }
    rewrite initializeWorker_fresh by (cbn; assumption || reflexivity).
    cbn [optPreferredProvider set_worker setState log_progress
         set_abortController].
    destruct (Core.initialize enc dec _ Core.new) as [[e|provider] core] eqn:Hcore;
      cbn [fst snd initializeFailed statusLog setState set_abortController
           log_progress state set_pending set_worker set_currentProvider
           currentProvider worker pendingRequests].
    - split; [eexists; rewrite <- !app_assoc; reflexivity|].
      split; [split; [reflexivity|apply last_snoc]|].
      split; [reflexivity|].
      intros enc' dec' provider' core' Hload _ Hcore'.
      cbn [snd] in Hload. inversion Hload; subst.
      rewrite Hcore in Hcore'. discriminate Hcore'.
    - split; [eexists; rewrite <- !app_assoc; reflexivity|].
      split; [repeat split; [rewrite <- !app_assoc; reflexivity|eexists; reflexivity]|].
      split; [reflexivity|].
      intros enc' dec' provider' core' Hload _ Hcore'.
      cbn [snd] in Hload. inversion Hload; subst.
      rewrite Hcore in Hcore'. inversion Hcore'; subst. reflexivity. }
  destruct (state p) eqn:Hstate; try (apply Hrun; auto).
  - subst result p'. unfold initialize. rewrite Hstate. split; reflexivity.
  - subst result p'. unfold initialize. rewrite Hstate. split; reflexivity.
  - subst result p'. unfold initialize. rewrite Hstate. split; reflexivity.
Qed.

(** The progress callbacks of an [initialize] that runs the sequence are
    those of [loadAllModels], in order. *)
Lemma initialize_reports_loader_progress (env : InitEnv) (clk : Clock)
      (p : WebGPUProvider) :
  pendingRequests p = [] ->
  state p = idle \/ state p = error \/ state p = processing ->
  progressLog (initialize env clk p).2 =
  progressLog p ++ (loadAllModels (loaderEnv env)).1.
Proof.
  intros Hp Hstate. unfold initialize.
  destruct Hstate as [->|[->| ->]];
    (destruct (loadAllModels (loaderEnv env)) as [progress [e|[enc dec]]];
     [reflexivity|];
     destruct (workerSpawnFails env) as [e|]; [reflexivity|];
     rewrite initializeWorker_fresh by (cbn; assumption || reflexivity);
     destruct (Core.initialize enc dec _ Core.new) as [[e|provider] core];
     reflexivity).
Qed.

End Lifecycle.

(** Witness for [initialize_state_machine]: a provider whose first
    [initialize] failed (state [error], nothing outstanding) is initialised
    again. *)
Lemma initialize_state_machine_witness :
  let p := Fixtures.failedProvider in
  let result := (@Provider.initialize Fixtures.tinyRuntime Fixtures.goodEnv
                                      Fixtures.clock p).1 in
  let p' := (@Provider.initialize Fixtures.tinyRuntime Fixtures.goodEnv
                                  Fixtures.clock p).2 in
  (exists rest, Provider.statusLog p' =
                Provider.statusLog p ++ Provider.loading_models :: rest) /\
  match result with
  | Fulfilled provider =>
      Provider.state p' = Provider.ready /\
      Provider.currentProvider p' = provider /\
      Provider.statusLog p' =
        Provider.statusLog p ++
        [Provider.loading_models; Provider.initializing; Provider.ready] /\
      exists core, Provider.worker p' = Some (Some core)
  | Rejected _ =>
      Provider.state p' = Provider.error /\
      last (Provider.statusLog p') = Some Provider.error
  | Pending => False
  end /\
  Provider.pendingRequests p' = [] /\
  (forall enc dec provider core,
      (ModelLoader.loadAllModels (Provider.loaderEnv Fixtures.goodEnv)).2
      = inr (enc, dec) ->
      Provider.workerSpawnFails Fixtures.goodEnv = None ->
      @Core.initialize Fixtures.tinyRuntime enc dec
        (Some (default webgpu (Provider.optPreferredProvider p))) Core.new
      = (inr provider, core) ->
      result = Fulfilled (Some provider)).
Proof.
  exact (initialize_state_machine (rt := Fixtures.tinyRuntime)
           Fixtures.goodEnv Fixtures.clock Fixtures.failedProvider eq_refl).
Defined.

(** After a failed [initialize] the provider is in state [error], and a
    second [initialize] in a working environment succeeds. *)
Lemma initialize_recovers_after_failure :
  Provider.state Fixtures.failedProvider = Provider.error /\
  (@Provider.initialize Fixtures.tinyRuntime Fixtures.goodEnv Fixtures.clock
                        Fixtures.failedProvider).1 = Fulfilled (Some webgpu) /\
  Provider.state
    (@Provider.initialize Fixtures.tinyRuntime Fixtures.goodEnv Fixtures.clock
                          Fixtures.failedProvider).2 = Provider.ready.
Proof. repeat split. Qed.

(** * The segment round trip: provider, worker, engine *)
Section RoundTrip.
Import ImageUtils Core Worker Provider Vocabulary.
Context {rt : Runtime}.

Lemma copy_points (points : list SAM2Point) :
  map (fun q => mkPoint (pt_x q) (pt_y q) (pt_type q)) points = points.
Proof.
  induction points as [|[x y ty] points IH]; [reflexivity|].
  simpl. rewrite IH. reflexivity.
Qed.

Lemma copy_candidates (l : list SAM2MaskCandidate) :
  map (fun m => {| c_index := c_index m; c_iouScore := c_iouScore m;
                   c_mask := c_mask m; c_width := c_width m;
                   c_height := c_height m; c_logits := c_logits m |}) l = l.
Proof.
  induction l as [|[i s m w h lg] l IH]; [reflexivity|].
  simpl. rewrite IH. reflexivity.
Qed.

(** [encodeImage] on an image that is already in the cache. *)
Lemma encodeImage_cached (imageId : string) (imageData : list N) (w h : nat)
      (elapsed : Q) (c : SAM2Core) :
  ort c = true ->
  is_Some (encoderSession c) ->
  is_Some (imageEmbeddings c !! imageId) ->
  encodeImage imageId imageData w h elapsed c = (inr 0%Q, c).
Proof.
  intros Hort [es Hes] Hemb. unfold encodeImage.
  rewrite Hes, Hort. rewrite bool_decide_eq_true_2 by exact Hemb. reflexivity.
Qed.

(** [segment] on an image that is already in the cache: the encoder is
    skipped and the decoder runs once, on the feeds [buildFeeds] gives. *)
Lemma segment_cached (imageId : string) (imageData : list N) (w h : nat)
      (points : list SAM2Point) (prev : option (list f32)) (et dt : Q)
      (c : SAM2Core) (ds : Session) (emb : Tensor) :
  ort c = true ->
  is_Some (encoderSession c) ->
  decoderSession c = Some ds ->
  imageEmbeddings c !! imageId = Some emb ->
  let feeds := buildFeeds c imageId emb points w h prev in
  segment imageId imageData w h points prev et dt c =
  (match decoder_run ds feeds with
   | inl e => inl e
   | inr results =>
       match postprocess results w h dt with
       | inl e => inl e
       | inr r =>
           inr {| r_mask := r_mask r; r_width := r_width r;
                  r_height := r_height r; r_logits := r_logits r;
                  r_allMasks := r_allMasks r;
                  r_selectedMaskIndex := r_selectedMaskIndex r;
                  r_timing := {| tm_encode := Some 0%Q;
                                 tm_decode := tm_decode (r_timing r);
                                 tm_total := (0 + tm_decode (r_timing r))%Q |} |}
       end
   end,
   log_decoder_run feeds c).
Proof.
  intros Hort Hes Hds Hemb feeds. unfold segment.
  rewrite encodeImage_cached
    by (try assumption; rewrite Hemb; eexists; reflexivity).
  unfold decode. rewrite Hds, Hort, Hemb. fold feeds.
  destruct (decoder_run ds feeds) as [e|results]; [reflexivity|].
  destruct (postprocess results w h dt) as [e|r]; reflexivity.
Qed.

(** One [segmentSingleView] on a ready provider whose session image is
    encoded: the decoder is run once on [buildFeeds] of the stored
    previous logits; the provider returns to [ready] whatever happens, the
    worker and its engine stay in place, and the previous logits are
    replaced only on success. *)
Lemma segmentSingleView_ready (env : InitEnv) (clk : Clock)
      (req : SegmentationRequest) (p : WebGPUProvider) (imageId : string)
      (core : SAM2Core) (ds : Session) (emb : Tensor) :
  ready_for p imageId core ds emb ->
  let prev := previousMaskLogits p !! imageId in
  let feeds := buildFeeds core imageId emb (points req) (width req) (height req) prev in
  let out := (segmentSingleView env clk req p).1 in
  let p1 := (segmentSingleView env clk req p).2 in
  ready_for p1 imageId (log_decoder_run feeds core) ds emb /\
  match decoder_run ds feeds with
  | inl e =>
      out = Rejected (SegmentationError (exn_message e) SERVER_ERROR (Some "segment")) /\
      previousMaskLogits p1 = previousMaskLogits p
  | inr results =>
      match postprocess results (width req) (height req) (decodeElapsed clk) with
      | inl e =>
          out = Rejected (SegmentationError (exn_message e) SERVER_ERROR
                                            (Some "segment")) /\
          previousMaskLogits p1 = previousMaskLogits p
      | inr r =>
          out = Fulfilled (responseOf r) /\
          previousMaskLogits p1 = storedAfter r imageId (previousMaskLogits p)
      end
  end.
Proof.
  intros (Hstate & Hworker & Hpending & Hid & Hort & Hes & Hds & Hemb)
         prev feeds out p1.
  subst out p1 feeds prev. unfold segmentSingleView, ensureReady. rewrite Hstate.
  unfold ensureImageId.
  cbn [currentImageId previousMaskLogits setState]. rewrite Hid.
  cbn [currentImageId previousMaskLogits setState].
  rewrite copy_points.
  rewrite (sendWorkerMessage_quiet _ _ _ (Some core))
    by (cbn; assumption).
  cbn [dispatch handleSegment].
  rewrite (segment_cached _ _ _ _ _ _ _ _ _ ds emb) by assumption.
  remember (buildFeeds core imageId emb (points req) (width req) (height req)
                       (previousMaskLogits p !! imageId)) as feeds eqn:Hfeeds.
  clear Hfeeds.
  destruct (decoder_run ds feeds) as [e|results].
  - cbn. unfold ready_for. cbn. repeat split; assumption.
  - destruct (postprocess results (width req) (height req) (decodeElapsed clk))
      as [e|r].
    + cbn. unfold ready_for. cbn. repeat split; assumption.
    + cbn -[extractBestMaskLogits]. unfold ready_for, responseOf, storedAfter.
      destruct (r_logits r) as [logits|];
        cbn -[extractBestMaskLogits];
        (split; [repeat split; assumption|]);
        (split; [|reflexivity]);
        destruct (r_allMasks r) as [l|]; cbn; try reflexivity;
        rewrite length_map, !copy_candidates; reflexivity.
Qed.

End RoundTrip.

(** * Failures inside the worker *)
Section WorkerFailures.
Import ImageUtils Core Worker Provider Vocabulary.
Context {rt : Runtime}.

(** The worker answers every request with exactly one response and goes
    on with the state its handler left; a thrown value is answered by an
    [error] response tagged with the type of the request. *)
Lemma onmessage_catches (clk : Clock) (message : WorkerRequestMessage)
      (w : WorkerState) :
  exists response,
    onmessage clk message w = ([response], (dispatch clk message w).2) /\
    forall e, (dispatch clk message w).1 = inl e ->
              response = RespError (exn_message e) (request_type message).
Proof.
  pose proof (onmessage_cases clk message w) as Hon.
  destruct (dispatch clk message w) as [[e|response] w'];
    eexists; (split; [exact Hon|]); cbn [fst]; intros e' Heq; inversion Heq.
  reflexivity.
Qed.

(** The provider rejects the call whose request made the worker throw, and
    keeps the worker. *)
Lemma sendWorkerMessage_rejects (clk : Clock) (message : WorkerRequestMessage)
      (p : WebGPUProvider) (w : WorkerState) (e : Exn) :
  worker p = Some w ->
  pendingRequests p = [] ->
  (dispatch clk message w).1 = inl e ->
  (sendWorkerMessage clk message p).1 = Rejected (workerFailure e message) /\
  worker (sendWorkerMessage clk message p).2 = Some (dispatch clk message w).2 /\
  pendingRequests (sendWorkerMessage clk message p).2 = [].
Proof.
  intros Hw Hp Hd. rewrite (sendWorkerMessage_quiet _ _ _ _ Hw Hp), Hd.
  repeat split.
Qed.

(** An [error] response rejects the oldest pending request, with the
    worker's message and the request type it names. *)
Lemma handleWorkerMessage_error (q : WebGPUProvider) (r : string)
      (rest : list string) (m t : string) :
  pendingRequests q = r :: rest ->
  (handleWorkerMessage (RespError m t) q).1 =
    Some (r, Rejected (SegmentationError m SERVER_ERROR (Some t))) /\
  pendingRequests (handleWorkerMessage (RespError m t) q).2 = rest.
Proof.
  intros Hq. unfold handleWorkerMessage. rewrite Hq. split; reflexivity.
Qed.

(** Claim C6: whatever a request handler throws, the worker answers with an
    [error] response tagged with the request type and keeps running; the
    provider rejects the call that sent the request (with a
    [SegmentationError] of code SERVER_ERROR naming the request type) and
    keeps its worker; in general an [error] response rejects the oldest
    pending request.  In particular, on a ready provider whose session
    image is encoded, a [segmentSingleView] whose decoder run throws is
    rejected, the provider is back in state [ready] with the same sessions,
    and a later [segmentSingleView] whose decoder run succeeds is
    fulfilled, provided the image and the decoder's mask planes have a
    positive width and height (the canvas calls of [resizeMask] throw for
    a size of 0). *)
Theorem worker_failure_is_contained
        (env : InitEnv) (clk : Clock) (bad good : SegmentationRequest)
        (p : WebGPUProvider) (imageId : string) (core : SAM2Core)
        (ds : Session) (emb : Tensor) (e : Exn) (results : DecoderResults)
        (maskTensor : MaskTensor) :
  ready_for p imageId core ds emb ->
  let prev := previousMaskLogits p !! imageId in
  decoder_run ds (buildFeeds core imageId emb (points bad) (width bad)
                             (height bad) prev) = inl e ->
  decoder_run ds (buildFeeds core imageId emb (points good) (width good)
                             (height good) prev) = inr results ->
  nullish (dr_masks results) (dr_low_res_masks results) = Some maskTensor ->
  0 < width good ->
  0 < height good ->
  0 < mt_width maskTensor ->
  0 < mt_height maskTensor ->
  let failed := segmentSingleView env clk bad p in
  let retried := segmentSingleView env clk good failed.2 in
  (forall clk' message w,
      exists response,
        onmessage clk' message w = ([response], (dispatch clk' message w).2) /\
        forall e', (dispatch clk' message w).1 = inl e' ->
                   response = RespError (exn_message e') (request_type message)) /\
  (forall clk' message q w e',
      worker q = Some w ->
      pendingRequests q = [] ->
      (dispatch clk' message w).1 = inl e' ->
      (sendWorkerMessage clk' message q).1 = Rejected (workerFailure e' message) /\
      worker (sendWorkerMessage clk' message q).2 = Some (dispatch clk' message w).2 /\
      pendingRequests (sendWorkerMessage clk' message q).2 = []) /\
  (forall q r rest m t,
      pendingRequests q = r :: rest ->
      (handleWorkerMessage (RespError m t) q).1 =
        Some (r, Rejected (SegmentationError m SERVER_ERROR (Some t))) /\
      pendingRequests (handleWorkerMessage (RespError m t) q).2 = rest) /\
  failed.1 = Rejected (SegmentationError (exn_message e) SERVER_ERROR
                                         (Some "segment")) /\
  state failed.2 = ready /\
  (exists core1, worker failed.2 = Some (Some core1) /\
                 decoderSession core1 = Some ds /\
                 is_Some (encoderSession core1)) /\
  exists R, retried.1 = Fulfilled R.
Proof.
  intros Hready prev Hbad Hgood Hmask _ _ _ _ failed retried.
  split; [intros; apply onmessage_catches|].
  split; [intros; eapply sendWorkerMessage_rejects; eassumption|].
  split; [intros; apply handleWorkerMessage_error; assumption|].
  pose proof (segmentSingleView_ready env clk bad p imageId core ds emb Hready)
    as [Hready1 Hfirst].
  fold prev in Hfirst, Hready1. rewrite Hbad in Hfirst.
  destruct Hfirst as [Hout Hstored]. fold failed in Hout, Hstored, Hready1.
  split; [exact Hout|].
  pose proof Hready1 as (Hstate1 & Hworker1 & _ & _ & _ & Hes1 & Hds1 & _).
  split; [exact Hstate1|].
  split; [eexists; repeat split; eassumption|].
  pose proof (segmentSingleView_ready env clk good failed.2 imageId _ ds emb Hready1)
    as [_ Hsecond].
  rewrite Hstored in Hsecond. fold prev in Hsecond.
  change (buildFeeds (log_decoder_run
                        (buildFeeds core imageId emb (points bad) (width bad)
                                    (height bad) prev) core)
                     imageId emb (points good) (width good) (height good) prev)
    with (buildFeeds core imageId emb (points good) (width good) (height good) prev)
    in Hsecond.
  rewrite Hgood in Hsecond.
  destruct (postprocess_total results (width good) (height good) (decodeElapsed clk)
                              maskTensor Hmask) as [r Hpost].
  rewrite Hpost in Hsecond. destruct Hsecond as [Hout2 _].
  eexists. exact Hout2.
Qed.

End WorkerFailures.

(** Witness for [worker_failure_is_contained]: the decoder of the example
    runtime throws on a request without points and succeeds on the next
    request, which has one. *)
Lemma worker_failure_is_contained_witness :
  let p := Fixtures.readyProvider in
  let ds := mkSession (mkBytes 1 3) webgpu in
  let failed := @Provider.segmentSingleView Fixtures.tinyRuntime
                  Fixtures.goodEnv Fixtures.clock Fixtures.pointlessRequest p in
  let retried := @Provider.segmentSingleView Fixtures.tinyRuntime
                   Fixtures.goodEnv Fixtures.clock Fixtures.firstRequest failed.2 in
  (forall clk' message w,
      exists response,
        @Worker.onmessage Fixtures.tinyRuntime clk' message w
        = ([response], (@Worker.dispatch Fixtures.tinyRuntime clk' message w).2) /\
        forall e', (@Worker.dispatch Fixtures.tinyRuntime clk' message w).1 = inl e' ->
                   response = Worker.RespError (exn_message e')
                                               (Worker.request_type message)) /\
  (forall clk' message q w e',
      Provider.worker q = Some w ->
      Provider.pendingRequests q = [] ->
      (@Worker.dispatch Fixtures.tinyRuntime clk' message w).1 = inl e' ->
      (@Provider.sendWorkerMessage Fixtures.tinyRuntime clk' message q).1
      = Rejected (Vocabulary.workerFailure e' message) /\
      Provider.worker (@Provider.sendWorkerMessage Fixtures.tinyRuntime clk' message q).2
      = Some (@Worker.dispatch Fixtures.tinyRuntime clk' message w).2 /\
      Provider.pendingRequests
        (@Provider.sendWorkerMessage Fixtures.tinyRuntime clk' message q).2 = []) /\
  (forall q r rest m t,
      Provider.pendingRequests q = r :: rest ->
      (Provider.handleWorkerMessage (Worker.RespError m t) q).1 =
        Some (r, Rejected (SegmentationError m SERVER_ERROR (Some t))) /\
      Provider.pendingRequests
        (Provider.handleWorkerMessage (Worker.RespError m t) q).2 = rest) /\
  failed.1 = Rejected (SegmentationError (exn_message (Error "shape mismatch"))
                                         SERVER_ERROR (Some "segment")) /\
  Provider.state failed.2 = Provider.ready /\
  (exists core1, Provider.worker failed.2 = Some (Some core1) /\
                 Core.decoderSession core1 = Some ds /\
                 is_Some (Core.encoderSession core1)) /\
  exists R, retried.1 = Fulfilled R.
Proof.
  apply (worker_failure_is_contained (rt := Fixtures.tinyRuntime)
           Fixtures.goodEnv Fixtures.clock
           Fixtures.pointlessRequest Fixtures.firstRequest
           Fixtures.readyProvider "img_1" Fixtures.encodedCore
           (mkSession (mkBytes 1 3) webgpu) (mkTensor [Fin 1] [1])
           (Error "shape mismatch")
           {| dr_masks := Some Fixtures.threeMasks;
              dr_low_res_masks := None;
              dr_iou_predictions := Some Fixtures.threeScores;
              dr_iou_pred := None |}
           Fixtures.threeMasks).
  - unfold Vocabulary.ready_for. repeat split; try reflexivity.
    eexists; reflexivity.
  - reflexivity.
  - reflexivity.
  - reflexivity.
  - simpl; lia.
  - simpl; lia.
  - simpl; lia.
  - simpl; lia.
Defined.

(** * The embedding cache *)
Section EncodeCache.
Import Core Worker.
Context {rt : Runtime}.

(** Claim C4: once [encodeImage] has succeeded for an image id (the encoder
    having emitted [image_embed], as its contract says), the embeddings for
    the id are cached, and any further [encodeImage] with this id reports
    0 ms and leaves the engine as it is: same cached embeddings, no
    further encoder run.  The worker's [encode] request answers
    accordingly. *)
Theorem encodeImage_idempotent (imageId : string) (imageData : list N)
        (w h : nat) (elapsed : Q) (c c1 : SAM2Core) (t1 : Q) :
  encodeImage imageId imageData w h elapsed c = (inr t1, c1) ->
  (forall session results,
      encoderSession c = Some session ->
      encoder_run session (preprocess imageData w h) = inr results ->
      is_Some (er_image_embed results)) ->
  is_Some (imageEmbeddings c1 !! imageId) /\
  forall imageData' w' h' elapsed' clk,
    encodeImage imageId imageData' w' h' elapsed' c1 = (inr 0%Q, c1) /\
    onmessage clk (ReqEncode imageId imageData' w' h') (Some c1)
    = ([RespEncoded imageId 0%Q], Some c1).
Proof.
  intros Hfirst Hcontract.
  assert (ort c1 = true /\ is_Some (encoderSession c1) /\
          is_Some (imageEmbeddings c1 !! imageId)) as (Hort & Hes & Hemb).
  { unfold encodeImage in Hfirst.
    destruct (encoderSession c) as [session|] eqn:Hsession;
      [|inversion Hfirst].
    destruct (ort c) eqn:Hort; [|inversion Hfirst].
    destruct (bool_decide (is_Some (imageEmbeddings c !! imageId))) eqn:Hcached.
    - inversion Hfirst; subst. apply bool_decide_eq_true_1 in Hcached.
      rewrite Hsession. repeat split; eauto.
    - destruct (encoder_run session (preprocess imageData w h))
        as [e|results] eqn:Hrun; [inversion Hfirst|].
      destruct (Hcontract session results eq_refl Hrun) as [t Ht].
      inversion Hfirst; subst. cbn. rewrite Hsession, Ht.
      repeat split; eauto. rewrite lookup_insert_eq. eauto. }
  split; [exact Hemb|].
  intros imageData' w' h' elapsed' clk.
  assert (encodeImage imageId imageData' w' h' elapsed' c1 = (inr 0%Q, c1))
    as Hsecond by (apply encodeImage_cached; assumption).
  split; [exact Hsecond|].
  unfold onmessage, dispatch, handleEncode.
  rewrite (encodeImage_cached imageId imageData' w' h' (encodeElapsed clk) c1)
    by assumption.
  reflexivity.
Qed.

(** The assumption on the encoder output is needed: when the encoder's
    output has no [image_embed], nothing is cached for the id, and the next
    [encodeImage] runs the encoder again. *)
Remark encodeImage_without_embedding (imageId : string) (imageData : list N)
       (w h : nat) (elapsed : Q) (c : SAM2Core) (session : Session)
       (results : EncoderResults) :
  ort c = true ->
  encoderSession c = Some session ->
  imageEmbeddings c !! imageId = None ->
  encoder_run session (preprocess imageData w h) = inr results ->
  er_image_embed results = None ->
  let c1 := (encodeImage imageId imageData w h elapsed c).2 in
  (encodeImage imageId imageData w h elapsed c).1 = inr elapsed /\
  imageEmbeddings c1 !! imageId = None /\
  encoderRuns (encodeImage imageId imageData w h elapsed c1).2 =
    encoderRuns c ++ [preprocess imageData w h; preprocess imageData w h].
Proof.
  intros Hort Hsession Hnone Hrun Hembed c1.
  assert (encodeImage imageId imageData w h elapsed c =
          (inr elapsed,
           set_caches (imageEmbeddings c)
             (let hr := match er_high_res_feats_0 results with
                        | Some t => [t] | None => [] end ++
                        match er_high_res_feats_1 results with
                        | Some t => [t] | None => [] end in
              if 0 <? length hr then <[imageId := hr]> (highResFeatures c)
              else highResFeatures c)
             (<[imageId := mkImageRecord imageData w h]> (cachedImageData c))
             (log_encoder_run (preprocess imageData w h) c))) as Hfirst.
  { unfold encodeImage. rewrite Hsession, Hort.
    rewrite bool_decide_eq_false_2 by (rewrite Hnone; intros [x Hx]; discriminate).
    rewrite Hrun, Hembed. reflexivity. }
  subst c1. rewrite Hfirst. cbn [fst snd].
  split; [reflexivity|]. split; [exact Hnone|].
  unfold encodeImage at 1.
  cbn [encoderSession ort imageEmbeddings set_caches log_encoder_run].
  rewrite Hsession, Hort.
  rewrite bool_decide_eq_false_2 by (rewrite Hnone; intros [x Hx]; discriminate).
  rewrite Hrun. cbn [snd encoderRuns set_caches log_encoder_run].
  rewrite <- app_assoc. reflexivity.
Qed.

End EncodeCache.

(** Witness for [encodeImage_idempotent]: image [img_1] is encoded on an
    engine with an empty cache. *)
Lemma encodeImage_idempotent_witness :
  let c1 := (@Core.encodeImage Fixtures.tinyRuntime "img_1" Fixtures.twoPixels
                               2 1 120 Fixtures.initializedCore).2 in
  is_Some (Core.imageEmbeddings c1 !! "img_1") /\
  forall imageData' w' h' elapsed' clk,
    @Core.encodeImage Fixtures.tinyRuntime "img_1" imageData' w' h' elapsed' c1
    = (inr 0%Q, c1) /\
    @Worker.onmessage Fixtures.tinyRuntime clk
      (Worker.ReqEncode "img_1" imageData' w' h') (Some c1)
    = ([Worker.RespEncoded "img_1" 0%Q], Some c1).
Proof.
  apply (encodeImage_idempotent (rt := Fixtures.tinyRuntime)
           "img_1" Fixtures.twoPixels 2 1 120 Fixtures.initializedCore
           (@Core.encodeImage Fixtures.tinyRuntime "img_1" Fixtures.twoPixels
                              2 1 120 Fixtures.initializedCore).2 120).
  - reflexivity.
  - intros session results _ Hrun. simpl in Hrun. inversion Hrun; subst.
    eexists. reflexivity.
Defined.

(** * The response of a successful segmentation *)
Section ResponseInvariants.
Import ImageUtils Core Worker ModelLoader Provider Vocabulary.
Context {rt : Runtime}.

(** The mask invariants of every result [postprocess] builds from a decoder
    output whose IoU tensor, if present, is not empty. *)
Lemma postprocess_mask_invariants (results : DecoderResults) (W H : nat) (t : Q)
      (r : SAM2Result) :
  postprocess results W H t = inr r ->
  nullish (dr_iou_predictions results) (dr_iou_pred results) <> Some [] ->
  length (r_mask r) = W * H /\
  binary (r_mask r) /\
  exists allMasks sel candidate,
    r_allMasks r = Some allMasks /\
    r_selectedMaskIndex r = Some sel /\
    sel < length allMasks /\
    allMasks !! sel = Some candidate /\
    c_mask candidate = r_mask r.
Proof.
  intros Hpost Hiou.
  destruct (postprocess_inr _ _ _ _ _ Hpost)
    as (maskTensor & _ & Hsel & Hmask & _ & Hall & _).
  set (iou := nullish (dr_iou_predictions results) (dr_iou_pred results)) in *.
  set (best := selectBestMaskIndex iou) in *.
  rewrite Hmask. split; [apply resizeMask_length|].
  split; [apply resizeMask_binary|].
  set (n := match iou with Some d => length d | None => 1 end) in *.
  assert (best < n) as Hlt.
  { subst best n. destruct iou as [scores|]; [|simpl; lia].
    apply selectBestMaskIndex_spec. congruence. }
  eexists _, best, (buildCandidate maskTensor iou W H best).
  split; [exact Hall|]. split; [exact Hsel|].
  split; [rewrite length_map, length_seq; exact Hlt|].
  split; [|reflexivity].
  rewrite list_lookup_fmap, lookup_seq_lt by exact Hlt. reflexivity.
Qed.

Lemma initialize_quiet (env : InitEnv) (clk : Clock) (p : WebGPUProvider) :
  pendingRequests p = [] ->
  pendingRequests (initialize env clk p).2 = [].
Proof.
  intros Hp. unfold initialize.
  destruct (state p); try exact Hp;
    (destruct (loadAllModels (loaderEnv env)) as [progress [e|[enc dec]]];
     [exact Hp|];
     destruct (workerSpawnFails env) as [e|]; [exact Hp|];
     rewrite initializeWorker_fresh by (cbn; assumption || reflexivity);
     destruct (Core.initialize enc dec _ Core.new) as [[e|provider] core];
     reflexivity).
Qed.

Lemma ensureReady_quiet (what : string) (env : InitEnv) (clk : Clock)
      (p : WebGPUProvider) :
  pendingRequests p = [] ->
  pendingRequests (ensureReady what env clk p).2 = [].
Proof.
  intros Hp. unfold ensureReady.
  destruct (state p) eqn:Hstate; try exact Hp.
  pose proof (initialize_quiet env clk p Hp) as Hq.
  destruct (initialize env clk p) as [[x|e|] p0]; exact Hq.
Qed.

Lemma ensureImageId_quiet (p : WebGPUProvider) :
  pendingRequests (ensureImageId p).2 = pendingRequests p.
Proof. unfold ensureImageId. destruct (currentImageId p); reflexivity. Qed.

Lemma ensureImageId_current (p : WebGPUProvider) :
  currentImageId (ensureImageId p).2 = Some (ensureImageId p).1.
Proof.
  unfold ensureImageId. destruct (currentImageId p) eqn:Hid; [exact Hid|].
  reflexivity.
Qed.

(** A successful [segment] is a successful [decode] with timings merged,
    on an engine whose sessions exist. *)
Lemma segment_inr (imageId : string) (imageData : list N) (w h : nat)
      (points : list SAM2Point) (prev : option (list f32)) (et dt : Q)
      (c c' : SAM2Core) (r : SAM2Result) :
  segment imageId imageData w h points prev et dt c = (inr r, c') ->
  exists c0 r0, decode imageId points w h prev dt c0 = (inr r0, c') /\
                is_Some (encoderSession c0) /\
                responseOf r = responseOf r0 /\
                r_logits r = r_logits r0.
Proof.
  unfold segment.
  destruct (encodeImage imageId imageData w h et c) as [[e|encodeTime] c0] eqn:Henc;
    [intros Heq; inversion Heq|].
  destruct (encodeImage_inr _ _ _ _ _ _ _ _ Henc) as (_ & Hes & _).
  destruct (decode imageId points w h prev dt c0) as [[e|r0] c1] eqn:Hdec;
    intros Heq; inversion Heq; subst.
  exists c0, r0. repeat split; assumption || reflexivity.
Qed.

(** Every fulfilled [segmentSingleView] carries the result [postprocess]
    built from an output of the decoder; it leaves the provider ready for
    the next request of the session, with the logits of the result stored
    for it. *)
Lemma segmentSingleView_fulfilled (env : InitEnv) (clk : Clock)
      (req : SegmentationRequest) (p p' : WebGPUProvider)
      (resp : SegmentationResponse) :
  pendingRequests p = [] ->
  segmentSingleView env clk req p = (Fulfilled resp, p') ->
  exists session feeds results t r imageId core emb,
    decoder_run session feeds = inr results /\
    postprocess results (width req) (height req) t = inr r /\
    resp = responseOf r /\
    ready_for p' imageId core session emb /\
    previousMaskLogits p' !! imageId = extractBestMaskLogits <$> r_logits r.
Proof.
  intros Hp. unfold segmentSingleView.
  pose proof (ensureReady_quiet "Provider not ready" env clk p Hp) as Hq.
  destruct (ensureReady "Provider not ready" env clk p) as [[[]|e|] p0];
    [|intros Heq; inversion Heq|intros Heq; inversion Heq].
  cbn [snd] in Hq.
  pose proof (ensureImageId_quiet (setState processing p0)) as Hq1.
  pose proof (ensureImageId_current (setState processing p0)) as Hcur.
  destruct (ensureImageId (setState processing p0)) as [imageId p1].
  cbn [fst snd setState pendingRequests] in Hq1, Hcur. rewrite Hq in Hq1.
  rewrite copy_points.
  destruct (worker p1) as [w|] eqn:Hw.
  2:{ unfold sendWorkerMessage. rewrite Hw. intros Heq. inversion Heq. }
  rewrite (sendWorkerMessage_quiet _ _ _ _ Hw Hq1).
  cbn [dispatch].
  destruct w as [c|]; [|cbn; intros Heq; inversion Heq].
  unfold handleSegment.
  destruct (segment imageId (image req) (width req) (height req) (points req)
                    (previousMaskLogits p1 !! imageId)
                    (encodeElapsed clk) (decodeElapsed clk) c)
    as [[e|r] c'] eqn:Hseg; [cbn; intros Heq; inversion Heq|].
  destruct (segment_inr _ _ _ _ _ _ _ _ _ _ _ Hseg)
    as (c0 & r0 & Hdec & Hes & Hresp & Hlogits).
  destruct (decode_inr _ _ _ _ _ _ _ _ _ Hdec)
    as (session & embeddings & results & Hds & Hemb & Hrun & Hpost & Hc' & Hort).
  cbn -[extractBestMaskLogits]. intros Heq. inversion Heq as [[Hr Hp']].
  eexists session, _, results, (decodeElapsed clk), r0, imageId, c', embeddings.
  split; [exact Hrun|]. split; [exact Hpost|].
  split.
  { rewrite <- Hresp. unfold responseOf, toWorkerCandidates.
    destruct (r_allMasks r) as [l|]; cbn; [|reflexivity].
    rewrite ?length_map, !copy_candidates. reflexivity. }
  rewrite <- Hlogits.
  assert (ort c' = true /\ is_Some (encoderSession c') /\
          decoderSession c' = Some session /\
          imageEmbeddings c' !! imageId = Some embeddings) as (Ho & He & Hd & Hm).
  { subst c'. cbn. repeat split; assumption. }
  unfold ready_for.
  destruct (r_logits r) as [logits|]; cbn -[extractBestMaskLogits];
    (split; [repeat split; assumption|]);
    [rewrite lookup_insert_eq; reflexivity|].
  pose proof (postprocess_inr _ _ _ _ _ Hpost) as (mt & _ & _ & _ & Hl & _).
  rewrite <- Hlogits in Hl. discriminate Hl.
Qed.

(** Claim C1: a fulfilled [segmentSingleView] (no other request
    outstanding, the decoder's IoU output never empty) returns a mask of
    [width * height] bytes, each 0 or 255, together with candidates and a
    selected index that is within the candidates and whose candidate's mask
    is the returned mask. *)
Theorem segmentSingleView_mask_invariants (env : InitEnv) (clk : Clock)
        (req : SegmentationRequest) (p p' : WebGPUProvider)
        (resp : SegmentationResponse) :
  pendingRequests p = [] ->
  (forall session feeds results,
      decoder_run session feeds = inr results ->
      nullish (dr_iou_predictions results) (dr_iou_pred results) <> Some []) ->
  segmentSingleView env clk req p = (Fulfilled resp, p') ->
  exists mask allMasks sel candidate,
    resp_mask resp = Some mask /\
    length mask = width req * height req /\
    binary mask /\
    resp_allMasks resp = Some allMasks /\
    resp_selectedMaskIndex resp = Some sel /\
    sel < length allMasks /\
    allMasks !! sel = Some candidate /\
    c_mask candidate = mask.
Proof.
  intros Hp Hcontract Hseg.
  destruct (segmentSingleView_fulfilled _ _ _ _ _ _ Hp Hseg)
    as (session & feeds & results & t & r & imageId & core & emb &
        Hrun & Hpost & -> & _).
  destruct (postprocess_mask_invariants _ _ _ _ _ Hpost (Hcontract _ _ _ Hrun))
    as (Hlen & Hbin & allMasks & sel & candidate & Hall & Hsel & Hlt & Hlook & Hmask).
  exists (r_mask r), allMasks, sel, candidate.
  unfold responseOf. cbn [resp_mask resp_allMasks resp_selectedMaskIndex].
  rewrite Hall.
  assert ((0 <? length allMasks) = true) as -> by (apply Nat.ltb_lt; lia).
  repeat split; assumption.
Qed.

(** The assumption on the IoU output is needed: a decoder output whose IoU
    tensor is present but empty yields no candidate at all, with selected
    index 0. *)
Remark empty_iou_output_has_no_candidates (results : DecoderResults) (W H : nat)
       (t : Q) (r : SAM2Result) :
  nullish (dr_iou_predictions results) (dr_iou_pred results) = Some [] ->
  postprocess results W H t = inr r ->
  r_allMasks r = Some [] /\ r_selectedMaskIndex r = Some 0 /\
  resp_allMasks (responseOf r) = None.
Proof.
  intros Hiou Hpost.
  destruct (postprocess_inr _ _ _ _ _ Hpost)
    as (maskTensor & _ & Hsel & _ & _ & Hall & _).
  rewrite Hiou in Hsel, Hall. cbn in Hsel, Hall.
  unfold responseOf. cbn [resp_allMasks]. rewrite Hall. repeat split; assumption.
Qed.

(** The same invariants for the engine's [decode]. *)
Lemma decode_mask_invariants (imageId : string) (points : list SAM2Point)
      (W H : nat) (prev : option (list f32)) (t : Q) (c c' : SAM2Core)
      (r : SAM2Result) :
  (forall session feeds results,
      decoder_run session feeds = inr results ->
      nullish (dr_iou_predictions results) (dr_iou_pred results) <> Some []) ->
  decode imageId points W H prev t c = (inr r, c') ->
  length (r_mask r) = W * H /\
  binary (r_mask r) /\
  exists allMasks sel candidate,
    r_allMasks r = Some allMasks /\
    r_selectedMaskIndex r = Some sel /\
    sel < length allMasks /\
    allMasks !! sel = Some candidate /\
    c_mask candidate = r_mask r.
Proof.
  intros Hcontract Hdec.
  destruct (decode_inr _ _ _ _ _ _ _ _ _ Hdec)
    as (session & embeddings & results & _ & _ & Hrun & Hpost & _).
  eapply postprocess_mask_invariants; eauto.
Qed.

End ResponseInvariants.

(** Witness for [segmentSingleView_mask_invariants]: the first request of
    session [img_1] on a ready provider. *)
Lemma segmentSingleView_mask_invariants_witness :
  exists mask allMasks sel candidate,
    Provider.resp_mask Fixtures.firstResponse = Some mask /\
    length mask = Provider.width Fixtures.firstRequest *
                  Provider.height Fixtures.firstRequest /\
    Vocabulary.binary mask /\
    Provider.resp_allMasks Fixtures.firstResponse = Some allMasks /\
    Provider.resp_selectedMaskIndex Fixtures.firstResponse = Some sel /\
    sel < length allMasks /\
    allMasks !! sel = Some candidate /\
    Core.c_mask candidate = mask.
Proof.
  apply (segmentSingleView_mask_invariants (rt := Fixtures.tinyRuntime)
           Fixtures.goodEnv Fixtures.clock Fixtures.firstRequest
           Fixtures.readyProvider Fixtures.firstSegment.2
           Fixtures.firstResponse).
  - reflexivity.
  - intros session feeds results Hrun. simpl in Hrun.
    destruct (length (t_data (point_labels feeds)) =? 0);
      inversion Hrun; subst; simpl; discriminate.
  - reflexivity.
Defined.

(** * Iterative refinement *)
Section Refinement.
Import ImageUtils Core Worker Provider Vocabulary.
Context {rt : Runtime}.


(** The two refinement inputs the engine feeds to the decoder. *)
Lemma buildFeeds_mask_input (c : SAM2Core) (imageId : string) (emb : Tensor)
      (points : list SAM2Point) (w h : nat) (prev : option (list f32)) :
  match prev with
  | Some logits =>
      t_data (mask_input (buildFeeds c imageId emb points w h prev)) = logits /\
      t_data (has_mask_input (buildFeeds c imageId emb points w h prev)) = [Fin 1]
  | None =>
      t_data (mask_input (buildFeeds c imageId emb points w h prev))
        = repeat (Fin 0) (256 * 256) /\
      t_data (has_mask_input (buildFeeds c imageId emb points w h prev)) = [Fin 0]
  end.
Proof. destruct prev; split; reflexivity. Qed.



End Refinement.



(** * Session creation and its fallback *)
Section SessionCreation.
Import Core Vocabulary.
Context {rt : Runtime}.

(** What the provider loop of [createSessions] leaves behind. *)
Lemma trySessions_spec (enc dec : Bytes) (providers : list ExecutionProvider)
      (c : SAM2Core) :
  match trySessions enc dec providers c with
  | (inr provider, c') =>
      exists before after,
        providers = before ++ provider :: after /\
        Forall (fun ep => sessionsCreatable enc dec ep = false) before /\
        sessionsCreatable enc dec provider = true /\
        c' = set_sessions (Some (mkSession enc provider))
                          (Some (mkSession dec provider)) c
  | (inl e, c') =>
      e = Error "Failed to create ONNX sessions with any available provider" /\
      Forall (fun ep => sessionsCreatable enc dec ep = false) providers /\
      c' = match providers with [] => c | _ => set_sessions None None c end
  end.
Proof.
  revert c. induction providers as [|ep rest IH]; intros c.
  - cbn. repeat split. constructor.
  - cbn [trySessions]. unfold sessionsCreatable in *.
    destruct (session_create enc ep) as [m|] eqn:Henc.
    + specialize (IH (disposeSessions c)).
      destruct (trySessions enc dec rest (disposeSessions c)) as [[e|provider] c'].
      * destruct IH as (-> & Hall & ->). repeat split.
        -- constructor; [rewrite Henc; reflexivity|exact Hall].
        -- destruct rest; reflexivity.
      * destruct IH as (before & after & -> & Hall & Hok & ->).
        exists (ep :: before), after. repeat split.
        -- constructor; [rewrite Henc; reflexivity|exact Hall].
        -- exact Hok.
    + destruct (session_create dec ep) as [m|] eqn:Hdec.
      * specialize (IH (disposeSessions
                          (set_sessions (Some (mkSession enc ep)) (decoderSession c) c))).
        destruct (trySessions enc dec rest _) as [[e|provider] c'].
        -- destruct IH as (-> & Hall & ->). repeat split.
           ++ constructor; [rewrite Henc, Hdec; reflexivity|exact Hall].
           ++ destruct rest; reflexivity.
        -- destruct IH as (before & after & -> & Hall & Hok & ->).
           exists (ep :: before), after. repeat split.
           ++ constructor; [rewrite Henc, Hdec; reflexivity|exact Hall].
           ++ exact Hok.
      * exists [], rest. repeat split.
        -- constructor.
        -- rewrite Henc, Hdec. reflexivity.
Qed.

(** [initialize] in full: which provider it returns and the engine it
    leaves. *)
Lemma core_initialize_spec (enc dec : Bytes) (pref : option ExecutionProvider)
      (c : SAM2Core) :
  match Core.initialize enc dec pref c with
  | (inr provider, c') =>
      exists before after,
        providersTried pref = before ++ provider :: after /\
        Forall (fun ep => sessionsCreatable enc dec ep = false) before /\
        sessionsCreatable enc dec provider = true /\
        c' = set_currentProvider provider
               (set_sessions (Some (mkSession enc provider))
                             (Some (mkSession dec provider)) (set_loaded true c))
  | (inl e, c') =>
      e = Error "Failed to create ONNX sessions with any available provider" /\
      Forall (fun ep => sessionsCreatable enc dec ep = false) (providersTried pref) /\
      c' = set_sessions None None (set_loaded true c)
  end.
Proof.
  unfold Core.initialize, createSessions. cbn [ort set_loaded].
  pose proof (trySessions_spec enc dec (providersTried pref) (set_loaded true c))
    as Hspec.
  unfold providersTried in *.
  destruct (default webgpu pref);
    destruct (trySessions enc dec _ (set_loaded true c)) as [[e|provider] c'];
    try (destruct Hspec as (-> & Hall & ->); repeat split; exact Hall);
    destruct Hspec as (before & after & Heq & Hall & Hok & ->);
    exists before, after; repeat split; assumption.
Qed.

(** [initialize] returns the first provider, in the order webgpu then wasm
    (wasm alone when wasm is preferred), on which both sessions can be
    created, and leaves the engine initialised with the encoder and decoder
    sessions of that provider; when no provider in that order can create
    both, it throws the fixed message and leaves no session behind, so that
    the engine is not initialised and still reports its old provider.  The
    caches are untouched either way. *)
Theorem initialize_picks_first_working_provider
        (enc dec : Bytes) (pref : option ExecutionProvider) (c : SAM2Core) :
  let c' := (Core.initialize enc dec pref c).2 in
  imageEmbeddings c' = imageEmbeddings c /\
  highResFeatures c' = highResFeatures c /\
  match (Core.initialize enc dec pref c).1 with
  | inr provider =>
      (exists before after,
          providersTried pref = before ++ provider :: after /\
          Forall (fun ep => sessionsCreatable enc dec ep = false) before) /\
      sessionsCreatable enc dec provider = true /\
      encoderSession c' = Some (mkSession enc provider) /\
      decoderSession c' = Some (mkSession dec provider) /\
      getProvider c' = provider /\
      isInitialized c' = true
  | inl e =>
      e = Error "Failed to create ONNX sessions with any available provider" /\
      Forall (fun ep => sessionsCreatable enc dec ep = false) (providersTried pref) /\
      encoderSession c' = None /\
      decoderSession c' = None /\
      getProvider c' = getProvider c /\
      isInitialized c' = false
  end.
Proof.
  intros c'. subst c'.
  pose proof (core_initialize_spec enc dec pref c) as Hspec.
  destruct (Core.initialize enc dec pref c) as [[e|provider] c'].
  - destruct Hspec as (-> & Hall & ->). cbn. repeat split. exact Hall.
  - destruct Hspec as (before & after & Heq & Hall & Hok & ->). cbn.
    repeat split; eauto.
Qed.

(** With webgpu preferred (the default), a webgpu failure falls back to
    wasm. *)
Example initialize_falls_back_to_wasm :
  let rt' := {| canvas_resample := @canvas_resample Fixtures.tinyRuntime;
                preprocess := @preprocess Fixtures.tinyRuntime;
                session_create := fun _ ep =>
                  match ep with
                  | webgpu => Some "no available backend found"
                  | wasm => None
                  end;
                encoder_run := @encoder_run Fixtures.tinyRuntime;
                decoder_run := @decoder_run Fixtures.tinyRuntime |} in
  (@Core.initialize rt' (mkBytes 2 258) (mkBytes 1 3) None Core.new).1 = inr wasm /\
  (@Core.initialize rt' (mkBytes 2 258) (mkBytes 1 3) (Some webgpu) Core.new).1
  = inr wasm.
Proof. split; reflexivity. Qed.

End SessionCreation.

(** * The worker's cache and life-cycle requests *)
Section WorkerCaches.
Import ImageUtils Core Worker Vocabulary.
Context {rt : Runtime}.

(** Dropping the cache entry of one image does not change what [decode]
    returns for another. *)
Lemma decode_after_clearImageCache (imageId other : string)
      (points : list SAM2Point) (W H : nat) (prev : option (list f32)) (t : Q)
      (c : SAM2Core) :
  other <> imageId ->
  (decode other points W H prev t (clearImageCache imageId c)).1 =
  (decode other points W H prev t c).1.
Proof.
  intros Hne. unfold decode, clearImageCache, buildFeeds.
  cbn [decoderSession ort imageEmbeddings highResFeatures set_caches].
  rewrite !lookup_delete_ne by congruence.
  destruct (decoderSession c) as [session|]; [|reflexivity].
  destruct (ort c); [|reflexivity].
  destruct (imageEmbeddings c !! other) as [embeddings|]; [|reflexivity].
  destruct (decoder_run session _) as [e|results]; reflexivity.
Qed.

(** [decode] for an image without cached embeddings. *)
Lemma decode_without_embeddings (imageId : string) (points : list SAM2Point)
      (W H : nat) (prev : option (list f32)) (t : Q) (c : SAM2Core) (ds : Session) :
  decoderSession c = Some ds ->
  ort c = true ->
  imageEmbeddings c !! imageId = None ->
  decode imageId points W H prev t c =
  (inl (Error ("No embeddings found for image " +:+ imageId +:+
               ". Call encodeImage first.")), c).
Proof.
  intros Hds Hort Hnone. unfold decode. rewrite Hds, Hort, Hnone. reflexivity.
Qed.

(** A [clearCache] request that names an image drops the embeddings of that
    image only: a later [decode] request for it is answered by the error
    "No embeddings found for image ...", tagged [decode], while a [decode]
    request for any other image is answered as before.  A [clearCache]
    request without image id, or with the empty string as id, drops the
    embeddings of every image.  The request is always acknowledged with
    the id it was given, and the sessions stay in place. *)
Theorem clearCache_scope (clk : Clock) (imageId : string) (c : SAM2Core)
        (ds : Session) :
  decoderSession c = Some ds ->
  ort c = true ->
  imageId <> "" ->
  let one := onmessage clk (ReqClearCache (Some imageId)) (Some c) in
  let noId := onmessage clk (ReqClearCache None) (Some c) in
  let emptyId := onmessage clk (ReqClearCache (Some "")) (Some c) in
  let missing := fun id => RespError ("No embeddings found for image " +:+ id +:+
                                      ". Call encodeImage first.") "decode" in
  one.1 = [RespCacheCleared (Some imageId)] /\
  noId.1 = [RespCacheCleared None] /\
  emptyId.1 = [RespCacheCleared (Some "")] /\
  emptyId.2 = noId.2 /\
  (forall w, w = one.2 \/ w = noId.2 ->
             (onmessage clk ReqGetStatus w).1 =
             (onmessage clk ReqGetStatus (Some c)).1) /\
  (forall points W H prev,
      (onmessage clk (ReqDecode imageId points W H prev) one.2).1 =
      [missing imageId]) /\
  (forall other points W H prev,
      other <> imageId ->
      (onmessage clk (ReqDecode other points W H prev) one.2).1 =
      (onmessage clk (ReqDecode other points W H prev) (Some c)).1) /\
  (forall other points W H prev,
      (onmessage clk (ReqDecode other points W H prev) noId.2).1 =
      [missing other]).
Proof.
  intros Hds Hort Hne one noId emptyId missing.
  assert (one = ([RespCacheCleared (Some imageId)], Some (clearImageCache imageId c)))
    as Hone.
  { subst one. unfold onmessage, dispatch, handleClearCache.
    rewrite bool_decide_eq_false_2 by exact Hne. reflexivity. }
  assert (noId = ([RespCacheCleared None], Some (clearAllCaches c))) as HnoId
    by reflexivity.
  assert (emptyId = ([RespCacheCleared (Some "")], Some (clearAllCaches c)))
    as HemptyId by reflexivity.
  rewrite Hone, HnoId, HemptyId. cbn [fst snd].
  split; [reflexivity|]. split; [reflexivity|]. split; [reflexivity|].
  split; [reflexivity|].
  split; [intros w [-> | ->]; reflexivity|].
  split; [|split].
  - intros points W H prev. unfold onmessage, dispatch, handleDecode.
    rewrite (decode_without_embeddings _ _ _ _ _ _ _ ds); try assumption.
    + reflexivity.
    + unfold clearImageCache. cbn. apply lookup_delete_eq.
  - intros other points W H prev Hother. unfold onmessage, dispatch, handleDecode.
    pose proof (decode_after_clearImageCache imageId other points W H prev
                  (decodeElapsed clk) c Hother) as Hsame.
    destruct (decode other points W H prev (decodeElapsed clk)
                     (clearImageCache imageId c)) as [[e|r] c1];
      destruct (decode other points W H prev (decodeElapsed clk) c) as [[e'|r'] c2];
      cbn [fst] in Hsame; inversion Hsame; subst; reflexivity.
  - intros other points W H prev. unfold onmessage, dispatch, handleDecode.
    rewrite (decode_without_embeddings _ _ _ _ _ _ _ ds); try assumption.
    + reflexivity.
    + unfold clearAllCaches. cbn. apply lookup_empty.
Qed.

End WorkerCaches.

(** Witness for [clearCache_scope]: the engine that holds [img_1]. *)
Lemma clearCache_scope_witness :
  let clk := Fixtures.clock in
  let c := Fixtures.encodedCore in
  let one := @Worker.onmessage Fixtures.tinyRuntime clk
               (Worker.ReqClearCache (Some "img_1")) (Some c) in
  let noId := @Worker.onmessage Fixtures.tinyRuntime clk
                (Worker.ReqClearCache None) (Some c) in
  let emptyId := @Worker.onmessage Fixtures.tinyRuntime clk
                   (Worker.ReqClearCache (Some "")) (Some c) in
  let missing := fun id =>
    Worker.RespError ("No embeddings found for image " +:+ id +:+
                      ". Call encodeImage first.") "decode" in
  one.1 = [Worker.RespCacheCleared (Some "img_1")] /\
  noId.1 = [Worker.RespCacheCleared None] /\
  emptyId.1 = [Worker.RespCacheCleared (Some "")] /\
  emptyId.2 = noId.2 /\
  (forall w, w = one.2 \/ w = noId.2 ->
             (@Worker.onmessage Fixtures.tinyRuntime clk Worker.ReqGetStatus w).1 =
             (@Worker.onmessage Fixtures.tinyRuntime clk Worker.ReqGetStatus (Some c)).1) /\
  (forall points W H prev,
      (@Worker.onmessage Fixtures.tinyRuntime clk
         (Worker.ReqDecode "img_1" points W H prev) one.2).1 =
      [missing "img_1"]) /\
  (forall other points W H prev,
      other <> "img_1" ->
      (@Worker.onmessage Fixtures.tinyRuntime clk
         (Worker.ReqDecode other points W H prev) one.2).1 =
      (@Worker.onmessage Fixtures.tinyRuntime clk
         (Worker.ReqDecode other points W H prev) (Some c)).1) /\
  (forall other points W H prev,
      (@Worker.onmessage Fixtures.tinyRuntime clk
         (Worker.ReqDecode other points W H prev) noId.2).1 =
      [missing other]).
Proof.
  apply (clearCache_scope (rt := Fixtures.tinyRuntime) Fixtures.clock "img_1"
           Fixtures.encodedCore (mkSession (mkBytes 1 3) webgpu));
    [reflexivity|reflexivity|discriminate].
Defined.

(** * The worker's view of its engine *)
Section WorkerStatus.
Import Core Worker Vocabulary.
Context {rt : Runtime}.

(** A [getStatus] request never changes the worker.  Before any
    [initialize] request, and after a [dispose] request, it reports
    [initialized: false] and no provider.  After an [initialize] request
    that was answered by [initialized], it reports [initialized: true] and
    the provider of that answer, on which both sessions could be created.
    After an [initialize] request that failed, the answer is an [error]
    tagged [initialize], and [getStatus] reports [initialized: false]
    together with the provider [wasm], the initial value of the engine that
    was created for the failed attempt. *)
Theorem getStatus_reflects_initialize (clk : Clock) (enc dec : Bytes)
        (options : option SAM2Options) (w : WorkerState) :
  let started := onmessage clk (ReqInitialize enc dec options) w in
  (forall w0, (onmessage clk ReqGetStatus w0).2 = w0) /\
  (onmessage clk ReqGetStatus None).1 = [RespStatus false None] /\
  (onmessage clk ReqGetStatus (onmessage clk ReqDispose w).2).1 =
    [RespStatus false None] /\
  ((exists provider,
       started.1 = [RespInitialized provider] /\
       sessionsCreatable enc dec provider = true /\
       (onmessage clk ReqGetStatus started.2).1 =
         [RespStatus true (Some provider)]) \/
   (started.1 =
      [RespError "Failed to create ONNX sessions with any available provider"
                 "initialize"] /\
    (onmessage clk ReqGetStatus started.2).1 = [RespStatus false (Some wasm)])).
Proof.
  intros started.
  split; [intros w0; reflexivity|].
  split; [reflexivity|]. split; [reflexivity|].
  subst started. unfold onmessage at 1 3 4 6. unfold dispatch, handleInitialize.
  pose proof (core_initialize_spec enc dec (options ≫= preferredProvider) Core.new)
    as Hspec.
  destruct (Core.initialize enc dec (options ≫= preferredProvider) Core.new)
    as [[e|provider] c'].
  - destruct Hspec as (-> & _ & ->). right. split; reflexivity.
  - destruct Hspec as (before & after & _ & _ & Hok & ->). left.
    exists provider. repeat split. exact Hok.
Qed.

(** After a [dispose] request the worker holds no engine: it answers
    [disposed], and then refuses every [encode], [decode], [segment] and
    [clearCache] request with the error "SAM2 not initialized" tagged with
    the type of the request; a further [dispose] is answered by [disposed]
    again; an [initialize] request is handled exactly as it would have been
    before the [dispose].  Every [initialize] request, after a [dispose] or
    not, replaces the engine: when it succeeds, nothing that was encoded
    before is left, so that a [decode] request for any image is answered by
    the error "No embeddings found for image ...", and the encoder run of
    an image that the new engine encodes is the first one it makes. *)
Theorem disposed_worker_refuses_work (clk : Clock) (w : WorkerState)
        (message : WorkerRequestMessage) :
  onmessage clk ReqDispose w = ([RespDisposed], None) /\
  match message with
  | ReqInitialize enc dec options =>
      onmessage clk message None = onmessage clk message w /\
      forall provider,
        (onmessage clk message w).1 = [RespInitialized provider] ->
        exists core,
          (onmessage clk message w).2 = Some core /\
          encoderRuns core = [] /\
          decoderRuns core = [] /\
          (forall imageId points W H prev,
              onmessage clk (ReqDecode imageId points W H prev) (Some core) =
              ([RespError ("No embeddings found for image " +:+ imageId +:+
                           ". Call encodeImage first.") "decode"], Some core)) /\
          (forall imageId imageData width height es results,
              encoderSession core = Some es ->
              encoder_run es (preprocess imageData width height) = inr results ->
              encoderRuns
                (encodeImage imageId imageData width height (encodeElapsed clk)
                             core).2 = [preprocess imageData width height])
  | ReqDispose => onmessage clk message None = ([RespDisposed], None)
  | ReqGetStatus => onmessage clk message None = ([RespStatus false None], None)
  | ReqUnknown _ =>
      onmessage clk message None =
      ([RespError "Unknown message type" "unknown"], None)
  | ReqEncode _ _ _ _ | ReqDecode _ _ _ _ _ | ReqSegment _ _ _ _ _ _
  | ReqClearCache _ =>
      onmessage clk message None =
      ([RespError "SAM2 not initialized" (request_type message)], None)
  end.
Proof.
  split; [reflexivity|]. destruct message; try reflexivity.
  split; [reflexivity|].
  intros provider. unfold onmessage at 1 2. unfold dispatch, handleInitialize.
  pose proof (core_initialize_spec encoderData decoderData
                (options ≫= preferredProvider) Core.new) as Hspec.
  destruct (Core.initialize encoderData decoderData
              (options ≫= preferredProvider) Core.new) as [[e|provider'] core];
    cbn [fst snd]; [discriminate|].
  intros _. destruct Hspec as (before & after & _ & _ & _ & ->).
  eexists. split; [reflexivity|]. split; [reflexivity|]. split; [reflexivity|].
  split.
  - intros imageId points W H prev. reflexivity.
  - intros imageId imageData width height es results Hes Hrun.
    unfold encodeImage. rewrite Hes.
    cbn [encoderSession ort set_currentProvider set_sessions set_loaded
         imageEmbeddings Core.new].
    rewrite bool_decide_eq_false_2
      by (rewrite lookup_empty; intros [x Hx]; discriminate).
    rewrite Hrun. reflexivity.
Qed.

End WorkerStatus.

(** * Sessions of the provider *)
Section ProviderSessions.
Import ImageUtils Core Worker ModelLoader Provider Vocabulary.
Context {rt : Runtime}.

(** [encodeImage] on an image that is not in the cache, when the encoder
    emits an embedding: the encoder runs once and the embedding is stored. *)
Lemma encodeImage_uncached (imageId : string) (imageData : list N) (w h : nat)
      (elapsed : Q) (c : SAM2Core) (es : Session) (results : EncoderResults)
      (t : Tensor) :
  ort c = true ->
  encoderSession c = Some es ->
  imageEmbeddings c !! imageId = None ->
  encoder_run es (preprocess imageData w h) = inr results ->
  er_image_embed results = Some t ->
  exists c1,
    encodeImage imageId imageData w h elapsed c = (inr elapsed, c1) /\
    ort c1 = true /\
    encoderSession c1 = Some es /\
    decoderSession c1 = decoderSession c /\
    imageEmbeddings c1 = <[imageId := t]> (imageEmbeddings c) /\
    encoderRuns c1 = encoderRuns c ++ [preprocess imageData w h] /\
    decoderRuns c1 = decoderRuns c.
Proof.
  intros Hort Hes Hnone Hrun Hembed. unfold encodeImage.
  rewrite Hes, Hort.
  rewrite bool_decide_eq_false_2 by (rewrite Hnone; intros [x Hx]; discriminate).
  rewrite Hrun, Hembed. eexists. split; [reflexivity|].
  cbn. repeat split; assumption.
Qed.

(** [segment] on an image that is not in the cache: encoder, then decoder. *)
Lemma segment_uncached (imageId : string) (imageData : list N) (w h : nat)
      (points : list SAM2Point) (prev : option (list f32)) (et dt : Q)
      (c : SAM2Core) (es ds : Session) (results : EncoderResults) (t : Tensor) :
  ort c = true ->
  encoderSession c = Some es ->
  decoderSession c = Some ds ->
  imageEmbeddings c !! imageId = None ->
  encoder_run es (preprocess imageData w h) = inr results ->
  er_image_embed results = Some t ->
  exists c1 feeds,
    (segment imageId imageData w h points prev et dt c).2 = log_decoder_run feeds c1 /\
    ort c1 = true /\
    encoderSession c1 = Some es /\
    decoderSession c1 = Some ds /\
    imageEmbeddings c1 = <[imageId := t]> (imageEmbeddings c) /\
    encoderRuns c1 = encoderRuns c ++ [preprocess imageData w h] /\
    decoderRuns c1 = decoderRuns c /\
    feeds = buildFeeds c1 imageId t points w h prev /\
    (segment imageId imageData w h points prev et dt c).1 =
    match decoder_run ds feeds with
    | inl e => inl e
    | inr dres =>
        match postprocess dres w h dt with
        | inl e => inl e
        | inr r =>
            inr {| r_mask := r_mask r; r_width := r_width r;
                   r_height := r_height r; r_logits := r_logits r;
                   r_allMasks := r_allMasks r;
                   r_selectedMaskIndex := r_selectedMaskIndex r;
                   r_timing := {| tm_encode := Some et;
                                  tm_decode := tm_decode (r_timing r);
                                  tm_total := (et + tm_decode (r_timing r))%Q |} |}
        end
    end.
Proof.
  intros Hort Hes Hds Hnone Hrun Hembed.
  destruct (encodeImage_uncached imageId imageData w h et c es results t
              Hort Hes Hnone Hrun Hembed)
    as (c1 & Henc & Hort1 & Hes1 & Hds1 & Hemb1 & Hruns1 & Hdruns1).
  exists c1, (buildFeeds c1 imageId t points w h prev).
  unfold segment. rewrite Henc. unfold decode.
  rewrite Hds1, Hds, Hort1, Hemb1, lookup_insert_eq.
  destruct (decoder_run ds _) as [e|dres].
  - cbn [fst snd]. repeat split; assumption.
  - destruct (postprocess dres w h dt) as [e|r];
      cbn [fst snd]; repeat split; assumption.
Qed.

(** One [segmentSingleView] on a ready provider that has a session and no
    request outstanding: the [segment] request it posts, and what it does
    with the worker's answer. *)
Lemma segmentSingleView_sends (env : InitEnv) (clk : Clock)
      (req : SegmentationRequest) (p : WebGPUProvider) (imageId : string)
      (w : WorkerState) :
  state p = ready ->
  pendingRequests p = [] ->
  worker p = Some w ->
  currentImageId p = Some imageId ->
  let message := ReqSegment imageId (image req) (width req) (height req)
                            (points req) (previousMaskLogits p !! imageId) in
  let run := segmentSingleView env clk req p in
  worker run.2 = Some (dispatch clk message w).2 /\
  state run.2 = ready /\
  pendingRequests run.2 = [] /\
  currentImageId run.2 = Some imageId /\
  imageIdCounter run.2 = imageIdCounter p /\
  statusLog run.2 = statusLog p ++ [processing; ready] /\
  match (dispatch clk message w).1 with
  | inl e =>
      run.1 = Rejected (workerFailure e message) /\
      previousMaskLogits run.2 = previousMaskLogits p
  | inr response =>
      previousMaskLogits run.2 =
      match payloadOf response ≫= p_logits with
      | Some logits =>
          <[imageId := extractBestMaskLogits logits]> (previousMaskLogits p)
      | None => previousMaskLogits p
      end
  end.
Proof.
  intros Hstate Hpending Hworker Hid message run. subst run message.
  unfold segmentSingleView, ensureReady. rewrite Hstate.
  unfold ensureImageId.
  cbn [currentImageId previousMaskLogits setState]. rewrite Hid.
  cbn [currentImageId previousMaskLogits setState].
  rewrite copy_points.
  rewrite (sendWorkerMessage_quiet _ _ _ w) by (cbn; assumption).
  destruct (dispatch clk _ w) as [[e|response] w'] eqn:Hd; cbn [fst snd].
  - cbn. rewrite <- app_assoc. repeat split; assumption.
  - destruct (dispatch_response _ _ _ _ _ Hd) as [Hs|(ty & Hm & _)];
      [|discriminate Hm].
    rewrite Hs.
    destruct (payloadOf response ≫= p_logits) as [logits|];
      cbn -[extractBestMaskLogits]; rewrite <- app_assoc;
      repeat split; assumption.
Qed.

(** Once the image of the current session is encoded, [segmentSingleView]
    does not look at the pixels it is given: two requests that differ only
    in their [image] have the same outcome and leave the provider in the
    same state, and the encoder is not run.  A caller that changes the
    image without calling [startNewSession] gets masks of the image that
    was encoded first. *)
Theorem session_image_is_ignored (env : InitEnv) (clk : Clock)
        (req req' : SegmentationRequest) (p : WebGPUProvider) (imageId : string)
        (core : SAM2Core) (ds : Session) (emb : Tensor) :
  ready_for p imageId core ds emb ->
  points req' = points req ->
  width req' = width req ->
  height req' = height req ->
  segmentSingleView env clk req' p = segmentSingleView env clk req p /\
  exists core',
    worker (segmentSingleView env clk req p).2 = Some (Some core') /\
    encoderRuns core' = encoderRuns core /\
    imageEmbeddings core' = imageEmbeddings core.
Proof.
  intros Hready Hpoints Hwidth Hheight.
  split.
  - destruct Hready as (Hstate & Hworker & Hpending & Hid & Hort & Hes & Hds & Hemb).
    unfold segmentSingleView, ensureReady. rewrite Hstate.
    unfold ensureImageId.
    cbn [currentImageId previousMaskLogits setState]. rewrite Hid.
    cbn [currentImageId previousMaskLogits setState].
    rewrite Hpoints, Hwidth, Hheight.
    rewrite !(sendWorkerMessage_quiet _ _ _ (Some core)) by (cbn; assumption).
    cbn [dispatch handleSegment].
    rewrite !(segment_cached _ _ _ _ _ _ _ _ _ ds emb) by assumption.
    destruct (decoder_run ds _) as [e|results]; [reflexivity|].
    destruct (postprocess results (width req) (height req) (decodeElapsed clk))
      as [e|r]; reflexivity.
  - pose proof (segmentSingleView_ready env clk req p imageId core ds emb Hready)
      as [(_ & Hworker1 & _) _].
    eexists. split; [exact Hworker1|]. split; reflexivity.
Qed.

(** Session ids are ["img_" ++ n] for the value [n] of a counter that
    only grows, so two sessions never share an id. *)
Lemma freshImageId_inj (p q : WebGPUProvider) :
  freshImageId p = freshImageId q -> imageIdCounter p = imageIdCounter q.
Proof.
  unfold freshImageId. intros Heq.
  apply (inj (String.app "img_")) in Heq.
  apply (inj pretty) in Heq. lia.
Qed.

(** [startNewSession] gives the provider a session id that differs from
    the id issued at any smaller value of the session counter, and forgets
    every stored previous mask.  On a ready
    provider whose engine never saw the new id, the next [segmentSingleView]
    therefore runs the encoder on the image of the request and then the
    decoder on the new embedding with a zero [mask_input] and
    [has_mask_input] = 0.0, whatever was stored for earlier sessions. *)
Theorem startNewSession_starts_afresh (env : InitEnv) (clk : Clock)
        (req : SegmentationRequest) (p : WebGPUProvider) (core : SAM2Core)
        (es ds : Session) (results : EncoderResults) (t : Tensor) :
  state p = ready ->
  pendingRequests p = [] ->
  worker p = Some (Some core) ->
  ort core = true ->
  encoderSession core = Some es ->
  decoderSession core = Some ds ->
  imageEmbeddings core !! freshImageId p = None ->
  encoder_run es (preprocess (image req) (width req) (height req)) = inr results ->
  er_image_embed results = Some t ->
  let p1 := startNewSession p in
  let run := segmentSingleView env clk req p1 in
  currentImageId p1 = Some (freshImageId p) /\
  imageIdCounter p1 = S (imageIdCounter p) /\
  (forall q, imageIdCounter q < imageIdCounter p ->
             currentImageId p1 <> Some (freshImageId q)) /\
  previousMaskLogits p1 = ∅ /\
  exists core' feeds,
    worker run.2 = Some (Some core') /\
    encoderRuns core' =
      encoderRuns core ++ [preprocess (image req) (width req) (height req)] /\
    decoderRuns core' = decoderRuns core ++ [feeds] /\
    image_embed feeds = t /\
    t_data (mask_input feeds) = repeat (Fin 0) (256 * 256) /\
    t_data (has_mask_input feeds) = [Fin 0].
Proof.
  intros Hstate Hpending Hworker Hort Hes Hds Hnone Hrun Hembed p1 run.
  split; [reflexivity|]. split; [reflexivity|].
  split.
  { intros q Hlt Heq.
    change (Some (freshImageId p) = Some (freshImageId q)) in Heq.
    apply (inj Some) in Heq. apply freshImageId_inj in Heq. lia. }
  split; [reflexivity|].
  pose proof (segmentSingleView_sends env clk req p1 (freshImageId p) (Some core))
    as Hsend.
  destruct Hsend as (Hw & _); try assumption; try reflexivity.
  fold run in Hw.
  change (previousMaskLogits p1 !! freshImageId p)
    with ((∅ : gmap string (list f32)) !! freshImageId p) in Hw.
  rewrite lookup_empty in Hw.
  cbn [dispatch handleSegment] in Hw.
  destruct (segment_uncached (freshImageId p) (image req) (width req) (height req)
              (points req) None (encodeElapsed clk) (decodeElapsed clk)
              core es ds results t Hort Hes Hds Hnone Hrun Hembed)
    as (c1 & feeds & Hstate2 & _ & _ & _ & _ & Hruns & Hdruns & Hfeeds & _).
  destruct (segment (freshImageId p) (image req) (width req) (height req)
                    (points req) None (encodeElapsed clk) (decodeElapsed clk) core)
    as [[e|r] c2]; cbn [fst snd] in Hstate2, Hw; subst c2;
    (exists (log_decoder_run feeds c1), feeds;
     split; [exact Hw|];
     split; [exact Hruns|];
     split; [cbn; rewrite Hdruns; reflexivity|];
     subst feeds; repeat split).
Qed.

(** [clearPreviousMask] forgets the previous mask of the current session
    and of no other; without a session it does nothing.  The next
    [segmentSingleView] of the session then runs the decoder with a zero
    [mask_input] and [has_mask_input] = 0.0, and does not run the encoder
    again. *)
Theorem clearPreviousMask_resets_refinement (env : InitEnv) (clk : Clock)
        (req : SegmentationRequest) (p : WebGPUProvider) (imageId : string)
        (core : SAM2Core) (ds : Session) (emb : Tensor) :
  ready_for p imageId core ds emb ->
  let p1 := clearPreviousMask p in
  let run := segmentSingleView env clk req p1 in
  previousMaskLogits p1 !! imageId = None /\
  (forall other, other <> imageId ->
                 previousMaskLogits p1 !! other = previousMaskLogits p !! other) /\
  currentImageId p1 = Some imageId /\
  (forall q, currentImageId q = None -> clearPreviousMask q = q) /\
  exists core' feeds,
    worker run.2 = Some (Some core') /\
    encoderRuns core' = encoderRuns core /\
    decoderRuns core' = decoderRuns core ++ [feeds] /\
    image_embed feeds = emb /\
    t_data (mask_input feeds) = repeat (Fin 0) (256 * 256) /\
    t_data (has_mask_input feeds) = [Fin 0].
Proof.
  intros Hready p1 run.
  pose proof Hready as (Hstate & Hworker & Hpending & Hid & Hort & Hes & Hds & Hemb).
  assert (p1 = set_session (imageIdCounter p) (delete imageId (previousMaskLogits p))
                           (currentImageId p) p) as Hp1
    by (subst p1; unfold clearPreviousMask; rewrite Hid; reflexivity).
  assert (previousMaskLogits p1 !! imageId = None) as Hnone
    by (rewrite Hp1; cbn; apply lookup_delete_eq).
  split; [exact Hnone|].
  split.
  { intros other Hne. rewrite Hp1. cbn. apply lookup_delete_ne. congruence. }
  split; [rewrite Hp1; exact Hid|].
  split.
  { intros q Hq. unfold clearPreviousMask. rewrite Hq. reflexivity. }
  assert (ready_for p1 imageId core ds emb) as Hready1.
  { rewrite Hp1. unfold ready_for. cbn. repeat split; assumption. }
  pose proof (segmentSingleView_ready env clk req p1 imageId core ds emb Hready1)
    as [(_ & Hworker1 & _) _].
  fold run in Hworker1. rewrite Hnone in Hworker1.
  eexists _, _. split; [exact Hworker1|]. repeat split.
Qed.

(** [segment] on a cached image leaves the encoder alone, whatever the
    decoder does. *)
Lemma segment_cached_keeps_encoder (imageId : string) (imageData : list N)
      (w h : nat) (points : list SAM2Point) (prev : option (list f32))
      (et dt : Q) (c : SAM2Core) :
  ort c = true ->
  is_Some (encoderSession c) ->
  is_Some (imageEmbeddings c !! imageId) ->
  let c' := (segment imageId imageData w h points prev et dt c).2 in
  encoderRuns c' = encoderRuns c /\
  imageEmbeddings c' = imageEmbeddings c /\
  ort c' = true /\
  encoderSession c' = encoderSession c.
Proof.
  intros Hort Hes Hemb. unfold segment.
  rewrite encodeImage_cached by assumption.
  unfold decode.
  destruct (decoderSession c) as [ds|]; [|repeat split; assumption].
  rewrite Hort.
  destruct (imageEmbeddings c !! imageId) as [emb|]; [|repeat split; assumption].
  destruct (decoder_run ds _) as [e|results]; [repeat split; assumption|].
  destruct (postprocess results w h dt) as [e|r]; repeat split; assumption.
Qed.

(** One [preEncodeImage] on a ready provider with no request outstanding:
    the [encode] request it posts and what it returns. *)
Lemma preEncodeImage_sends (env : InitEnv) (clk : Clock) (imageData : list N)
      (w h : nat) (p : WebGPUProvider) (ws : WorkerState) :
  state p = ready ->
  pendingRequests p = [] ->
  worker p = Some ws ->
  let imageId := (ensureImageId p).1 in
  let message := ReqEncode imageId imageData w h in
  let warm := preEncodeImage env clk imageData w h p in
  worker warm.2 = Some (dispatch clk message ws).2 /\
  state warm.2 = ready /\
  pendingRequests warm.2 = [] /\
  currentImageId warm.2 = Some imageId /\
  statusLog warm.2 = statusLog p /\
  previousMaskLogits warm.2 = previousMaskLogits p /\
  warm.1 = match (dispatch clk message ws).1 with
           | inl e => Rejected (workerFailure e message)
           | inr (RespEncoded _ encodeTime) => Fulfilled (Some encodeTime)
           | inr _ => Fulfilled None
           end.
Proof.
  intros Hstate Hpending Hworker imageId message warm. subst warm message imageId.
  unfold preEncodeImage, ensureReady. rewrite Hstate.
  pose proof (ensureImageId_quiet p) as Hq.
  pose proof (ensureImageId_current p) as Hcur.
  assert (worker (ensureImageId p).2 = Some ws /\
          state (ensureImageId p).2 = ready /\
          statusLog (ensureImageId p).2 = statusLog p /\
          previousMaskLogits (ensureImageId p).2 = previousMaskLogits p)
    as (Hw1 & Hs1 & Hl1 & Hm1).
  { unfold ensureImageId. destruct (currentImageId p); repeat split; assumption. }
  destruct (ensureImageId p) as [imageId p1]. cbn [fst snd] in *.
  rewrite Hpending in Hq.
  rewrite (sendWorkerMessage_quiet _ _ _ ws) by assumption.
  destruct (dispatch clk (ReqEncode imageId imageData w h) ws)
    as [[e|response] ws'] eqn:Hd; cbn [fst snd].
  - cbn. repeat split; assumption.
  - destruct (dispatch_response _ _ _ _ _ Hd) as [Hs|(ty & Hm & _)];
      [|discriminate Hm].
    rewrite Hs. destruct response; cbn; repeat split; assumption.
Qed.

(** [preEncodeImage] on a ready provider runs the encoder on the image,
    without announcing any state change and without touching the stored
    previous masks; it creates a session id when there is none.  When the
    encoder emitted an embedding, the session is warm: a further
    [preEncodeImage] reports 0 ms, and a [segmentSingleView] of the session
    does not run the encoder again, whatever image it is given. *)
Theorem preEncodeImage_warms_the_session (env : InitEnv) (clk : Clock)
        (imageData : list N) (w h : nat) (p : WebGPUProvider) (core : SAM2Core)
        (es : Session) (results : EncoderResults) (t : Tensor) :
  state p = ready ->
  pendingRequests p = [] ->
  worker p = Some (Some core) ->
  ort core = true ->
  encoderSession core = Some es ->
  imageEmbeddings core !! (ensureImageId p).1 = None ->
  encoder_run es (preprocess imageData w h) = inr results ->
  er_image_embed results = Some t ->
  let warm := preEncodeImage env clk imageData w h p in
  warm.1 = Fulfilled (Some (encodeElapsed clk)) /\
  state warm.2 = ready /\
  statusLog warm.2 = statusLog p /\
  previousMaskLogits warm.2 = previousMaskLogits p /\
  currentImageId warm.2 = Some (ensureImageId p).1 /\
  exists core1,
    worker warm.2 = Some (Some core1) /\
    encoderRuns core1 = encoderRuns core ++ [preprocess imageData w h] /\
    decoderRuns core1 = decoderRuns core /\
    (forall env' clk' imageData' w' h',
        (preEncodeImage env' clk' imageData' w' h' warm.2).1 = Fulfilled (Some 0%Q)) /\
    (forall env' clk' req,
        exists core2,
          worker (segmentSingleView env' clk' req warm.2).2 = Some (Some core2) /\
          encoderRuns core2 = encoderRuns core1).
Proof.
  intros Hstate Hpending Hworker Hort Hes Hnone Hrun Hembed warm.
  destruct (preEncodeImage_sends env clk imageData w h p (Some core)
              Hstate Hpending Hworker)
    as (Hw & Hs & Hp & Hid & Hlog & Hmasks & Hout).
  fold warm in Hw, Hs, Hp, Hid, Hlog, Hmasks, Hout.
  cbn [dispatch handleEncode] in Hw, Hout.
  destruct (encodeImage_uncached (ensureImageId p).1 imageData w h
              (encodeElapsed clk) core es results t Hort Hes Hnone Hrun Hembed)
    as (c1 & Henc & Hort1 & Hes1 & _ & Hemb1 & Hruns1 & Hdruns1).
  rewrite Henc in Hw, Hout. cbn [fst snd] in Hw, Hout.
  split; [exact Hout|]. split; [exact Hs|]. split; [exact Hlog|].
  split; [exact Hmasks|]. split; [exact Hid|].
  exists c1. split; [exact Hw|]. split; [exact Hruns1|]. split; [exact Hdruns1|].
  assert (is_Some (imageEmbeddings c1 !! (ensureImageId p).1)) as Hcached
    by (rewrite Hemb1, lookup_insert_eq; eexists; reflexivity).
  assert ((ensureImageId warm.2).1 = (ensureImageId p).1) as Hsame
    by (unfold ensureImageId at 1; rewrite Hid; reflexivity).
  split.
  - intros env' clk' imageData' w' h'.
    destruct (preEncodeImage_sends env' clk' imageData' w' h' warm.2 (Some c1)
                Hs Hp Hw) as (_ & _ & _ & _ & _ & _ & Hout2).
    rewrite Hout2, Hsame. cbn [dispatch handleEncode].
    rewrite encodeImage_cached; try assumption; [reflexivity|].
    rewrite Hes1. eexists; reflexivity.
  - intros env' clk' req.
    destruct (segmentSingleView_sends env' clk' req warm.2 (ensureImageId p).1
                (Some c1) Hs Hp Hw Hid) as (Hw2 & _).
    cbn [dispatch handleSegment] in Hw2.
    destruct (segment_cached_keeps_encoder (ensureImageId p).1 (image req)
                (width req) (height req) (points req)
                (previousMaskLogits warm.2 !! (ensureImageId p).1)
                (encodeElapsed clk') (decodeElapsed clk') c1)
      as (Hruns2 & _); try assumption.
    { rewrite Hes1. eexists; reflexivity. }
    destruct (segment _ _ _ _ _ _ _ _ c1) as [[e|r] c2];
      cbn [fst snd] in Hw2, Hruns2; exists c2; split; assumption.
Qed.

End ProviderSessions.

(** Witness for [session_image_is_ignored]: two requests in session
    [img_1] with different pixels. *)
Lemma session_image_is_ignored_witness :
  let req := Fixtures.firstRequest in
  let req' := {| Provider.image := [9; 9; 9; 255; 7; 7; 7; 255]%N;
                 Provider.width := 2; Provider.height := 1;
                 Provider.points := Fixtures.onePoint |} in
  @Provider.segmentSingleView Fixtures.tinyRuntime Fixtures.goodEnv Fixtures.clock
     req' Fixtures.readyProvider =
  @Provider.segmentSingleView Fixtures.tinyRuntime Fixtures.goodEnv Fixtures.clock
     req Fixtures.readyProvider /\
  exists core',
    Provider.worker
      (@Provider.segmentSingleView Fixtures.tinyRuntime Fixtures.goodEnv
         Fixtures.clock req Fixtures.readyProvider).2 = Some (Some core') /\
    Core.encoderRuns core' = Core.encoderRuns Fixtures.encodedCore /\
    Core.imageEmbeddings core' = Core.imageEmbeddings Fixtures.encodedCore.
Proof.
  apply (session_image_is_ignored (rt := Fixtures.tinyRuntime)
           Fixtures.goodEnv Fixtures.clock Fixtures.firstRequest
           {| Provider.image := [9; 9; 9; 255; 7; 7; 7; 255]%N;
              Provider.width := 2; Provider.height := 1;
              Provider.points := Fixtures.onePoint |}
           Fixtures.readyProvider "img_1" Fixtures.encodedCore
           (mkSession (mkBytes 1 3) webgpu) (mkTensor [Fin 1] [1]));
    try reflexivity.
  unfold Vocabulary.ready_for. repeat split; try reflexivity.
  eexists; reflexivity.
Defined.

(** Witness for [startNewSession_starts_afresh]: a second session on the
    provider that holds a previous mask for session [img_1]. *)
Lemma startNewSession_starts_afresh_witness :
  let p := Fixtures.refinedProvider in
  let req := Fixtures.firstRequest in
  let p1 := Provider.startNewSession p in
  let run := @Provider.segmentSingleView Fixtures.tinyRuntime Fixtures.goodEnv
               Fixtures.clock req p1 in
  Provider.currentImageId p1 = Some "img_2" /\
  Provider.imageIdCounter p1 = 2 /\
  (forall q, Provider.imageIdCounter q < 1 ->
             Provider.currentImageId p1 <> Some (Provider.freshImageId q)) /\
  Provider.previousMaskLogits p1 = ∅ /\
  exists core' feeds,
    Provider.worker run.2 = Some (Some core') /\
    Core.encoderRuns core' =
      Core.encoderRuns Fixtures.encodedCore ++
      [@preprocess Fixtures.tinyRuntime Fixtures.twoPixels 2 1] /\
    Core.decoderRuns core' = Core.decoderRuns Fixtures.encodedCore ++ [feeds] /\
    image_embed feeds = mkTensor [Fin 1] [1] /\
    t_data (mask_input feeds) = repeat (Fin 0) (256 * 256) /\
    t_data (has_mask_input feeds) = [Fin 0].
Proof.
  apply (startNewSession_starts_afresh (rt := Fixtures.tinyRuntime)
           Fixtures.goodEnv Fixtures.clock Fixtures.firstRequest
           Fixtures.refinedProvider Fixtures.encodedCore
           (mkSession (mkBytes 2 258) webgpu) (mkSession (mkBytes 1 3) webgpu)
           {| er_image_embed := Some (mkTensor [Fin 1] [1]);
              er_high_res_feats_0 := None;
              er_high_res_feats_1 := None |}
           (mkTensor [Fin 1] [1]));
    reflexivity.
Defined.

(** Witness for [clearPreviousMask_resets_refinement]: session [img_1],
    for which a previous mask is stored. *)
Lemma clearPreviousMask_resets_refinement_witness :
  let p := Fixtures.refinedProvider in
  let p1 := Provider.clearPreviousMask p in
  let run := @Provider.segmentSingleView Fixtures.tinyRuntime Fixtures.goodEnv
               Fixtures.clock Fixtures.firstRequest p1 in
  Provider.previousMaskLogits p1 !! "img_1" = None /\
  (forall other, other <> "img_1" ->
                 Provider.previousMaskLogits p1 !! other =
                 Provider.previousMaskLogits p !! other) /\
  Provider.currentImageId p1 = Some "img_1" /\
  (forall q, Provider.currentImageId q = None -> Provider.clearPreviousMask q = q) /\
  exists core' feeds,
    Provider.worker run.2 = Some (Some core') /\
    Core.encoderRuns core' = Core.encoderRuns Fixtures.encodedCore /\
    Core.decoderRuns core' = Core.decoderRuns Fixtures.encodedCore ++ [feeds] /\
    image_embed feeds = mkTensor [Fin 1] [1] /\
    t_data (mask_input feeds) = repeat (Fin 0) (256 * 256) /\
    t_data (has_mask_input feeds) = [Fin 0].
Proof.
  apply (clearPreviousMask_resets_refinement (rt := Fixtures.tinyRuntime)
           Fixtures.goodEnv Fixtures.clock Fixtures.firstRequest
           Fixtures.refinedProvider "img_1" Fixtures.encodedCore
           (mkSession (mkBytes 1 3) webgpu) (mkTensor [Fin 1] [1])).
  unfold Vocabulary.ready_for. repeat split; try reflexivity.
  eexists; reflexivity.
Defined.

(** Witness for [preEncodeImage_warms_the_session]: the first image on a
    provider that has no session yet. *)
Lemma preEncodeImage_warms_the_session_witness :
  let p := Fixtures.coldProvider in
  let warm := @Provider.preEncodeImage Fixtures.tinyRuntime Fixtures.goodEnv
                Fixtures.clock Fixtures.twoPixels 2 1 p in
  warm.1 = Fulfilled (Some 120%Q) /\
  Provider.state warm.2 = Provider.ready /\
  Provider.statusLog warm.2 = Provider.statusLog p /\
  Provider.previousMaskLogits warm.2 = Provider.previousMaskLogits p /\
  Provider.currentImageId warm.2 = Some "img_1" /\
  exists core1,
    Provider.worker warm.2 = Some (Some core1) /\
    Core.encoderRuns core1 =
      Core.encoderRuns Fixtures.initializedCore ++
      [@preprocess Fixtures.tinyRuntime Fixtures.twoPixels 2 1] /\
    Core.decoderRuns core1 = Core.decoderRuns Fixtures.initializedCore /\
    (forall env' clk' imageData' w' h',
        (@Provider.preEncodeImage Fixtures.tinyRuntime env' clk' imageData' w' h'
           warm.2).1 = Fulfilled (Some 0%Q)) /\
    (forall env' clk' req,
        exists core2,
          Provider.worker
            (@Provider.segmentSingleView Fixtures.tinyRuntime env' clk' req warm.2).2
          = Some (Some core2) /\
          Core.encoderRuns core2 = Core.encoderRuns core1).
Proof.
  apply (preEncodeImage_warms_the_session (rt := Fixtures.tinyRuntime)
           Fixtures.goodEnv Fixtures.clock Fixtures.twoPixels 2 1
           Fixtures.coldProvider Fixtures.initializedCore
           (mkSession (mkBytes 2 258) webgpu)
           {| er_image_embed := Some (mkTensor [Fin 1] [1]);
              er_high_res_feats_0 := None;
              er_high_res_feats_1 := None |}
           (mkTensor [Fin 1] [1]));
    reflexivity.
Defined.

(** * What holds between calls *)
Section Reachable.
Import ImageUtils Core Worker ModelLoader Provider Vocabulary.
Context {rt : Runtime}.

(** Sizes such as [256 * 256] are kept as products. *)
Local Arguments Nat.mul : simpl never.

Lemma encodeImage_effect (imageId : string) (imageData : list N) (w h : nat)
      (elapsed : Q) (c : SAM2Core) :
  let c' := (encodeImage imageId imageData w h elapsed c).2 in
  ort c' = ort c /\
  encoderSession c' = encoderSession c /\
  decoderSession c' = decoderSession c /\
  decoderRuns c' = decoderRuns c /\
  (forall k, is_Some (imageEmbeddings c' !! k) ->
             k = imageId \/ is_Some (imageEmbeddings c !! k)).
Proof.
  unfold encodeImage.
  destruct (encoderSession c) as [es|] eqn:Hes; [|cbn; repeat split; auto].
  destruct (ort c) eqn:Hort; [|cbn; repeat split; auto].
  destruct (bool_decide (is_Some (imageEmbeddings c !! imageId)));
    [cbn; repeat split; auto|].
  destruct (encoder_run es (preprocess imageData w h)) as [e|results];
    [cbn; repeat split; auto|].
  cbn. repeat split; try assumption.
  intros k Hk. destruct (er_image_embed results) as [t|]; [|auto].
  destruct (decide (k = imageId)) as [->|Hne]; [auto|].
  rewrite lookup_insert_ne in Hk by congruence. auto.
Qed.

Lemma decode_effect (imageId : string) (points : list SAM2Point) (W H : nat)
      (prev : option (list f32)) (t : Q) (c : SAM2Core) :
  let c' := (decode imageId points W H prev t c).2 in
  ort c' = ort c /\
  encoderSession c' = encoderSession c /\
  decoderSession c' = decoderSession c /\
  imageEmbeddings c' = imageEmbeddings c /\
  (decoderRuns c' = decoderRuns c \/
   exists emb, decoderRuns c' =
               decoderRuns c ++ [buildFeeds c imageId emb points W H prev]).
Proof.
  unfold decode.
  destruct (decoderSession c) as [ds|] eqn:Hds; [|cbn; repeat split; auto].
  destruct (ort c) eqn:Hort; [|cbn; repeat split; auto].
  destruct (imageEmbeddings c !! imageId) as [emb|]; [|cbn; repeat split; auto].
  destruct (decoder_run ds _) as [e|results]; cbn;
    (split; [assumption|]; split; [reflexivity|]; split; [assumption|];
     split; [reflexivity|]; right; eexists; reflexivity).
Qed.

Lemma segment_effect (imageId : string) (imageData : list N) (w h : nat)
      (points : list SAM2Point) (prev : option (list f32)) (et dt : Q)
      (c : SAM2Core) :
  let c' := (segment imageId imageData w h points prev et dt c).2 in
  ort c' = ort c /\
  encoderSession c' = encoderSession c /\
  decoderSession c' = decoderSession c /\
  (forall k, is_Some (imageEmbeddings c' !! k) ->
             k = imageId \/ is_Some (imageEmbeddings c !! k)) /\
  (decoderRuns c' = decoderRuns c \/
   exists c1 emb, decoderRuns c' =
                  decoderRuns c ++ [buildFeeds c1 imageId emb points w h prev]).
Proof.
  unfold segment.
  pose proof (encodeImage_effect imageId imageData w h et c)
    as (Ho & He & Hd & Hr & Hk).
  destruct (encodeImage imageId imageData w h et c) as [[e|encodeTime] c0];
    cbn [fst snd] in *; [repeat split; auto|].
  pose proof (decode_effect imageId points w h prev dt c0)
    as (Ho1 & He1 & Hd1 & Hm1 & Hr1).
  destruct (decode imageId points w h prev dt c0) as [[e|r] c1];
    cbn [fst snd] in *;
    (split; [congruence|]; split; [congruence|]; split; [congruence|];
     split; [rewrite Hm1; exact Hk|];
     destruct Hr1 as [Hr1|(emb & Hr1)]; rewrite Hr1, Hr; eauto).
Qed.

Lemma buildFeeds_mask_input_length (c : SAM2Core) (imageId : string)
      (emb : Tensor) (points : list SAM2Point) (w h : nat)
      (prev : option (list f32)) :
  length (t_data (mask_input (buildFeeds c imageId emb points w h prev))) =
  match prev with
  | Some logits => length logits
  | None => 256 * 256
  end.
Proof.
  destruct prev; [reflexivity|].
  unfold buildFeeds. cbn [mask_input createMaskInputTensorWithOrt t_data].
  apply repeat_length.
Qed.

(** Whatever logits arrive, the buffer kept for refinement has 256 x 256
    entries. *)
Lemma extractBestMaskLogits_length (logits : list f32) :
  length (extractBestMaskLogits logits) = 256 * 256.
Proof.
  unfold extractBestMaskLogits, MASK_SIZE.
  destruct (length logits =? 256 * 256) eqn:Heq.
  - apply Nat.eqb_eq in Heq. exact Heq.
  - destruct (256 * 256 <=? length logits) eqn:Hle.
    + apply Nat.leb_le in Hle. rewrite length_take. lia.
    + apply repeat_length.
Qed.

(** Everything one [initialize] can do to a provider that has no request
    outstanding. *)
Lemma initialize_effect (env : InitEnv) (clk : Clock) (p : WebGPUProvider) :
  pendingRequests p = [] ->
  let out := (initialize env clk p).1 in
  let p' := (initialize env clk p).2 in
  pendingRequests p' = [] /\
  imageIdCounter p' = imageIdCounter p /\
  previousMaskLogits p' = previousMaskLogits p /\
  currentImageId p' = currentImageId p /\
  out <> Pending /\
  (forall x, out = Fulfilled x -> state p' = ready) /\
  (p' = p \/
   (state p' = error /\ worker p' = worker p) \/
   (exists c', worker p' = Some (Some c') /\
               decoderRuns c' = [] /\
               imageEmbeddings c' = ∅ /\
               (state p' = error \/ (state p' = ready /\ engineReady c')))).
Proof.
  intros Hp out p'. subst out p'. unfold initialize.
  destruct (state p) eqn:Hstate;
    try (repeat split; auto; discriminate).
  all: destruct (loadAllModels (loaderEnv env)) as [progress [e|[enc dec]]];
    [cbn; repeat split; auto; discriminate|];
    (destruct (workerSpawnFails env) as [e|];
     [cbn; repeat split; auto; discriminate|]);
    rewrite initializeWorker_fresh by (cbn; assumption || reflexivity);
    cbn [optPreferredProvider set_worker setState log_progress set_abortController];
    pose proof (core_initialize_spec enc dec
                  (Some (default webgpu (optPreferredProvider p))) Core.new) as Hspec;
    destruct (Core.initialize enc dec _ Core.new) as [[e|provider] c'];
    cbn [fst snd];
    [destruct Hspec as (_ & _ & ->)
    |destruct Hspec as (before & after & _ & _ & _ & ->)];
    cbn; repeat split; auto; try discriminate;
    right; right; eexists; (split; [reflexivity|]); cbn;
    (split; [reflexivity|]); (split; [reflexivity|]);
    [left; reflexivity|right; repeat split; eexists; reflexivity].
Qed.

(** An [initialize] that runs the sequence ends [ready] on a new engine,
    or in [error]. *)
Lemma initialize_runs (env : InitEnv) (clk : Clock) (p : WebGPUProvider) :
  pendingRequests p = [] ->
  state p = idle \/ state p = error \/ state p = processing ->
  let p' := (initialize env clk p).2 in
  match (initialize env clk p).1 with
  | Fulfilled x =>
      state p' = ready /\
      exists c' provider,
        x = Some provider /\
        Provider.currentProvider p' = Some provider /\
        worker p' = Some (Some c') /\
        engineReady c' /\
        getProvider c' = provider /\
        encoderRuns c' = [] /\
        decoderRuns c' = [] /\
        imageEmbeddings c' = ∅ /\
        highResFeatures c' = ∅
  | Rejected e => state p' = error
  | Pending => False
  end.
Proof.
  intros Hp Hstate. unfold initialize.
  destruct Hstate as [->|[->| ->]].
  all: destruct (loadAllModels (loaderEnv env)) as [progress [e|[enc dec]]];
    [reflexivity|];
    (destruct (workerSpawnFails env) as [e|]; [reflexivity|]);
    rewrite initializeWorker_fresh by (cbn; assumption || reflexivity);
    cbn [optPreferredProvider set_worker setState log_progress set_abortController];
    pose proof (core_initialize_spec enc dec
                  (Some (default webgpu (optPreferredProvider p))) Core.new) as Hspec;
    destruct (Core.initialize enc dec _ Core.new) as [[e|provider] c'];
    cbn [fst snd];
    [reflexivity|];
    destruct Hspec as (before & after & _ & _ & _ & ->);
    (split; [reflexivity|]);
    eexists _, provider; repeat split; eexists; reflexivity.
Qed.

Lemma issued_mono (p p' : WebGPUProvider) (imageId : string) :
  imageIdCounter p <= imageIdCounter p' -> issued p imageId -> issued p' imageId.
Proof. intros Hle (k & Hk & ->). exists k. split; [lia|reflexivity]. Qed.

Lemma consistent_new (preferred : option ExecutionProvider) (verbose : option bool) :
  consistent (Provider.new preferred verbose).
Proof.
  constructor; cbn; auto.
  - discriminate.
  - apply map_Forall_empty.
  - discriminate.
  - discriminate.
  - discriminate.
  - intros imageId [x Hx]. rewrite lookup_empty in Hx. discriminate.
Qed.

(** A step that only touches fields [consistent] does not read. *)
Lemma consistent_same_fields (p p' : WebGPUProvider) :
  consistent p ->
  pendingRequests p' = pendingRequests p ->
  state p' = state p ->
  worker p' = worker p ->
  previousMaskLogits p' = previousMaskLogits p ->
  currentImageId p' = currentImageId p ->
  imageIdCounter p' = imageIdCounter p ->
  consistent p'.
Proof.
  intros [Hq Hs Hr Hz Hf Hc Hi Hst] Hq' Hs' Hw' Hm' Hi' Hn'.
  constructor; rewrite ?Hq', ?Hs', ?Hw', ?Hm', ?Hi'; try assumption.
  - intros core imageId Hw He. apply (issued_mono p); [lia|]. eauto.
  - intros imageId Hid. apply (issued_mono p); [lia|]. eauto.
Qed.

Lemma consistent_initialize (env : InitEnv) (clk : Clock) (p : WebGPUProvider) :
  consistent p -> consistent (initialize env clk p).2.
Proof.
  intros Hcons. pose proof Hcons as [Hq Hs Hr Hz Hf Hc Hi Hst].
  destruct (initialize_effect env clk p Hq)
    as (Hq' & Hn' & Hm' & Hi' & _ & _ & Hcases).
  destruct Hcases as [Hsame|[(Herr & Hw')|(c' & Hw' & Hruns & Hemb & Hst')]].
  - rewrite Hsame. exact Hcons.
  - constructor; rewrite ?Hm', ?Hi'; try assumption.
    + auto.
    + rewrite Herr. discriminate.
    + rewrite Hw'. exact Hf.
    + rewrite Hw'. intros core imageId Hw He. apply (issued_mono p); [lia|]. eauto.
    + intros imageId Hid. apply (issued_mono p); [lia|]. eauto.
  - constructor; rewrite ?Hm', ?Hi'; try assumption.
    + destruct Hst' as [->|[-> _]]; auto.
    + intros Hready. destruct Hst' as [Herr|[_ Heng]]; [congruence|]. eauto.
    + rewrite Hw'. intros core Heq. inversion Heq; subst core.
      unfold maskInputsSized. rewrite Hruns. constructor.
    + rewrite Hw'. intros core imageId Heq [x Hx]. inversion Heq; subst core.
      rewrite Hemb, lookup_empty in Hx. discriminate.
    + intros imageId Hid. apply (issued_mono p); [lia|]. eauto.
Qed.

(** The state check in front of [preEncodeImage] and [segmentSingleView]. *)
Lemma ensureReady_effect (what : string) (env : InitEnv) (clk : Clock)
      (p : WebGPUProvider) :
  consistent p ->
  consistent (ensureReady what env clk p).2 /\
  (ensureReady what env clk p).1 <> Pending /\
  (forall x, (ensureReady what env clk p).1 = Fulfilled x ->
             state (ensureReady what env clk p).2 = ready).
Proof.
  intros Hcons. unfold ensureReady.
  destruct (state p) eqn:Hstate; cbn [fst snd];
    try (split; [exact Hcons|]; split; [discriminate|];
         intros x Hx; first [discriminate Hx | exact Hstate]).
  pose proof (consistent_initialize env clk p Hcons) as Hcons'.
  destruct (initialize_effect env clk p (cons_quiet p Hcons))
    as (_ & _ & _ & _ & Hnp & Hready & _).
  destruct (initialize env clk p) as [[x|e|] p0]; cbn [fst snd] in *.
  - split; [assumption|]. split; [discriminate|].
    intros _ _. eapply Hready. reflexivity.
  - split; [assumption|]. split; [discriminate|]. intros x Hx. discriminate Hx.
  - contradiction.
Qed.

(** The session id a request is made under. *)
Lemma ensureImageId_effect (p : WebGPUProvider) :
  consistent p ->
  let imageId := (ensureImageId p).1 in
  let p1 := (ensureImageId p).2 in
  consistent p1 /\
  currentImageId p1 = Some imageId /\
  state p1 = state p /\
  worker p1 = worker p /\
  previousMaskLogits p1 = previousMaskLogits p /\
  imageIdCounter p <= imageIdCounter p1.
Proof.
  intros Hcons. pose proof Hcons as [Hq Hs Hr Hz Hf Hc Hi Hst].
  unfold ensureImageId.
  destruct (currentImageId p) as [imageId|] eqn:Hid; cbn [fst snd].
  - split; [exact Hcons|]. repeat split; auto.
  - split; [|cbn; repeat split; lia].
    constructor; cbn; try assumption.
    + intros core imageId Hw He. apply (issued_mono p); [cbn; lia|]. eauto.
    + intros imageId Heq. inversion Heq; subst imageId.
      exists (S (imageIdCounter p)). split; [cbn; lia|reflexivity].
    + intros imageId Hsome. specialize (Hst imageId Hsome). congruence.
Qed.

Lemma segmentSingleView_creates_session (env : InitEnv) (clk : Clock)
      (req : SegmentationRequest) (p : WebGPUProvider) :
  state p = ready ->
  segmentSingleView env clk req p =
  segmentSingleView env clk req (ensureImageId p).2.
Proof.
  intros Hstate. unfold segmentSingleView, ensureReady, ensureImageId.
  destruct (currentImageId p) as [imageId|] eqn:Hid;
    cbn [fst snd state set_session]; rewrite Hstate;
    cbn [currentImageId setState set_session]; rewrite ?Hid; reflexivity.
Qed.

Lemma preEncodeImage_creates_session (env : InitEnv) (clk : Clock)
      (imageData : list N) (w h : nat) (p : WebGPUProvider) :
  state p = ready ->
  preEncodeImage env clk imageData w h p =
  preEncodeImage env clk imageData w h (ensureImageId p).2.
Proof.
  intros Hstate. unfold preEncodeImage, ensureReady, ensureImageId.
  destruct (currentImageId p) as [imageId|] eqn:Hid;
    cbn [fst snd state set_session]; rewrite Hstate;
    cbn [currentImageId setState set_session]; rewrite ?Hid; reflexivity.
Qed.

Lemma consistent_segmentSingleView (env : InitEnv) (clk : Clock)
      (req : SegmentationRequest) (p : WebGPUProvider) :
  consistent p -> consistent (segmentSingleView env clk req p).2.
Proof.
  intros Hcons.
  destruct (ensureReady_effect "Provider not ready" env clk p Hcons)
    as (Hcons0 & Hnp & Hready).
  assert (segmentSingleView env clk req p =
          match ensureReady "Provider not ready" env clk p with
          | (Rejected e, p0) => (Rejected e, p0)
          | (Pending, p0) => (Pending, p0)
          | (Fulfilled _, p0) => segmentSingleView env clk req p0
          end) as Hunfold.
  { unfold segmentSingleView at 1.
    destruct (ensureReady "Provider not ready" env clk p) as [[[]|e|] p0] eqn:Hens;
      try reflexivity.
    assert (state p0 = ready) as Hst by exact (Hready tt eq_refl).
    unfold segmentSingleView, ensureReady. rewrite Hst. reflexivity. }
  rewrite Hunfold. clear Hunfold.
  destruct (ensureReady "Provider not ready" env clk p) as [[[]|e|] p0];
    cbn [fst snd] in *; [|exact Hcons0|exact Hcons0].
  specialize (Hready tt eq_refl).
  rewrite segmentSingleView_creates_session by exact Hready.
  destruct (ensureImageId_effect p0 Hcons0)
    as (Hcons1 & Hid1 & Hst1 & Hw1 & Hm1 & Hn1).
  set (imageId := (ensureImageId p0).1) in *.
  set (p1 := (ensureImageId p0).2) in *.
  rewrite Hready in Hst1.
  pose proof Hcons1 as [Hq Hs Hr Hz Hf Hc Hi Hstored].
  destruct (Hr Hst1) as (core & Hworker & Hort & Hes & Hds).
  destruct (segmentSingleView_sends env clk req p1 imageId (Some core)
              Hst1 Hq Hworker Hid1)
    as (Hw' & Hs' & Hq' & Hi' & Hn' & _ & Hstored').
  cbn [dispatch handleSegment] in Hw', Hstored'.
  pose proof (segment_effect imageId (image req) (width req) (height req)
                (points req) (previousMaskLogits p1 !! imageId)
                (encodeElapsed clk) (decodeElapsed clk) core)
    as (Ho2 & He2 & Hd2 & Hk2 & Hr2).
  set (run := segmentSingleView env clk req p1) in *.
  assert (worker run.2 =
          Some (Some (segment imageId (image req) (width req) (height req)
                              (points req) (previousMaskLogits p1 !! imageId)
                              (encodeElapsed clk) (decodeElapsed clk) core).2))
    as Hworker'.
  { rewrite Hw'. destruct (segment _ _ _ _ _ _ _ _ core) as [[e|r] c']; reflexivity. }
  assert (forall k, is_Some (previousMaskLogits run.2 !! k) ->
                    k = imageId \/ is_Some (previousMaskLogits p1 !! k)) as Hkeys.
  { intros k Hk.
    destruct (segment _ _ _ _ _ _ _ _ core) as [[e|r] c']; cbn [fst snd] in Hstored'.
    - destruct Hstored' as [_ Hsame]. rewrite Hsame in Hk. auto.
    - destruct (payloadOf _ ≫= p_logits) as [logits|];
        rewrite Hstored' in Hk; [|auto].
      destruct (decide (k = imageId)) as [->|Hne]; [auto|].
      rewrite lookup_insert_ne in Hk by congruence. auto. }
  assert (map_Forall (fun _ logits => length logits = 256 * 256)
                     (previousMaskLogits run.2)) as Hsized.
  { destruct (segment _ _ _ _ _ _ _ _ core) as [[e|r] c']; cbn [fst snd] in Hstored'.
    - destruct Hstored' as [_ Hsame]. rewrite Hsame. exact Hz.
    - destruct (payloadOf _ ≫= p_logits) as [logits|];
        rewrite Hstored'; [|exact Hz].
      apply map_Forall_insert_2; [apply extractBestMaskLogits_length|exact Hz]. }
  clear Hw' Hstored'.
  constructor.
  - exact Hq'.
  - auto.
  - intros _. eexists. split; [exact Hworker'|].
    unfold engineReady. rewrite Ho2, He2, Hd2. repeat split; assumption.
  - exact Hsized.
  - intros core' Heq. rewrite Hworker' in Heq. inversion Heq; subst core'.
    unfold maskInputsSized. specialize (Hf core Hworker).
    destruct Hr2 as [->|(c1 & emb & ->)]; [exact Hf|].
    apply Forall_app. split; [exact Hf|]. constructor; [|constructor].
    rewrite buildFeeds_mask_input_length.
    destruct (previousMaskLogits p1 !! imageId) as [logits|] eqn:Hl; [|reflexivity].
    exact (Hz imageId logits Hl).
  - intros core' k Heq Hk. rewrite Hworker' in Heq. inversion Heq; subst core'.
    apply (issued_mono p1); [lia|].
    destruct (Hk2 k Hk) as [->|Hold]; [apply Hi; exact Hid1|].
    eapply Hc; eassumption.
  - intros k Hk. rewrite Hi' in Hk. inversion Hk; subst k.
    apply (issued_mono p1); [lia|]. apply Hi. exact Hid1.
  - intros k Hk. rewrite Hi'.
    destruct (Hkeys k Hk) as [->|Hold]; [reflexivity|].
    rewrite <- Hid1. apply Hstored. exact Hold.
Qed.

Lemma consistent_preEncodeImage (env : InitEnv) (clk : Clock)
      (imageData : list N) (w h : nat) (p : WebGPUProvider) :
  consistent p -> consistent (preEncodeImage env clk imageData w h p).2.
Proof.
  intros Hcons.
  destruct (ensureReady_effect "Provider not ready for encoding" env clk p Hcons)
    as (Hcons0 & Hnp & Hready).
  assert (preEncodeImage env clk imageData w h p =
          match ensureReady "Provider not ready for encoding" env clk p with
          | (Rejected e, p0) => (Rejected e, p0)
          | (Pending, p0) => (Pending, p0)
          | (Fulfilled _, p0) => preEncodeImage env clk imageData w h p0
          end) as Hunfold.
  { unfold preEncodeImage at 1.
    destruct (ensureReady "Provider not ready for encoding" env clk p)
      as [[[]|e|] p0] eqn:Hens; try reflexivity.
    assert (state p0 = ready) as Hst by exact (Hready tt eq_refl).
    unfold preEncodeImage, ensureReady. rewrite Hst. reflexivity. }
  rewrite Hunfold. clear Hunfold.
  destruct (ensureReady "Provider not ready for encoding" env clk p)
    as [[[]|e|] p0]; cbn [fst snd] in *; [|exact Hcons0|exact Hcons0].
  specialize (Hready tt eq_refl).
  rewrite preEncodeImage_creates_session by exact Hready.
  destruct (ensureImageId_effect p0 Hcons0)
    as (Hcons1 & Hid1 & Hst1 & Hw1 & Hm1 & Hn1).
  set (imageId := (ensureImageId p0).1) in *.
  set (p1 := (ensureImageId p0).2) in *.
  rewrite Hready in Hst1.
  pose proof Hcons1 as [Hq Hs Hr Hz Hf Hc Hi Hstored].
  destruct (Hr Hst1) as (core & Hworker & Hort & Hes & Hds).
  destruct (preEncodeImage_sends env clk imageData w h p1 (Some core)
              Hst1 Hq Hworker)
    as (Hw' & Hs' & Hq' & Hi' & _ & Hm' & _).
  assert ((ensureImageId p1).1 = imageId) as Hsame
    by (unfold ensureImageId; rewrite Hid1; reflexivity).
  rewrite Hsame in Hw', Hi'.
  cbn [dispatch handleEncode] in Hw'.
  pose proof (encodeImage_effect imageId imageData w h (encodeElapsed clk) core)
    as (Ho2 & He2 & Hd2 & Hr2 & Hk2).
  set (warm := preEncodeImage env clk imageData w h p1) in *.
  assert (worker warm.2 =
          Some (Some (encodeImage imageId imageData w h (encodeElapsed clk) core).2))
    as Hworker'.
  { rewrite Hw'. destruct (encodeImage _ _ _ _ _ core) as [[e|r] c']; reflexivity. }
  clear Hw'.
  assert (imageIdCounter warm.2 = imageIdCounter p1) as Hn'.
  { subst warm. unfold preEncodeImage, ensureReady. rewrite Hst1.
    unfold ensureImageId. rewrite Hid1.
    unfold sendWorkerMessage. rewrite Hworker.
    destruct (onmessage clk _ (Some core)) as [responses ws].
    cbn [set_pending set_worker].
    match goal with
    | |- context [deliver responses ?q] =>
        assert (forall rs q0, imageIdCounter (deliver rs q0).2 = imageIdCounter q0)
          as Hdel
    end.
    { induction rs as [|m rs IH]; intros q0; [reflexivity|].
      cbn [deliver].
      assert (imageIdCounter (handleWorkerMessage m q0).2 = imageIdCounter q0) as Hh.
      { unfold handleWorkerMessage.
        destruct m; try reflexivity;
          destruct (pendingRequests q0); reflexivity. }
      destruct (handleWorkerMessage m q0) as [s q1]. cbn [snd] in Hh.
      specialize (IH q1). destruct (deliver rs q1) as [ss q2].
      cbn [snd] in *. congruence. }
    match goal with
    | |- context [deliver responses ?q] =>
        specialize (Hdel responses q); destruct (deliver responses q) as [ss q2]
    end.
    cbn [snd] in Hdel.
    destruct (outcomeOf _ ss) as [[]| |]; cbn [snd]; exact Hdel. }
  constructor.
  - exact Hq'.
  - auto.
  - intros _. eexists. split; [exact Hworker'|].
    unfold engineReady. rewrite Ho2, He2, Hd2. repeat split; assumption.
  - rewrite Hm'. exact Hz.
  - intros core' Heq. rewrite Hworker' in Heq. inversion Heq; subst core'.
    unfold maskInputsSized. rewrite Hr2. exact (Hf core Hworker).
  - intros core' k Heq Hk. rewrite Hworker' in Heq. inversion Heq; subst core'.
    apply (issued_mono p1); [lia|].
    destruct (Hk2 k Hk) as [->|Hold]; [apply Hi; exact Hid1|].
    eapply Hc; eassumption.
  - intros k Hk. rewrite Hi' in Hk. inversion Hk; subst k.
    apply (issued_mono p1); [lia|]. apply Hi. exact Hid1.
  - intros k Hk. rewrite Hi'. rewrite Hm' in Hk.
    rewrite <- Hid1. apply Hstored. exact Hk.
Qed.

Lemma consistent_startNewSession (p : WebGPUProvider) :
  consistent p -> consistent (startNewSession p).
Proof.
  intros [Hq Hs Hr Hz Hf Hc Hi Hst]. constructor; cbn; try assumption.
  - apply map_Forall_empty.
  - intros core imageId Hw He. apply (issued_mono p); [cbn; lia|]. eauto.
  - intros imageId Heq. inversion Heq; subst imageId.
    exists (S (imageIdCounter p)). split; [cbn; lia|reflexivity].
  - intros imageId [x Hx]. rewrite lookup_empty in Hx. discriminate.
Qed.

Lemma consistent_clearPreviousMask (p : WebGPUProvider) :
  consistent p -> consistent (clearPreviousMask p).
Proof.
  intros Hcons. pose proof Hcons as [Hq Hs Hr Hz Hf Hc Hi Hst].
  unfold clearPreviousMask.
  destruct (currentImageId p) as [imageId|] eqn:Hid; [|exact Hcons].
  constructor; cbn; try assumption.
  - apply map_Forall_delete. exact Hz.
  - intros k Hk. destruct (decide (k = imageId)) as [->|Hne].
    + rewrite lookup_delete_eq in Hk. destruct Hk as [x Hx]. discriminate.
    + rewrite lookup_delete_ne in Hk by congruence.
      specialize (Hst k Hk). congruence.
Qed.

Lemma consistent_dispose (clk : Clock) (p : WebGPUProvider) :
  consistent p -> consistent (dispose clk p).
Proof.
  intros [Hq Hs Hr Hz Hf Hc Hi Hst]. unfold dispose, abort.
  destruct (worker p) as [ws|] eqn:Hworker;
    cbn [worker set_pending].
  - rewrite Hworker.
    rewrite (sendWorkerMessage_quiet _ _ _ ws)
      by (cbn; first [assumption|reflexivity]).
    constructor; cbn; auto; discriminate.
  - rewrite Hworker.
    constructor; cbn; auto; try discriminate.
    + rewrite Hworker. discriminate.
    + rewrite Hworker. discriminate.
Qed.

(** Every call of the provider's interface keeps the provider consistent. *)
Lemma consistent_afterCall (c : ApiCall) (p : WebGPUProvider) :
  consistent p -> consistent (afterCall c p).
Proof.
  intros Hcons. destruct c; cbn [afterCall].
  - eapply consistent_same_fields; [exact Hcons|..];
      unfold isAvailable; destruct (capabilities p); reflexivity.
  - eapply consistent_same_fields; [exact Hcons|..];
      unfold getCapabilities; destruct (capabilities p); reflexivity.
  - apply consistent_initialize. exact Hcons.
  - apply consistent_startNewSession. exact Hcons.
  - apply consistent_clearPreviousMask. exact Hcons.
  - apply consistent_preEncodeImage. exact Hcons.
  - apply consistent_segmentSingleView. exact Hcons.
  - eapply consistent_same_fields; [exact Hcons|..]; try reflexivity.
    cbn. symmetry. exact (cons_quiet p Hcons).
  - apply consistent_dispose. exact Hcons.
Qed.

Lemma consistent_afterCalls (calls : list ApiCall) (p : WebGPUProvider) :
  consistent p -> consistent (afterCalls calls p).
Proof.
  revert p. induction calls as [|c calls IH]; intros p Hcons; [exact Hcons|].
  cbn [afterCalls foldl]. apply IH. apply consistent_afterCall. exact Hcons.
Qed.

End Reachable.

(** * Invariants of the provider over any sequence of calls *)
Section ProviderInvariants.
Import ImageUtils Core Worker ModelLoader Provider Vocabulary.
Context {rt : Runtime}.

(** Whatever sequence of calls a client makes on a new provider, each call
    being run to completion before the next, the provider is left with no
    worker request outstanding and in one of the states [idle], [ready] or
    [error], never in [loading-models], [initializing] or [processing];
    and whenever it is [ready] its worker holds an engine with both
    sessions. *)
Theorem provider_rests_in_a_stable_state
        (calls : list ApiCall) (preferred : option ExecutionProvider)
        (verbose : option bool) :
  let p := afterCalls calls (Provider.new preferred verbose) in
  pendingRequests p = [] /\
  (state p = idle \/ state p = ready \/ state p = error) /\
  (state p = ready ->
   exists core, worker p = Some (Some core) /\
                ort core = true /\
                is_Some (encoderSession core) /\
                is_Some (decoderSession core)).
Proof.
  intros p.
  destruct (consistent_afterCalls calls _ (consistent_new preferred verbose))
    as [Hq Hs Hr _ _ _ _ _].
  fold p in Hq, Hs, Hr. split; [exact Hq|]. split; [exact Hs|exact Hr].
Qed.

(** Whatever sequence of calls a client makes on a new provider, every
    previous-mask buffer the provider keeps has 256 x 256 floats, and so
    has the [mask_input] of every decoder run its worker's engine made:
    the provider pads or cuts whatever logits come back before it stores
    them. *)
Theorem mask_input_is_always_full_size
        (calls : list ApiCall) (preferred : option ExecutionProvider)
        (verbose : option bool) :
  let p := afterCalls calls (Provider.new preferred verbose) in
  (forall imageId logits,
      previousMaskLogits p !! imageId = Some logits ->
      length logits = 256 * 256) /\
  (forall core feeds,
      worker p = Some (Some core) ->
      feeds ∈ decoderRuns core ->
      length (t_data (mask_input feeds)) = 256 * 256).
Proof.
  intros p.
  destruct (consistent_afterCalls calls _ (consistent_new preferred verbose))
    as [_ _ _ Hz Hf _ _ _].
  fold p in Hz, Hf. split; [exact Hz|].
  intros core feeds Hw Hin. specialize (Hf core Hw).
  unfold maskInputsSized in Hf. rewrite Forall_forall in Hf. apply Hf.
  exact Hin.
Qed.

(** Whatever sequence of calls a client makes on a new provider, the
    engine of its worker holds embeddings only under session ids the
    provider has issued (["img_1"] up to ["img_" ++ counter]), the current
    session id is such an id, and a previous mask is stored for the current
    session only.  The id that [startNewSession] would issue next is
    therefore never in the engine's cache. *)
Theorem session_ids_cover_the_cache
        (calls : list ApiCall) (preferred : option ExecutionProvider)
        (verbose : option bool) :
  let p := afterCalls calls (Provider.new preferred verbose) in
  (forall core imageId,
      worker p = Some (Some core) ->
      is_Some (imageEmbeddings core !! imageId) ->
      exists k, 1 <= k <= imageIdCounter p /\ imageId = "img_" +:+ pretty k) /\
  (forall imageId,
      currentImageId p = Some imageId ->
      exists k, 1 <= k <= imageIdCounter p /\ imageId = "img_" +:+ pretty k) /\
  (forall imageId,
      is_Some (previousMaskLogits p !! imageId) ->
      currentImageId p = Some imageId) /\
  (forall core,
      worker p = Some (Some core) ->
      imageEmbeddings core !! freshImageId p = None).
Proof.
  intros p.
  destruct (consistent_afterCalls calls _ (consistent_new preferred verbose))
    as [_ _ _ _ _ Hc Hi Hst].
  fold p in Hc, Hi, Hst.
  split; [exact Hc|]. split; [exact Hi|]. split; [exact Hst|].
  intros core Hw.
  destruct (imageEmbeddings core !! freshImageId p) as [emb|] eqn:Hemb;
    [|reflexivity].
  destruct (Hc core (freshImageId p) Hw) as (k & Hk & Heq);
    [rewrite Hemb; eexists; reflexivity|].
  unfold freshImageId in Heq.
  apply (inj (String.app "img_")) in Heq. apply (inj pretty) in Heq. lia.
Qed.

End ProviderInvariants.

(** * Matching responses to requests *)
Section ResponseMatching.
Import Core Worker Provider Vocabulary.

Lemma handleWorkerMessage_debug (filename : string) (p : WebGPUProvider) :
  handleWorkerMessage (RespDebug filename) p = (None, p).
Proof. reflexivity. Qed.

Lemma handleWorkerMessage_answer (m : WorkerResponseMessage) (p : WebGPUProvider) :
  isDebug m = false ->
  handleWorkerMessage m p =
  match pendingRequests p with
  | [] => (None, p)
  | requestId :: rest =>
      (Some (requestId, settle m), set_pending rest (requestCounter p) p)
  end.
Proof.
  intros Hm. destruct m; try discriminate Hm;
    unfold handleWorkerMessage; destruct (pendingRequests p); reflexivity.
Qed.

Lemma deliver_spec (responses : list WorkerResponseMessage) (p : WebGPUProvider) :
  let answers := filter (fun m => isDebug m = false) responses in
  (deliver responses p).1 = zip (pendingRequests p) (settle <$> answers) /\
  (deliver responses p).2 =
    set_pending (drop (length answers) (pendingRequests p)) (requestCounter p) p.
Proof.
  revert p. induction responses as [|m rs IH]; intros p answers.
  - subst answers. cbn. split; [destruct (pendingRequests p); reflexivity|].
    rewrite drop_0. destruct p; reflexivity.
  - subst answers. cbn [deliver].
    destruct (isDebug m) eqn:Hm.
    + destruct m; try discriminate Hm.
      rewrite handleWorkerMessage_debug.
      specialize (IH p). cbn zeta in IH. destruct IH as [IH1 IH2].
      destruct (deliver rs p) as [ss q]. cbn [fst snd] in *.
      rewrite filter_cons_False by (cbn; congruence).
      split; assumption.
    + rewrite (handleWorkerMessage_answer m p Hm).
      rewrite filter_cons_True by exact Hm.
      destruct (pendingRequests p) as [|requestId rest] eqn:Hp.
      * specialize (IH p). cbn zeta in IH. destruct IH as [IH1 IH2].
        destruct (deliver rs p) as [ss q]. cbn [fst snd] in *.
        rewrite Hp in IH1, IH2. cbn in IH1. rewrite drop_nil in IH2.
        split; [rewrite IH1; reflexivity|].
        rewrite IH2. rewrite drop_nil. reflexivity.
      * specialize (IH (set_pending rest (requestCounter p) p)).
        cbn zeta in IH. destruct IH as [IH1 IH2].
        destruct (deliver rs _) as [ss q]. cbn [fst snd] in *.
        split; [rewrite IH1; reflexivity|].
        rewrite IH2. cbn. reflexivity.
Qed.

Lemma outcomeOf_zip (ids : list string) (ss : list (Settled WorkerResponseMessage))
      (i : nat) (requestId : string) (s : Settled WorkerResponseMessage) :
  NoDup ids ->
  ids !! i = Some requestId ->
  ss !! i = Some s ->
  outcomeOf requestId (zip ids ss) = s.
Proof.
  revert ss i. induction ids as [|id ids IH]; intros ss i Hnd Hid Hs;
    [destruct i; discriminate Hid|].
  destruct ss as [|s0 ss]; [destruct i; discriminate Hs|].
  apply NoDup_cons in Hnd as [Hnotin Hnd].
  destruct i as [|i]; cbn in Hid, Hs.
  - inversion Hid; inversion Hs; subst. cbn.
    rewrite bool_decide_eq_true_2 by reflexivity. reflexivity.
  - cbn. rewrite bool_decide_eq_false_2.
    + eapply IH; eassumption.
    + intros ->. apply Hnotin. eapply list_elem_of_lookup_2. exact Hid.
Qed.

(** The provider matches responses to requests by order alone: of the
    messages the worker posts, the [debug] ones settle nothing, and the
    i-th of the others settles the i-th pending request (an [error]
    response rejects it, any other fulfils it); responses in excess of the
    pending requests are dropped, and requests in excess of the responses
    stay pending, in their order. *)
Theorem responses_settle_requests_in_order
        (responses : list WorkerResponseMessage) (p : WebGPUProvider) :
  let answers := filter (fun m => isDebug m = false) responses in
  let settlements := (deliver responses p).1 in
  let p' := (deliver responses p).2 in
  pendingRequests p' = drop (length answers) (pendingRequests p) /\
  length settlements = length answers `min` length (pendingRequests p) /\
  (forall i requestId m,
      NoDup (pendingRequests p) ->
      pendingRequests p !! i = Some requestId ->
      answers !! i = Some m ->
      outcomeOf requestId settlements = settle m /\
      match m with
      | RespError message requestType =>
          settle m = Rejected (SegmentationError message SERVER_ERROR
                                                 (Some requestType))
      | _ => settle m = Fulfilled m
      end) /\
  (forall requestId,
      requestId ∈ drop (length answers) (pendingRequests p) ->
      NoDup (pendingRequests p) ->
      outcomeOf requestId settlements = Pending).
Proof.
  intros answers settlements p'.
  destruct (deliver_spec responses p) as [H1 H2].
  fold answers in H1, H2. fold settlements in H1. fold p' in H2.
  split; [rewrite H2; reflexivity|].
  split; [rewrite H1, length_zip, length_fmap; lia|].
  split.
  - intros i requestId m Hnd Hid Hm. split.
    + rewrite H1. eapply outcomeOf_zip; [exact Hnd|exact Hid|].
      rewrite list_lookup_fmap, Hm. reflexivity.
    + assert (isDebug m = false) as Hdbg.
      { apply list_elem_of_lookup_2 in Hm.
        apply list_elem_of_filter in Hm as [Hd _]. exact Hd. }
      destruct m; try reflexivity. discriminate Hdbg.
  - intros requestId Hin Hnd. rewrite H1.
    set (ids := pendingRequests p) in *.
    set (ss := settle <$> answers).
    assert (length ss = length answers) as Hlen by apply length_fmap.
    rewrite <- Hlen in Hin. clearbody ss ids. clear -Hin Hnd.
    revert ss Hin. induction ids as [|id ids IH]; intros ss Hin; [reflexivity|].
    destruct ss as [|s ss]; [reflexivity|].
    apply NoDup_cons in Hnd as [Hnotin Hnd]. cbn in Hin. cbn.
    rewrite bool_decide_eq_false_2.
    + apply IH; assumption.
    + intros ->. apply Hnotin. exact (subseteq_drop _ _ _ Hin).
Qed.

(** Two requests pending, the worker answers the first with an error and
    the second with [disposed]. *)
Example responses_settle_requests_in_order_example :
  let p := Provider.set_pending ["req_1"; "req_2"] 2 Fixtures.readyProvider in
  let settlements :=
    (deliver [RespError "boom" "encode"; RespDebug "x.png"; RespDisposed] p).1 in
  outcomeOf "req_1" settlements =
    Rejected (SegmentationError "boom" SERVER_ERROR (Some "encode")) /\
  outcomeOf "req_2" settlements = Fulfilled RespDisposed.
Proof. split; reflexivity. Qed.

End ResponseMatching.

(** * Failure and disposal of the provider *)
Section ProviderEndings.
Import ImageUtils Core Worker ModelLoader Provider Vocabulary.
Context {rt : Runtime}.

Local Arguments Nat.mul : simpl never.

(** From [idle], [segmentSingleView] and [preEncodeImage] initialise the
    provider first.  When that initialisation fails, they pass its error
    on without announcing [processing], and the provider is left in state
    [error]; from then on both calls are refused at once with "... (state:
    error)", whatever the environment has become, and change nothing: the
    provider does not retry until [initialize] is called again. *)
Theorem failed_initialization_is_not_retried
        (env : InitEnv) (clk : Clock) (req : SegmentationRequest)
        (imageData : list N) (w h : nat) (p : WebGPUProvider) (e : Exn) :
  pendingRequests p = [] ->
  state p = idle ->
  (initialize env clk p).1 = Rejected e ->
  let p1 := (initialize env clk p).2 in
  segmentSingleView env clk req p = (Rejected e, p1) /\
  preEncodeImage env clk imageData w h p = (Rejected e, p1) /\
  state p1 = error /\
  last (statusLog p1) = Some error /\
  (processing ∉ drop (length (statusLog p)) (statusLog p1)) /\
  forall env' clk' req' imageData' w' h',
    segmentSingleView env' clk' req' p1 =
      (Rejected (Error "Provider not ready (state: error)"), p1) /\
    preEncodeImage env' clk' imageData' w' h' p1 =
      (Rejected (Error "Provider not ready for encoding (state: error)"), p1).
Proof.
  intros Hp Hstate Hrej p1.
  pose proof (initialize_runs env clk p Hp (or_introl Hstate)) as Hruns.
  rewrite Hrej in Hruns. fold p1 in Hruns.
  assert (segmentSingleView env clk req p = (Rejected e, p1) /\
          preEncodeImage env clk imageData w h p = (Rejected e, p1)) as [Hs Hpre].
  { unfold segmentSingleView, preEncodeImage, ensureReady. rewrite Hstate.
    subst p1. destruct (initialize env clk p) as [out p0].
    cbn [fst snd] in *. subst out. split; reflexivity. }
  split; [exact Hs|]. split; [exact Hpre|]. split; [exact Hruns|].
  assert (exists middle, statusLog p1 = statusLog p ++ middle ++ [error] /\
                         processing ∉ middle) as (middle & Hlog & Hmid).
  { subst p1. unfold initialize in *. rewrite Hstate in *.
    destruct (loadAllModels (loaderEnv env)) as [progress [e0|[enc dec]]].
    { exists [loading_models]. cbn. rewrite <- app_assoc. split; [reflexivity|].
      intros Hin. apply list_elem_of_singleton in Hin. discriminate Hin. }
    destruct (workerSpawnFails env) as [e0|].
    { exists [loading_models; initializing]. cbn. rewrite <- !app_assoc.
      split; [reflexivity|]. intros Hin. apply list_elem_of_In in Hin.
      destruct Hin as [Hin|[Hin|[]]]; discriminate Hin. }
    rewrite initializeWorker_fresh in * by (cbn; assumption || reflexivity).
    destruct (Core.initialize enc dec _ Core.new) as [[e0|provider] c'];
      cbn [fst snd] in *; [|discriminate Hrej].
    exists [loading_models; initializing]. cbn. rewrite <- !app_assoc.
    split; [reflexivity|]. intros Hin. apply list_elem_of_In in Hin.
    destruct Hin as [Hin|[Hin|[]]]; discriminate Hin. }
  split; [rewrite Hlog, !app_assoc; apply last_snoc|].
  split.
  { rewrite Hlog, drop_app_length. intros Hin.
    apply elem_of_app in Hin as [Hin|Hin]; [exact (Hmid Hin)|].
    apply list_elem_of_singleton in Hin. discriminate Hin. }
  intros env' clk' req' imageData' w' h'.
  unfold segmentSingleView, preEncodeImage, ensureReady. rewrite Hruns.
  split; reflexivity.
Qed.


End ProviderEndings.

(** Witness for [failed_initialization_is_not_retried]: the model server
    answers 404. *)
Lemma failed_initialization_is_not_retried_witness :
  let p := Provider.new None None in
  let e := Error "Failed to download SAM2 Encoder: 404 Not Found" in
  let p1 := (@Provider.initialize Fixtures.tinyRuntime Fixtures.badEnv
               Fixtures.clock p).2 in
  @Provider.segmentSingleView Fixtures.tinyRuntime Fixtures.badEnv Fixtures.clock
    Fixtures.firstRequest p = (Rejected e, p1) /\
  @Provider.preEncodeImage Fixtures.tinyRuntime Fixtures.badEnv Fixtures.clock
    Fixtures.twoPixels 2 1 p = (Rejected e, p1) /\
  Provider.state p1 = Provider.error /\
  last (Provider.statusLog p1) = Some Provider.error /\
  (Provider.processing ∉
     drop (length (Provider.statusLog p)) (Provider.statusLog p1)) /\
  forall env' clk' req' imageData' w' h',
    @Provider.segmentSingleView Fixtures.tinyRuntime env' clk' req' p1 =
      (Rejected (Error "Provider not ready (state: error)"), p1) /\
    @Provider.preEncodeImage Fixtures.tinyRuntime env' clk' imageData' w' h' p1 =
      (Rejected (Error "Provider not ready for encoding (state: error)"), p1).
Proof.
  apply (failed_initialization_is_not_retried (rt := Fixtures.tinyRuntime)
           Fixtures.badEnv Fixtures.clock Fixtures.firstRequest
           Fixtures.twoPixels 2 1 (Provider.new None None)
           (Error "Failed to download SAM2 Encoder: 404 Not Found"));
    reflexivity.
Defined.


(** The initialisation after the [dispose] of that witness succeeds. *)
Example initialize_after_dispose :
  (@Provider.initialize Fixtures.tinyRuntime Fixtures.goodEnv Fixtures.clock
     (@Provider.dispose Fixtures.tinyRuntime Fixtures.clock
        Fixtures.refinedProvider)).1 = Fulfilled (Some webgpu).
Proof. reflexivity. Qed.

(** * Thresholding and tensor packing *)
Section TensorFormats.
Import ImageUtils Core Vocabulary.

Local Arguments Nat.mul : simpl never.

Lemma clampMaskIndex_spec (maskIndex numMasks : nat) :
  clampMaskIndex maskIndex numMasks =
  if numMasks <=? maskIndex then numMasks - 1 else maskIndex.
Proof.
  unfold clampMaskIndex. destruct (numMasks <=? maskIndex) eqn:Hle; [|reflexivity].
  apply Nat.leb_le in Hle. lia.
Qed.

(** [processMaskLogits] reads one plane of the decoder's output: the plane
    [maskIndex], or the last plane when [maskIndex] is not a valid index
    (plane 0 when the tensor says it has no plane).  The mask it returns has
    [height * width] bytes, and byte [j] is 255 exactly when the logit at
    position [j] of that plane is greater than 0, and 0 otherwise; a logit
    of exactly 0, a NaN, and a position past the end of the data all give
    0. *)
Theorem processMaskLogits_thresholds_one_plane (logits : MaskTensor)
        (maskIndex : nat) :
  let size := mt_height logits * mt_width logits in
  let plane := if mt_num_masks logits <=? maskIndex
               then mt_num_masks logits - 1 else maskIndex in
  let mask := (processMaskLogits logits maskIndex).1.1 in
  length mask = size /\
  (forall j, j < size ->
     let logit := nth (plane * size + j) (mt_data logits) NaN in
     (nth j mask 0%N = 255%N <-> gt logit (Fin 0) = true) /\
     (nth j mask 0%N = 0%N <-> gt logit (Fin 0) = false) /\
     (logit = Fin 0 \/ logit = NaN \/ length (mt_data logits) <= plane * size + j ->
      nth j mask 0%N = 0%N)).
Proof.
  intros size plane mask.
  split; [apply processMaskLogits_length|].
  intros j Hj logit.
  assert (nth j mask 0%N = if gt logit (Fin 0) then 255%N else 0%N) as Hnth.
  { subst mask logit plane size. unfold processMaskLogits. cbn [fst].
    rewrite clampMaskIndex_spec.
    set (offset := (if mt_num_masks logits <=? maskIndex
                    then mt_num_masks logits - 1 else maskIndex) *
                   (mt_height logits * mt_width logits)).
    destruct (lookup_lt_is_Some_2
                (window (mt_data logits) offset (mt_height logits * mt_width logits)) j)
      as [v Hv]; [rewrite length_window; exact Hj|].
    rewrite <- (window_nth _ _ (mt_height logits * mt_width logits)) by exact Hj.
    rewrite (nth_lookup_Some _ _ NaN v Hv).
    apply nth_lookup_Some. rewrite list_lookup_fmap, Hv. reflexivity. }
  rewrite Hnth.
  split; [|split].
  - destruct (gt logit (Fin 0)); split; congruence.
  - destruct (gt logit (Fin 0)); split; congruence.
  - intros [->|[->|Hlen]]; try reflexivity.
    subst logit. rewrite nth_overflow by exact Hlen. reflexivity.
Qed.

Lemma flat_map_pair_lookup {A B : Type} (f g : A -> B) (l : list A) (i : nat) :
  flat_map (fun a => [f a; g a]) l !! (2 * i) = f <$> l !! i /\
  flat_map (fun a => [f a; g a]) l !! (2 * i + 1) = g <$> l !! i.
Proof.
  revert i. induction l as [|a l IH]; intros i; [split; reflexivity|].
  destruct i as [|i]; [split; reflexivity|].
  replace (2 * S i) with (S (S (2 * i))) by lia.
  replace (S (S (2 * i)) + 1) with (S (S (2 * i + 1))) by lia.
  cbn [flat_map app lookup list_lookup]. apply IH.
Qed.

Lemma flat_map_pair_length {A B : Type} (f g : A -> B) (l : list A) :
  length (flat_map (fun a => [f a; g a]) l) = length l * 2.
Proof. induction l as [|a l IH]; [reflexivity|]. cbn. rewrite IH. lia. Qed.

(** The tensors [decode] hands to the decoder.  [point_coords] has dims
    [1, N, 2] and [2N] entries, [point_labels] dims [1, N] and [N] entries
    holding 1 for a foreground and 0 for a background point,
    [has_mask_input] dims [1] and one entry, 1 when a previous mask is
    given and 0 otherwise, and [image_embed] is the cached embedding.
    When the previous mask is absent or has 256 x 256 entries (another
    length is refused by the tensor constructor), [mask_input] has dims
    [1, 1, 256, 256] and 256 x 256 entries.  The x of the i-th point,
    divided by a positive image width and multiplied by 1024, is at index
    2i of [point_coords], and its y, scaled by a positive height, at index
    2i+1, whenever the scaled value is a binary32 value (otherwise the
    tensor holds its rounding, which the rationals kept here do not
    give). *)
Theorem decoder_feeds_are_packed_by_point (c : SAM2Core) (imageId : string)
        (emb : Tensor) (points : list SAM2Point) (w h : nat)
        (prev : option (list f32)) :
  let feeds := buildFeeds c imageId emb points w h prev in
  let N := length points in
  image_embed feeds = emb /\
  t_dims (point_coords feeds) = [1; N; 2] /\
  length (t_data (point_coords feeds)) = 1 * N * 2 /\
  t_dims (point_labels feeds) = [1; N] /\
  length (t_data (point_labels feeds)) = 1 * N /\
  t_dims (has_mask_input feeds) = [1] /\
  t_data (has_mask_input feeds) =
    [Fin (match prev with Some _ => 1 | None => 0 end)] /\
  (match prev with
   | Some logits => length logits = 256 * 256
   | None => True
   end ->
   t_dims (mask_input feeds) = [1; 1; 256; 256] /\
   length (t_data (mask_input feeds)) = 1 * 1 * 256 * 256) /\
  forall i p,
    points !! i = Some p ->
    t_data (point_labels feeds) !! i =
      Some (match pt_type p with fg => Fin 1 | bg => Fin 0 end) /\
    (0 < w ->
     float32_value (scalePoint (pt_x p) (pt_y p) w h).1 ->
     t_data (point_coords feeds) !! (2 * i) =
       Some (Fin (scalePoint (pt_x p) (pt_y p) w h).1)) /\
    (0 < h ->
     float32_value (scalePoint (pt_x p) (pt_y p) w h).2 ->
     t_data (point_coords feeds) !! (2 * i + 1) =
       Some (Fin (scalePoint (pt_x p) (pt_y p) w h).2)).
Proof.
  intros feeds N. subst feeds N. unfold buildFeeds.
  cbn [image_embed point_coords point_labels mask_input has_mask_input
       createPointCoordsTensorWithOrt createPointLabelsTensorWithOrt
       createMaskInputTensorWithOrt createHasMaskTensorWithOrt t_data t_dims].
  rewrite flat_map_pair_length, !length_map.
  split; [reflexivity|]. split; [reflexivity|]. split; [lia|].
  split; [reflexivity|]. split; [lia|]. split; [reflexivity|].
  split; [destruct prev; reflexivity|].
  split.
  { intros Hlen. split; [reflexivity|].
    destruct prev as [logits|]; [rewrite Hlen|unfold MASK_INPUT_SIZE;
                                               rewrite repeat_length]; lia. }
  intros i p Hp.
  destruct (flat_map_pair_lookup (fun q : SAM2Point => Fin (pt_x q))
              (fun q : SAM2Point => Fin (pt_y q))
              (map (fun p0 => mkPoint (scalePoint (pt_x p0) (pt_y p0) w h).1
                                      (scalePoint (pt_x p0) (pt_y p0) w h).2
                                      (pt_type p0)) points) i) as [Hx Hy].
  rewrite Hx, Hy. rewrite !list_lookup_fmap, Hp.
  split; [reflexivity|]. split; intros _ _; reflexivity.
Qed.

(** A point at (1, 0) of a 2 x 1 image is packed as (512, 0). *)
Example decoder_feeds_of_one_point :
  float32_value (scalePoint 1 0 2 1).1 /\
  float32_value (scalePoint 1 0 2 1).2 /\
  (scalePoint 1 0 2 1).1 == 512 /\
  (scalePoint 1 0 2 1).2 == 0.
Proof.
  split; [exists 1%Z, 9%Z; repeat split; try lia; reflexivity|].
  split; [exists 0%Z, 0%Z; repeat split; try lia; reflexivity|].
  split; reflexivity.
Qed.

End TensorFormats.

(** * Discrete GPU detection *)
Section DiscreteGpu.
Import Capability.

Lemma prefix_app (keyword s t : string) :
  String.prefix keyword s = true -> String.prefix keyword (s +:+ t) = true.
Proof.
  revert s. induction keyword as [|a keyword IH]; intros s.
  - intros _. destruct (s +:+ t); reflexivity.
  - destruct s as [|b s]; [discriminate|]. intros Hp.
    change (String b s +:+ t) with (String b (s +:+ t)).
    cbn [String.prefix] in *.
    destruct (Ascii.ascii_dec a b); [apply IH; exact Hp|discriminate Hp].
Qed.

(** A substring of [s] is a substring of [s] followed by [t], and of [t]
    followed by [s]. *)
Lemma includes_app_r (keyword s t : string) :
  includes keyword s = true -> includes keyword (s +:+ t) = true.
Proof.
  induction s as [|b s IH].
  - cbn. rewrite orb_false_r. intros Hp.
    destruct keyword; [|discriminate Hp].
    destruct t; reflexivity.
  - cbn [includes]. intros Hin. apply orb_true_iff in Hin as [Hp|Hrest].
    + pose proof (prefix_app _ (String b s) t Hp) as Hp'.
      change (String b s +:+ t) with (String b (s +:+ t)) in *.
      cbn [includes]. rewrite Hp'. reflexivity.
    + change (String b s +:+ t) with (String b (s +:+ t)).
      cbn [includes]. rewrite (IH Hrest). apply orb_true_r.
Qed.

Lemma includes_app_l (keyword s t : string) :
  includes keyword s = true -> includes keyword (t +:+ s) = true.
Proof.
  intros Hin. induction t as [|b t IH]; [exact Hin|].
  change (String b t +:+ s) with (String b (t +:+ s)).
  cbn [includes]. rewrite IH. apply orb_true_r.
Qed.

(** An adapter is reported as a discrete GPU as soon as one of the
    keywords (nvidia, geforce, rtx, gtx, quadro, amd, radeon, "rx ", vega)
    occurs in its vendor, its architecture or its description, in any
    letter case; and as soon as its vendor contains "intel" while its
    architecture or description contains "arc". *)
Theorem discrete_gpu_by_keyword (info : GPUAdapterInfo) :
  (exists keyword,
      keyword ∈ discreteKeywords /\
      (includes keyword (toLowerCase (vendor info)) = true \/
       includes keyword (toLowerCase (architecture info)) = true \/
       includes keyword (toLowerCase (description info)) = true)) \/
  (includes "intel" (toLowerCase (vendor info)) = true /\
   (includes "arc" (toLowerCase (architecture info)) = true \/
    includes "arc" (toLowerCase (description info)) = true)) ->
  detectDiscreteGPU info = true.
Proof.
  intros [(keyword & Hkw & Hfield)|(Hintel & Harc)]; unfold detectDiscreteGPU.
  - apply orb_true_iff. left. apply existsb_exists. exists keyword.
    split; [apply list_elem_of_In; exact Hkw|].
    destruct Hfield as [Hv|[Ha|Hd]].
    + apply includes_app_r. exact Hv.
    + apply includes_app_l, includes_app_l, includes_app_r. exact Ha.
    + apply includes_app_l, includes_app_l, includes_app_l, includes_app_l.
      exact Hd.
  - apply orb_true_iff. right. rewrite Hintel. cbn [andb].
    apply orb_true_iff. exact Harc.
Qed.

(** The substring test has edges: an integrated Intel adapter whose
    description contains the word "architecture" is reported as discrete,
    and so is an adapter whose vendor ends in "rx", since the fields are
    joined by spaces before "rx " is searched; an adapter that names no
    keyword is not. *)
Example discrete_gpu_edges :
  detectDiscreteGPU (mkAdapterInfo "Intel" "gen-12lp" "Xe architecture") = true /\
  detectDiscreteGPU (mkAdapterInfo "Matrx" "" "") = true /\
  detectDiscreteGPU (mkAdapterInfo "intel" "gen-12lp" "UHD Graphics") = false /\
  detectDiscreteGPU (mkAdapterInfo "apple" "common-3" "") = false.
Proof. repeat split. Qed.

End DiscreteGpu.

(** Witness for [discrete_gpu_by_keyword]: an NVIDIA description. *)
Lemma discrete_gpu_by_keyword_witness :
  Capability.detectDiscreteGPU
    (Capability.mkAdapterInfo "" "" "NVIDIA GeForce RTX 3080") = true.
Proof.
  apply (discrete_gpu_by_keyword
           (Capability.mkAdapterInfo "" "" "NVIDIA GeForce RTX 3080")).
  left. exists "geforce". split; [|right; right; reflexivity].
  unfold Capability.discreteKeywords. apply list_elem_of_In. cbn. auto.
Defined.

(** * The handlers of the segmentation service *)
Section ServiceHandlers.
Import ImageUtils Core Worker Capability ModelLoader Provider Service Vocabulary.
Import ServiceFlow.
Context {rt : Runtime}.

Local Arguments Nat.mul : simpl never.

(** On a provider between two calls, [segmentSingleView] settles. *)
Lemma segmentSingleView_settles (env : InitEnv) (clk : Clock)
      (req : SegmentationRequest) (p : WebGPUProvider) :
  consistent p -> (segmentSingleView env clk req p).1 <> Pending.
Proof.
  intros Hcons.
  destruct (ensureReady_effect "Provider not ready" env clk p Hcons)
    as (Hcons0 & Hnp & Hready).
  unfold segmentSingleView.
  destruct (ensureReady "Provider not ready" env clk p) as [[[]|e|] p0];
    cbn [fst snd] in *; [|discriminate|contradiction].
  specialize (Hready tt eq_refl).
  destruct (cons_ready p0 Hcons0 Hready) as (core & Hw & _).
  pose proof (cons_quiet p0 Hcons0) as Hq.
  pose proof (ensureImageId_quiet (setState processing p0)) as Hq1.
  assert (worker (ensureImageId (setState processing p0)).2 = Some (Some core))
    as Hw1.
  { unfold ensureImageId. destruct (currentImageId (setState processing p0));
      exact Hw. }
  destruct (ensureImageId (setState processing p0)) as [imageId p1].
  cbn [fst snd] in *. cbn [setState pendingRequests] in Hq1. rewrite Hq in Hq1.
  rewrite (sendWorkerMessage_quiet _ _ _ _ Hw1 Hq1).
  destruct (dispatch clk _ (Some core)) as [[e|response] w'] eqn:Hd;
    cbn [fst snd]; [discriminate|].
  destruct (dispatch_response _ _ _ _ _ Hd) as [Hs|(ty & Hm & _)];
    [|discriminate Hm].
  rewrite Hs. cbn [fst]. discriminate.
Qed.

(** On a provider between two calls, [preEncodeImage] settles. *)
Lemma preEncodeImage_settles (env : InitEnv) (clk : Clock) (imageData : list N)
      (w h : nat) (p : WebGPUProvider) :
  consistent p -> (Provider.preEncodeImage env clk imageData w h p).1 <> Pending.
Proof.
  intros Hcons.
  destruct (ensureReady_effect "Provider not ready for encoding" env clk p Hcons)
    as (Hcons0 & Hnp & Hready).
  unfold Provider.preEncodeImage.
  destruct (ensureReady "Provider not ready for encoding" env clk p)
    as [[[]|e|] p0]; cbn [fst snd] in *; [|discriminate|contradiction].
  specialize (Hready tt eq_refl).
  destruct (cons_ready p0 Hcons0 Hready) as (core & Hw & _).
  pose proof (cons_quiet p0 Hcons0) as Hq.
  pose proof (ensureImageId_quiet p0) as Hq1.
  assert (worker (ensureImageId p0).2 = Some (Some core)) as Hw1.
  { unfold ensureImageId. destruct (currentImageId p0); exact Hw. }
  destruct (ensureImageId p0) as [imageId p1].
  cbn [fst snd] in *. rewrite Hq in Hq1.
  rewrite (sendWorkerMessage_quiet _ _ _ _ Hw1 Hq1).
  destruct (dispatch clk _ (Some core)) as [[e|response] w'] eqn:Hd;
    cbn [fst snd]; [discriminate|].
  destruct (dispatch_response _ _ _ _ _ Hd) as [Hs|(ty & Hm & _)];
    [|discriminate Hm].
  rewrite Hs. destruct response; cbn; discriminate.
Qed.

(** Everything [_doInitialize] can do. *)
Lemma doInitialize_effect (env : ServiceEnv) (s : SegmentationService) :
  let run := _doInitialize env s in
  let caps := checkWebGPUCapabilities (host env) in
  outcome run <> Pending /\
  isInitializing (service run) = isInitializing s /\
  pendingMask (service run) = pendingMask s /\
  fired (service run) = fired s /\
  Forall (fun ev => preparatory ev = true) (events run) /\
  (available caps = false ->
   run = ([SamCapabilities caps;
           SamInitError (orString (unavailableReason caps) "WebGPU not available")],
          Rejected (Error (orString (unavailableReason caps)
                                    "WebGPU not available")), s)) /\
  (available caps = true ->
   exists p, service run = set_provider (Some p) s /\ consistent p /\
             (outcome run = Fulfilled tt -> state p = ready)).
Proof.
  intros run caps. subst run caps. unfold _doInitialize.
  destruct (available (checkWebGPUCapabilities (host env))) eqn:Hav;
    cbn [negb].
  - pose proof (consistent_new None (Some true)) as Hnew.
    pose proof (consistent_initialize (initEnv env) (clock env) _ Hnew) as Hcons.
    destruct (initialize_effect (initEnv env) (clock env)
                (Provider.new None (Some true)) eq_refl)
      as (_ & _ & _ & _ & Hnp & Hready & _).
    destruct (Provider.initialize (initEnv env) (clock env)
                (Provider.new None (Some true))) as [[x|e|] p];
      cbn [fst snd] in *; [| |contradiction].
    + unfold outcome, service, events. cbn [fst snd].
      split; [discriminate|]. split; [reflexivity|]. split; [reflexivity|].
      split; [reflexivity|]. split.
      { destruct (isLowVRAM _); repeat constructor. }
      split; [discriminate|]. intros _. exists p.
      split; [reflexivity|]. split; [exact Hcons|]. intros _. eauto.
    + unfold outcome, service, events. cbn [fst snd].
      split; [discriminate|]. split; [reflexivity|]. split; [reflexivity|].
      split; [reflexivity|]. split.
      { destruct (isLowVRAM _); repeat constructor. }
      split; [discriminate|]. intros _. exists p.
      split; [reflexivity|]. split; [exact Hcons|]. discriminate.
  - unfold outcome, service, events. cbn [fst snd].
    split; [discriminate|]. repeat (split; [reflexivity|]).
    split; [repeat constructor|].
    split; [intros _; reflexivity|discriminate].
Qed.

Lemma providerIsReady_spec (s : SegmentationService) :
  providerIsReady s = true <->
  exists p, provider s = Some p /\ state p = ready.
Proof.
  unfold providerIsReady, getState. destruct (provider s) as [p|].
  - destruct (state p) eqn:Hst; split; try discriminate;
      try (intros (q & Hq & Hr); inversion Hq; subst q; congruence).
    intros _. eauto.
  - split; [discriminate|]. intros (q & Hq & _). discriminate.
Qed.

(** Everything [initializeProvider] can do to a service at rest. *)
Lemma initializeProvider_effect (env : ServiceEnv) (s : SegmentationService) :
  atRest s ->
  let run := initializeProvider env s in
  atRest (service run) /\
  outcome run <> Pending /\
  pendingMask (service run) = pendingMask s /\
  fired (service run) = fired s /\
  Forall (fun ev => preparatory ev = true) (events run) /\
  (forall x, outcome run = Fulfilled x -> providerIsReady (service run) = true).
Proof.
  intros [Hinit Hprov] run. subst run. unfold initializeProvider.
  rewrite Hinit.
  destruct (providerIsReady s) eqn:Hready.
  - unfold outcome, service, events. cbn [fst snd].
    split; [split; assumption|]. split; [discriminate|].
    repeat (split; [reflexivity|]). split; [constructor|]. intros _ _. exact Hready.
  - pose proof (doInitialize_effect env (set_isInitializing true s))
      as (Hnp & Hi & Hm & Hf & Hev & Hno & Hyes).
    destruct (available (checkWebGPUCapabilities (host env))) eqn:Hav.
    + destruct (Hyes eq_refl) as (p & Hs & Hcons & Hst). clear Hno Hyes.
      destruct (_doInitialize env (set_isInitializing true s))
        as [[evs r] s1]. unfold outcome, service, events in *.
      cbn [fst snd] in *. subst s1.
      destruct r as [[]|e|]; cbn [fst snd]; [| |contradiction].
      * split; [split; [reflexivity|cbn; intros q Hq; congruence]|].
        split; [discriminate|]. repeat (split; [reflexivity|]).
        split; [exact Hev|]. intros _ _.
        apply providerIsReady_spec. exists p. split; [reflexivity|]. auto.
      * split; [split; [reflexivity|cbn; intros q Hq; congruence]|].
        split; [discriminate|]. repeat (split; [reflexivity|]).
        split; [exact Hev|]. intros x Hx. discriminate Hx.
    + rewrite (Hno eq_refl). unfold outcome, service, events. cbn [fst snd].
      split; [split; [reflexivity|exact Hprov]|].
      split; [discriminate|]. repeat (split; [reflexivity|]).
      split; [repeat constructor|]. intros x Hx. discriminate Hx.
Qed.

(** The step that opens [handleSegmentRequest] and [preEncodeImage], on a
    service at rest: it settles, and when it fulfils the service holds a
    ready provider. *)
Lemma requireProvider_effect (env : ServiceEnv) (s : SegmentationService) :
  atRest s ->
  let run := requireProvider env s in
  atRest run.2 /\
  run.1.2 <> Pending /\
  pendingMask run.2 = pendingMask s /\
  fired run.2 = fired s /\
  Forall (fun ev => preparatory ev = true) run.1.1 /\
  (forall p, run.1.2 = Fulfilled p ->
             provider run.2 = Some p /\ state p = ready /\ consistent p).
Proof.
  intros Hrest run. subst run. unfold requireProvider.
  destruct (providerIsReady s) eqn:Hready.
  - apply providerIsReady_spec in Hready as (p & Hp & Hst). rewrite Hp.
    cbn [fst snd]. split; [exact Hrest|]. split; [discriminate|].
    repeat (split; [reflexivity|]). split; [constructor|].
    intros q Hq. inversion Hq; subst q. destruct Hrest as [_ Hprov]. auto.
  - pose proof (initializeProvider_effect env s Hrest)
      as (Hrest1 & Hnp & Hm & Hf & Hev & Hok).
    destruct (initializeProvider env s) as [[evs r] s1].
    unfold outcome, service, events in *. cbn [fst snd] in *.
    destruct r as [x|e|]; [| |contradiction].
    + specialize (Hok x eq_refl).
      apply providerIsReady_spec in Hok as (p & Hp & Hst). rewrite Hp.
      cbn [fst snd]. split; [exact Hrest1|]. split; [discriminate|].
      split; [exact Hm|]. split; [exact Hf|]. split; [exact Hev|].
      intros q Hq. inversion Hq; subst q. destruct Hrest1 as [_ Hprov]. auto.
    + cbn [fst snd]. split; [exact Hrest1|]. split; [discriminate|].
      split; [exact Hm|]. split; [exact Hf|]. split; [exact Hev|].
      intros q Hq. discriminate Hq.
Qed.

(** Everything a segmentation request with at least one point can do to a
    service at rest. *)
Lemma handleSegmentRequest_effect (env : ServiceEnv) (points : list SAM2Point)
      (s : SegmentationService) :
  atRest s -> points <> [] ->
  let run := handleSegmentRequest env points s in
  atRest (service run) /\
  outcome run = Fulfilled tt /\
  fired (service run) = fired s /\
  exists mid,
    Forall (fun ev => preparatory ev = true) mid /\
    ((exists message,
        events run = SamSegmentStart :: mid ++ [SamSegmentError message] /\
        pendingMask (service run) = pendingMask s) \/
     (exists response mask,
        resp_mask response = Some mask /\
        events run =
        SamSegmentStart :: mid ++
          [SamMaskReady mask (resp_width response) (resp_height response)
                        (resp_allMasks response)
                        (resp_selectedMaskIndex response);
           SamSegmentComplete (resp_width response) (resp_height response)
                              true (stats env)] /\
        pendingMask (service run) =
        Some {| response := response; canvasWidth := canvas_width env;
                canvasHeight := canvas_height env |})).
Proof.
  intros Hrest Hpoints run. subst run. unfold handleSegmentRequest.
  destruct points as [|pt points]; [congruence|]. cbn [length Nat.eqb].
  pose proof (requireProvider_effect env s Hrest)
    as (Hrest1 & Hnp & Hm & Hf & Hev & Hok).
  destruct (requireProvider env s) as [[evs r] s1]. cbn [fst snd] in *.
  unfold outcome, service, events.
  destruct r as [p|e|]; [| |contradiction].
  - destruct (Hok p eq_refl) as (Hp & Hst & Hcons). clear Hok.
    destruct (renderOffscreen env (canvas_width env) (canvas_height env))
      as [e|image].
    + cbn [fst snd]. split; [exact Hrest1|]. split; [reflexivity|].
      split; [exact Hf|]. exists evs. split; [exact Hev|]. left.
      eexists. split; [reflexivity|exact Hm].
    + set (request := {| image := image; width := canvas_width env;
                         height := canvas_height env;
                         points := map _ (pt :: points) |}).
      pose proof (consistent_segmentSingleView (initEnv env) (clock env)
                    request p Hcons) as Hcons'.
      pose proof (segmentSingleView_settles (initEnv env) (clock env)
                    request p Hcons) as Hsettles.
      destruct (segmentSingleView (initEnv env) (clock env) request p)
        as [[response|e|] p']; cbn [fst snd] in *; [| |contradiction].
      * destruct (resp_mask response) as [mask|] eqn:Hmask; cbn [fst snd].
        -- split; [split; [apply Hrest1|cbn; intros q Hq; congruence]|].
           split; [reflexivity|]. split; [exact Hf|].
           exists (evs ++ [SamImageCaptured image (canvas_width env)
                                            (canvas_height env)]).
           split; [apply Forall_app; split; [exact Hev|repeat constructor]|].
           right. exists response, mask. split; [exact Hmask|].
           split; [|reflexivity]. cbn. rewrite <- !app_assoc. reflexivity.
        -- split; [split; [apply Hrest1|cbn; intros q Hq; congruence]|].
           split; [reflexivity|]. split; [exact Hf|].
           exists (evs ++ [SamImageCaptured image (canvas_width env)
                                            (canvas_height env)]).
           split; [apply Forall_app; split; [exact Hev|repeat constructor]|].
           left. eexists. split; [|exact Hm].
           cbn. rewrite <- !app_assoc. reflexivity.
      * split; [split; [apply Hrest1|cbn; intros q Hq; congruence]|].
        split; [reflexivity|]. split; [exact Hf|].
        exists (evs ++ [SamImageCaptured image (canvas_width env)
                                         (canvas_height env)]).
        split; [apply Forall_app; split; [exact Hev|repeat constructor]|].
        left. eexists. split; [|exact Hm].
        cbn. rewrite <- !app_assoc. reflexivity.
  - cbn [fst snd]. split; [exact Hrest1|]. split; [reflexivity|].
    split; [exact Hf|]. exists evs. split; [exact Hev|]. left.
    eexists. split; [reflexivity|exact Hm].
Qed.

(** Everything the pre-encoding of the service can do to a service at
    rest. *)
Lemma service_preEncodeImage_effect (env : ServiceEnv) (image : list N)
      (width height : nat) (s : SegmentationService) :
  atRest s ->
  let run := ServiceFlow.preEncodeImage env image width height s in
  atRest (service run) /\
  outcome run = Fulfilled tt /\
  fired (service run) = fired s /\
  pendingMask (service run) = pendingMask s.
Proof.
  intros Hrest run. subst run. unfold ServiceFlow.preEncodeImage.
  pose proof (requireProvider_effect env s Hrest)
    as (Hrest1 & Hnp & Hm & Hf & Hev & Hok).
  destruct (requireProvider env s) as [[evs r] s1]. cbn [fst snd] in *.
  unfold outcome, service, events.
  destruct r as [p|e|]; [| |contradiction].
  - destruct (Hok p eq_refl) as (Hp & Hst & Hcons). clear Hok.
    pose proof (consistent_preEncodeImage (initEnv env) (clock env)
                  image width height p Hcons) as Hcons'.
    pose proof (preEncodeImage_settles (initEnv env) (clock env)
                  image width height p Hcons) as Hsettles.
    destruct (Provider.preEncodeImage (initEnv env) (clock env) image width
                                      height p)
      as [[encodeTime|e|] p']; cbn [fst snd] in *; [| |contradiction];
      (split; [split; [apply Hrest1|cbn; intros q Hq; congruence]|]);
      (split; [reflexivity|]); (split; [exact Hf|exact Hm]).
  - cbn [fst snd]. split; [exact Hrest1|]. split; [reflexivity|].
    split; [exact Hf|exact Hm].
Qed.

(** Everything a preview capture can do to a service at rest. *)
Lemma captureViewportPreview_effect (env : ServiceEnv)
      (s : SegmentationService) :
  atRest s ->
  let run := captureViewportPreview env s in
  atRest (service run) /\
  outcome run = Fulfilled tt /\
  fired (service run) = fired s /\
  pendingMask (service run) = pendingMask s.
Proof.
  intros Hrest run. subst run. unfold captureViewportPreview.
  destruct (renderOffscreen env (canvas_width env) (canvas_height env))
    as [e|image].
  { unfold outcome, service. cbn [fst snd]. split; [exact Hrest|repeat split]. }
  set (s0 := match provider s with
             | Some p => set_provider (Some (startNewSession p)) s
             | None => s
             end).
  assert (atRest s0 /\ fired s0 = fired s /\ pendingMask s0 = pendingMask s)
    as (Hrest0 & Hf0 & Hm0).
  { subst s0. destruct Hrest as [Hi Hprov].
    destruct (provider s) as [p0|] eqn:Hp.
    2: { split; [split; [exact Hi|]|split; reflexivity].
         rewrite Hp. exact Hprov. }
    split; [|split; reflexivity].
    split; [exact Hi|]. cbn. intros q Hq. inversion Hq; subst q.
    apply consistent_startNewSession. auto. }
  pose proof (service_preEncodeImage_effect env image (canvas_width env)
                (canvas_height env) s0 Hrest0) as (Hrest1 & Ho & Hf & Hm).
  destruct (ServiceFlow.preEncodeImage env image (canvas_width env)
              (canvas_height env) s0) as [[evs r] s1].
  unfold outcome, service, events in *. cbn [fst snd] in *.
  split; [exact Hrest1|]. split; [exact Ho|]. split; congruence.
Qed.

(** A service that handles its events one after the other is at rest
    between any two of them. *)
Lemma atRest_afterHandler (c : ServiceCall) (s : SegmentationService) :
  atRest s -> atRest (afterHandler c s).
Proof.
  intros Hrest. destruct c as [env points|env|env|dom| |env|]; cbn [afterHandler].
  - destruct points as [|pt points]; [exact Hrest|].
    apply (handleSegmentRequest_effect env (pt :: points) s Hrest). discriminate.
  - apply (initializeProvider_effect env s Hrest).
  - unfold dispose.
    destruct (provider s) as [p|] eqn:Hp; cbn [snd]; [|exact Hrest].
    split; [apply Hrest|]. cbn. discriminate.
  - unfold applyPendingMask, applyMaskToSelection.
    destruct (pendingMask s) as [pm|]; [|exact Hrest].
    destruct getContext2d; [|exact Hrest].
    destruct (paint _ _) as [e|pixels]; [exact Hrest|].
    destruct Hrest as [Hi Hprov]. split; assumption.
  - unfold cancelPendingMask.
    destruct (pendingMask s); [|exact Hrest].
    destruct Hrest as [Hi Hprov]. split; assumption.
  - apply (captureViewportPreview_effect env s Hrest).
  - unfold abort.
    destruct (provider s) as [p|] eqn:Hp; [|exact Hrest].
    split; [apply Hrest|]. cbn. intros q Hq. inversion Hq; subst q.
    apply (consistent_afterCall Vocabulary.CallAbort).
    destruct Hrest as [_ Hprov]. auto.
Qed.

Lemma atRest_afterHandlers (calls : list ServiceCall) (s : SegmentationService) :
  atRest s -> atRest (afterHandlers calls s).
Proof.
  revert s. induction calls as [|c calls IH]; intros s Hrest; [exact Hrest|].
  cbn. apply IH, atRest_afterHandler, Hrest.
Qed.

Lemma atRest_new : atRest ServiceFlow.new.
Proof. split; [reflexivity|]. cbn. discriminate. Qed.

End ServiceHandlers.

Section ServiceProtocol.
Import ImageUtils Core Worker Capability ModelLoader Provider Service Vocabulary.
Import ServiceFlow.
Context {rt : Runtime}.

Local Arguments Nat.mul : simpl never.


(** On a host where the WebGPU probe fails, a service that has no ready
    provider never gets one: [initializeProvider] fires the capabilities
    and [sam.initError] and rejects with the reason of the probe; a
    segmentation request ends in [sam.segmentError] and a pre-encoding in
    [sam.encodingError], both with that reason; and the service is left
    exactly as it was.  No model is loaded and no worker is started, so the
    WASM execution provider is never tried. *)
Theorem no_webgpu_no_provider (env : ServiceEnv) (s : SegmentationService)
        (pt : SAM2Point) (points : list SAM2Point) (image : list N)
        (width height : nat) :
  available (checkWebGPUCapabilities (host env)) = false ->
  isInitializing s = false ->
  providerIsReady s = false ->
  let caps := checkWebGPUCapabilities (host env) in
  let reason := orString (unavailableReason caps) "WebGPU not available" in
  initializeProvider env s =
    ([SamCapabilities caps; SamInitError reason], Rejected (Error reason), s) /\
  handleSegmentRequest env (pt :: points) s =
    ([SamSegmentStart; SamCapabilities caps; SamInitError reason;
      SamSegmentError reason], Fulfilled tt, s) /\
  ServiceFlow.preEncodeImage env image width height s =
    ([SamEncodingStart; SamCapabilities caps; SamInitError reason;
      SamEncodingError reason], Fulfilled tt, s).
Proof.
  intros Hav Hi Hready caps reason.
  assert (initializeProvider env s =
          ([SamCapabilities caps; SamInitError reason],
           Rejected (Error reason), s)) as Hinit.
  { unfold initializeProvider, _doInitialize. rewrite Hi, Hready, Hav.
    cbn [negb app]. subst caps reason. destruct s. cbn in Hi. subst.
    reflexivity. }
  split; [exact Hinit|]. split.
  - unfold handleSegmentRequest, requireProvider. cbn [length Nat.eqb].
    rewrite Hready, Hinit. reflexivity.
  - unfold ServiceFlow.preEncodeImage, requireProvider.
    rewrite Hready, Hinit. reflexivity.
Qed.

(** A provider that is not ready is not initialised again by the service:
    where WebGPU is available, [initializeProvider], a segmentation
    request with points and a pre-encoding behave exactly as if the service had no
    provider, and replace the old provider by a new one, which starts
    without session and without stored masks. *)
Theorem unready_provider_is_replaced (env : ServiceEnv)
        (s : SegmentationService) (p : WebGPUProvider) (pt : SAM2Point)
        (points : list SAM2Point) (image : list N) (width height : nat) :
  provider s = Some p ->
  state p <> ready ->
  isInitializing s = false ->
  available (checkWebGPUCapabilities (host env)) = true ->
  initializeProvider env s = initializeProvider env (set_provider None s) /\
  handleSegmentRequest env (pt :: points) s =
    handleSegmentRequest env (pt :: points) (set_provider None s) /\
  ServiceFlow.preEncodeImage env image width height s =
    ServiceFlow.preEncodeImage env image width height (set_provider None s) /\
  exists p',
    service (initializeProvider env s) = set_provider (Some p') s /\
    p' = (Provider.initialize (initEnv env) (clock env)
                              (Provider.new None (Some true))).2 /\
    imageIdCounter p' = 0 /\
    currentImageId p' = None /\
    previousMaskLogits p' = ∅.
Proof.
  intros Hp Hstate Hi Hav.
  assert (providerIsReady s = false) as Hready.
  { unfold providerIsReady, getState. rewrite Hp.
    destruct (state p); congruence. }
  assert (providerIsReady (set_provider None s) = false) as Hready0
    by reflexivity.
  assert (initializeProvider env s =
          initializeProvider env (set_provider None s)) as Hinit.
  { unfold initializeProvider. rewrite Hready, Hready0.
    cbn [isInitializing set_provider]. rewrite Hi.
    unfold _doInitialize. rewrite Hav. cbn [negb].
    destruct (Provider.initialize _ _ _) as [[x|e|] p']; reflexivity. }
  split; [exact Hinit|]. split; [|split].
  - unfold handleSegmentRequest, requireProvider. cbn [length Nat.eqb].
    rewrite Hready, Hready0, Hinit. reflexivity.
  - unfold ServiceFlow.preEncodeImage, requireProvider.
    rewrite Hready, Hready0, Hinit. reflexivity.
  - exists (Provider.initialize (initEnv env) (clock env)
                                (Provider.new None (Some true))).2.
    destruct (initialize_effect (initEnv env) (clock env)
                (Provider.new None (Some true)) eq_refl)
      as (_ & Hn & Hm & Hc & Hnp & _).
    split; [|split; [reflexivity|split; [exact Hn|split; [exact Hc|exact Hm]]]].
    unfold initializeProvider. rewrite Hready, Hi.
    unfold _doInitialize. rewrite Hav. cbn [negb].
    destruct (Provider.initialize _ _ _) as [[x|e|] p']; cbn [fst snd] in *;
      [| |contradiction]; destruct s; cbn in Hi; subst; reflexivity.
Qed.

(** The pending mask outlives everything but a new mask, its application
    and its cancellation: initialising or disposing of the provider,
    capturing a new preview and aborting leave it in place.  A
    [sam.applyMask] handled afterwards selects what it would have selected
    before, at the canvas size of the request that produced the mask. *)
Theorem pending_mask_outlives_the_provider {dom : Dom}
        (calls : list ServiceCall) (env : ServiceEnv) (s' : SegmentationService) :
  let s := afterHandlers calls ServiceFlow.new in
  s' ∈ [service (initializeProvider env s); (dispose env s).2;
        service (captureViewportPreview env s); abort s] ->
  pendingMask s' = pendingMask s /\
  (applyPendingMask s').1 = (applyPendingMask s).1 /\
  fired (applyPendingMask s').2 = fired (applyPendingMask s).2 /\
  pendingMask (applyPendingMask s').2 = pendingMask (applyPendingMask s).2.
Proof.
  intros s Hin.
  assert (atRest s) as Hrest by apply atRest_afterHandlers, atRest_new.
  assert (pendingMask s' = pendingMask s /\ fired s' = fired s) as [Hm Hf].
  { apply list_elem_of_In in Hin.
    destruct Hin as [<-|[<-|[<-|[<-|[]]]]].
    - destruct (initializeProvider_effect env s Hrest) as (_ & _ & Hm & Hf & _).
      split; assumption.
    - unfold dispose. destruct (provider s); split; reflexivity.
    - destruct (captureViewportPreview_effect env s Hrest) as (_ & _ & Hf & Hm).
      split; assumption.
    - unfold abort. destruct (provider s); split; reflexivity. }
  split; [exact Hm|].
  unfold applyPendingMask, applyMaskToSelection. rewrite Hm.
  destruct (pendingMask s) as [pm|] eqn:Hpm; cbn [fst snd];
    [|rewrite ?Hm, ?Hpm; auto].
  destruct getContext2d; [|cbn; rewrite ?Hm, ?Hpm; auto].
  destruct (paint _ _) as [e|pixels]; cbn; rewrite ?Hf, ?Hm, ?Hpm; auto.
Qed.

End ServiceProtocol.

(** Witness for [no_webgpu_no_provider]: a new service in a browser
    without [navigator.gpu]. *)
Lemma no_webgpu_no_provider_witness :
  @ServiceFlow.handleSegmentRequest Fixtures.tinyRuntime
    ServiceFixtures.noGpuEnv Fixtures.onePoint ServiceFlow.new =
  ([ServiceFlow.SamSegmentStart;
    ServiceFlow.SamCapabilities
      (Capability.unavailable "WebGPU API not available in this browser");
    ServiceFlow.SamInitError "WebGPU API not available in this browser";
    ServiceFlow.SamSegmentError "WebGPU API not available in this browser"],
   Fulfilled tt, ServiceFlow.new).
Proof.
  apply (no_webgpu_no_provider (rt := Fixtures.tinyRuntime)
           ServiceFixtures.noGpuEnv ServiceFlow.new (mkPoint 1 0 fg) [] [] 0 0);
    reflexivity.
Defined.

(** Witness for [unready_provider_is_replaced]: the service whose provider
    met a server that was down, once the server is back. *)
Lemma unready_provider_is_replaced_witness :
  @ServiceFlow.handleSegmentRequest Fixtures.tinyRuntime
    ServiceFixtures.gpuEnv Fixtures.onePoint ServiceFixtures.failedService =
  @ServiceFlow.handleSegmentRequest Fixtures.tinyRuntime
    ServiceFixtures.gpuEnv Fixtures.onePoint
    (ServiceFlow.set_provider None ServiceFixtures.failedService).
Proof.
  apply (unready_provider_is_replaced (rt := Fixtures.tinyRuntime)
           ServiceFixtures.gpuEnv ServiceFixtures.failedService
           Fixtures.failedProvider (mkPoint 1 0 fg) [] [] 0 0);
    [reflexivity|discriminate|reflexivity|reflexivity].
Defined.

(** Witness for [pending_mask_outlives_the_provider]: a mask is pending,
    then a new preview is captured. *)
Lemma pending_mask_outlives_the_provider_witness :
  let s := @ServiceFlow.afterHandlers Fixtures.tinyRuntime
             [ServiceFlow.OnSegment ServiceFixtures.gpuEnv Fixtures.onePoint]
             ServiceFlow.new in
  let s' := ServiceFlow.service
              (@ServiceFlow.captureViewportPreview Fixtures.tinyRuntime
                 ServiceFixtures.gpuEnv s) in
  Service.pendingMask s' = Service.pendingMask s /\
  (@Service.applyPendingMask Fixtures.blankDom s').1 =
  (@Service.applyPendingMask Fixtures.blankDom s).1 /\
  Service.fired (@Service.applyPendingMask Fixtures.blankDom s').2 =
  Service.fired (@Service.applyPendingMask Fixtures.blankDom s).2 /\
  Service.pendingMask (@Service.applyPendingMask Fixtures.blankDom s').2 =
  Service.pendingMask (@Service.applyPendingMask Fixtures.blankDom s).2.
Proof.
  intros s s'.
  apply (pending_mask_outlives_the_provider (rt := Fixtures.tinyRuntime)
           (dom := Fixtures.blankDom)
           [ServiceFlow.OnSegment ServiceFixtures.gpuEnv Fixtures.onePoint]
           ServiceFixtures.gpuEnv s').
  subst s'. apply list_elem_of_In. cbn [In]. right. right. left. reflexivity.
Defined.

(** * The IndexedDB cache of the model loader *)
Section ModelCaching.
Import ModelLoader ModelCache.

Lemma keyOf_inj (k k' : ModelKey) : keyOf k = keyOf k' -> k = k'.
Proof. destruct k, k'; intros Heq; first [reflexivity|discriminate Heq]. Qed.

(** A load that succeeds while the cache can be written leaves the buffer
    it returns in the store, and leaves every other entry alone. *)
Lemma loadModel_stores (idbRead : IdbOutcome) (outcome : FetchOutcome)
      (modelKey : ModelKey) (store store' : Store) (progress : list Progress)
      (data : Bytes) :
  loadModel idbRead Succeeds outcome modelKey store = (progress, inr data, store') ->
  store' !! keyOf modelKey = Some data /\
  forall k, k <> keyOf modelKey -> store' !! k = store !! k.
Proof.
  unfold loadModel, getCachedModel, cacheModel.
  destruct idbRead as [m|m|]; cbn [openDatabase request ret throw].
  - destruct (downloadModel _ outcome) as [evs [e|buffer]]; intros Heq;
      inversion Heq; subst.
    split; [apply lookup_insert_eq|]. intros k Hk. apply lookup_insert_ne. auto.
  - intros Heq. inversion Heq.
  - destruct (store !! keyOf modelKey) as [cached|] eqn:Hc.
    + intros Heq. inversion Heq; subst. auto.
    + destruct (downloadModel _ outcome) as [evs [e|buffer]]; intros Heq;
        inversion Heq; subst.
      split; [apply lookup_insert_eq|]. intros k Hk. apply lookup_insert_ne. auto.
Qed.

(** A model that is in the store is served from it, without download. *)
Lemma loadModel_cached (idbWrite : IdbOutcome) (outcome : FetchOutcome)
      (modelKey : ModelKey) (store : Store) (data : Bytes) :
  store !! keyOf modelKey = Some data ->
  loadModel Succeeds idbWrite outcome modelKey store =
  ([(byteLength data, byteLength data, name (SAM2_MODELS modelKey))],
   inr data, store).
Proof.
  intros Hc. unfold loadModel, getCachedModel.
  cbn [openDatabase request ret]. rewrite Hc. reflexivity.
Qed.

(** A model that is not in the store is downloaded. *)
Lemma loadModel_uncached (outcome : FetchOutcome) (modelKey : ModelKey)
      (store : Store) :
  store !! keyOf modelKey = None ->
  (loadModel Succeeds Succeeds outcome modelKey store).1 =
  downloadModel (SAM2_MODELS modelKey) outcome.
Proof.
  intros Hc. unfold loadModel, getCachedModel, cacheModel.
  cbn [openDatabase request ret]. rewrite Hc.
  destruct (downloadModel _ outcome) as [evs [e|buffer]]; reflexivity.
Qed.

(** Nothing is cached in an empty store. *)
Lemma nothing_cached_in_empty_store (idbEncoder idbDecoder : IdbOutcome)
      (store : Store) :
  store !! "encoder" = None ->
  areModelsCached idbEncoder idbDecoder store = false /\
  getCachedModelInfo idbEncoder idbDecoder store = None.
Proof.
  intros Hc. unfold areModelsCached, getCachedModelInfo, getCachedModel.
  destruct idbEncoder, idbDecoder; cbn [openDatabase request ret throw];
    rewrite ?Hc; split; reflexivity.
Qed.

(** Once both models were loaded while the cache could be written, they
    are cached: [areModelsCached] answers true, [getCachedModelInfo]
    reports the sizes of the two buffers that were returned, and every
    later [loadModel] returns the same buffer with a single progress
    callback, whatever the network does.  After a [clearModelCache] that
    reaches the store nothing is cached, and a [loadModel] downloads
    again. *)
Theorem loaded_models_are_served_from_the_cache
        (readEncoder readDecoder : IdbOutcome)
        (fetchEncoder fetchDecoder : FetchOutcome)
        (store store1 store2 : Store) (progressEncoder progressDecoder : list Progress)
        (enc dec : Bytes) :
  loadModel readEncoder Succeeds fetchEncoder encoder store =
    (progressEncoder, inr enc, store1) ->
  loadModel readDecoder Succeeds fetchDecoder decoder store1 =
    (progressDecoder, inr dec, store2) ->
  areModelsCached Succeeds Succeeds store2 = true /\
  getCachedModelInfo Succeeds Succeeds store2 =
    Some (byteLength enc, byteLength dec) /\
  (forall idbWrite outcome,
      loadModel Succeeds idbWrite outcome encoder store2 =
        ([(byteLength enc, byteLength enc, "SAM2 Encoder")], inr enc, store2) /\
      loadModel Succeeds idbWrite outcome decoder store2 =
        ([(byteLength dec, byteLength dec, "SAM2 Decoder")], inr dec, store2)) /\
  let cleared := (clearModelCache Succeeds store2).2 in
  (clearModelCache Succeeds store2).1 = ret tt /\
  (forall idbEncoder idbDecoder,
      areModelsCached idbEncoder idbDecoder cleared = false /\
      getCachedModelInfo idbEncoder idbDecoder cleared = None) /\
  (forall modelKey outcome,
      (loadModel Succeeds Succeeds outcome modelKey cleared).1 =
      downloadModel (SAM2_MODELS modelKey) outcome).
Proof.
  intros HloadE HloadD.
  destruct (loadModel_stores _ _ _ _ _ _ _ HloadE) as [HE _].
  destruct (loadModel_stores _ _ _ _ _ _ _ HloadD) as [HD Hother].
  assert (store2 !! "encoder" = Some enc) as HE2.
  { rewrite (Hother "encoder") by discriminate. exact HE. }
  change (store2 !! "decoder" = Some dec) in HD.
  split; [|split; [|split]].
  - unfold areModelsCached, getCachedModel. cbn [openDatabase request ret].
    rewrite HE2, HD. reflexivity.
  - unfold getCachedModelInfo, getCachedModel. cbn [openDatabase request ret].
    rewrite HE2, HD. reflexivity.
  - intros idbWrite outcome. split.
    + apply (loadModel_cached idbWrite outcome encoder). exact HE2.
    + apply (loadModel_cached idbWrite outcome decoder). exact HD.
  - cbn [clearModelCache openDatabase request ret fst snd].
    split; [reflexivity|]. split.
    + intros idbEncoder idbDecoder.
      apply nothing_cached_in_empty_store, lookup_empty.
    + intros modelKey outcome. apply loadModel_uncached, lookup_empty.
Qed.

(** A database that cannot be opened is tolerated, a request that fails is
    not.  When the read request fails, [loadModel] throws "Failed to read
    from cache: ..." without any download, whatever the store and the
    network hold.  When the model is not in the store and its download
    succeeds, a failing write request makes [loadModel] throw "Failed to
    write to cache: ..." after all progress callbacks were made, while a
    database that does not open lets it return the buffer; in both cases
    nothing is stored.  When the database does not open for the read, the
    model is downloaded even if the store holds it.  [clearModelCache]
    returns normally without clearing anything when the database does not
    open.  [areModelsCached] and [getCachedModelInfo] answer false and
    null on either kind of failure. *)
Theorem cache_request_failures_fail_the_load (message : string)
        (modelKey : ModelKey) (store : Store) (outcome : FetchOutcome)
        (progress : list Progress) (data : Bytes) :
  store !! keyOf modelKey = None ->
  downloadModel (SAM2_MODELS modelKey) outcome = (progress, inr data) ->
  (forall idbWrite outcome' store',
      loadModel (RequestFails message) idbWrite outcome' modelKey store' =
      ([], throw (Error ("Failed to read from cache: " +:+ message)), store')) /\
  loadModel Succeeds (RequestFails message) outcome modelKey store =
    (progress, throw (Error ("Failed to write to cache: " +:+ message)), store) /\
  loadModel Succeeds (OpenFails message) outcome modelKey store =
    (progress, ret data, store) /\
  (forall idbWrite store',
      (loadModel (OpenFails message) idbWrite outcome modelKey store').1 =
      (loadModel Succeeds idbWrite outcome modelKey store).1) /\
  (forall store', clearModelCache (OpenFails message) store' = (ret tt, store')) /\
  (forall idb idb' store',
      (idb = OpenFails message \/ idb = RequestFails message) ->
      areModelsCached idb idb' store' = false /\
      areModelsCached idb' idb store' = false /\
      getCachedModelInfo idb idb' store' = None /\
      getCachedModelInfo idb' idb store' = None).
Proof.
  intros Hnone Hdl.
  split; [reflexivity|].
  split; [|split; [|split; [|split; [reflexivity|]]]].
  - unfold loadModel, getCachedModel, cacheModel.
    cbn [openDatabase request ret throw]. rewrite Hnone, Hdl. reflexivity.
  - unfold loadModel, getCachedModel, cacheModel.
    cbn [openDatabase request ret throw]. rewrite Hnone, Hdl. reflexivity.
  - intros idbWrite store'. unfold loadModel, getCachedModel, cacheModel.
    cbn [openDatabase request ret throw]. rewrite Hnone, Hdl.
    destruct idbWrite; reflexivity.
  - intros idb idb' store' [->| ->];
      unfold areModelsCached, getCachedModelInfo, getCachedModel;
      cbn [openDatabase request ret throw];
      destruct idb'; cbn [openDatabase request ret throw];
      repeat split;
      try reflexivity;
      try (destruct (store' !! "encoder"); reflexivity);
      try (destruct (store' !! "decoder"); reflexivity).
Qed.

(** As long as no request on the store fails, [loadModel] on the store
    makes the callbacks and returns the result of the loader that is given
    the content of the store as its cache, a database that does not open
    reading as an empty cache.  Since a load writes only under its own
    key, the cache the decoder's load meets is the one the encoder's load
    met. *)
Theorem store_refines_the_loader_cache (idbRead : ModelKey -> IdbOutcome)
        (idbWrite : IdbOutcome) (fetch : ModelKey -> FetchOutcome)
        (modelKey : ModelKey) (store : Store) :
  (forall message, idbRead modelKey <> RequestFails message) ->
  (forall message, idbWrite <> RequestFails message) ->
  let run := ModelCache.loadModel (idbRead modelKey) idbWrite (fetch modelKey)
                                  modelKey store in
  run.1 = ModelLoader.loadModel (envOf idbRead store fetch) modelKey /\
  forall other,
    other <> modelKey ->
    cached (envOf idbRead run.2 fetch) other =
    cached (envOf idbRead store fetch) other.
Proof.
  intros Hread Hwrite run. subst run.
  unfold ModelCache.loadModel, ModelLoader.loadModel, envOf, getCachedModel,
    cacheModel.
  cbn [cached ModelLoader.fetch].
  destruct (idbRead modelKey) as [m|m|] eqn:Hr;
    [|exfalso; exact (Hread m eq_refl)|]; cbn [openDatabase request ret throw].
  - destruct (downloadModel _ (fetch modelKey)) as [evs [e|buffer]];
      [split; [reflexivity|intros other _; reflexivity]|].
    destruct idbWrite as [m'|m'|]; [|exfalso; exact (Hwrite m' eq_refl)|];
      cbn [openDatabase request ret throw fst snd];
      (split; [reflexivity|]); intros other Hother;
      destruct (idbRead other); try reflexivity;
      apply lookup_insert_ne; intros Heq; apply keyOf_inj in Heq; congruence.
  - destruct (store !! keyOf modelKey) as [buffer|];
      [split; [reflexivity|intros other _; reflexivity]|].
    destruct (downloadModel _ (fetch modelKey)) as [evs [e|buffer]];
      [split; [reflexivity|intros other _; reflexivity]|].
    destruct idbWrite as [m'|m'|]; [|exfalso; exact (Hwrite m' eq_refl)|];
      cbn [openDatabase request ret throw fst snd];
      (split; [reflexivity|]); intros other Hother;
      destruct (idbRead other); try reflexivity;
      apply lookup_insert_ne; intros Heq; apply keyOf_inj in Heq; congruence.
Qed.

End ModelCaching.

(** Witness for [loaded_models_are_served_from_the_cache]: both models
    are downloaded into an empty store. *)
Lemma loaded_models_are_served_from_the_cache_witness :
  ModelCache.areModelsCached ModelCache.Succeeds ModelCache.Succeeds
    (<["decoder" := mkBytes 1 3]> (<["encoder" := mkBytes 2 258]> ∅)) = true.
Proof.
  eapply proj1.
  eapply (loaded_models_are_served_from_the_cache
            ModelCache.Succeeds ModelCache.Succeeds
            (ModelLoader.fetch Fixtures.tinyDownloads ModelLoader.encoder)
            (ModelLoader.fetch Fixtures.tinyDownloads ModelLoader.decoder)
            ∅ (<["encoder" := mkBytes 2 258]> ∅) _ _ _
            (mkBytes 2 258) (mkBytes 1 3)); reflexivity.
Defined.

(** Witness for [cache_request_failures_fail_the_load]: the quota is
    exceeded when the downloaded encoder is written. *)
Lemma cache_request_failures_fail_the_load_witness :
  ModelCache.loadModel ModelCache.Succeeds
    (ModelCache.RequestFails "QuotaExceededError")
    (ModelLoader.fetch Fixtures.tinyDownloads ModelLoader.encoder)
    ModelLoader.encoder ∅ =
  ([(2%N, (42 * 1024 * 1024)%N, "SAM2 Encoder")],
   throw (Error "Failed to write to cache: QuotaExceededError"), ∅).
Proof.
  eapply proj1, proj2.
  eapply (cache_request_failures_fail_the_load "QuotaExceededError"
            ModelLoader.encoder ∅
            (ModelLoader.fetch Fixtures.tinyDownloads ModelLoader.encoder)
            [(2%N, (42 * 1024 * 1024)%N, "SAM2 Encoder")] (mkBytes 2 258));
    reflexivity.
Defined.

(** Witness for [store_refines_the_loader_cache]: a working database that
    holds nothing, as in [Fixtures.tinyDownloads]. *)
Lemma store_refines_the_loader_cache_witness :
  (ModelCache.loadModel ModelCache.Succeeds ModelCache.Succeeds
     (ModelLoader.fetch Fixtures.tinyDownloads ModelLoader.encoder)
     ModelLoader.encoder ∅).1 =
  ModelLoader.loadModel
    (ModelCache.envOf (fun _ => ModelCache.Succeeds) ∅
                      (ModelLoader.fetch Fixtures.tinyDownloads))
    ModelLoader.encoder.
Proof.
  eapply proj1.
  apply (store_refines_the_loader_cache (fun _ => ModelCache.Succeeds)
           ModelCache.Succeeds (ModelLoader.fetch Fixtures.tinyDownloads)
           ModelLoader.encoder ∅); intros message; discriminate.
Defined.

(** * The point selection tool *)
Section SelectionTool.
Import Selection.

Lemma lastPointsChanged_app (evs evs' : list ToolEvent) :
  lastPointsChanged (evs ++ evs') =
  match lastPointsChanged evs' with
  | Some l => Some l
  | None => lastPointsChanged evs
  end.
Proof. unfold lastPointsChanged. rewrite omap_app. apply last_app. Qed.

(** What one input does to a tool whose SVG shows its points. *)
Lemma step_keeps_overlay (i : Input) (s : SamSelection) :
  svg s = markers (points s) ->
  svg (step i s).2 = markers (points (step i s).2) /\
  match lastPointsChanged (step i s).1 with
  | Some l => l = points (step i s).2
  | None => points (step i s).2 = points s
  end /\
  segmentsHavePoints (step i s).1.
Proof.
  intros Hsvg.
  destruct i as [| |e| | |point]; cbn [step].
  - repeat split. repeat constructor.
  - repeat split. repeat constructor.
  - destruct (listening s); [|repeat split; [exact Hsvg|constructor]].
    unfold keydown.
    destruct (String.eqb (key e) "Escape"); [repeat split; repeat constructor|].
    destruct (String.eqb (key e) "Enter").
    + destruct (0 <? length (points s)) eqn:Hlen; cbn [fst snd].
      * repeat split; [exact Hsvg|].
        repeat constructor. intros Heq. rewrite Heq in Hlen. discriminate Hlen.
      * repeat split; [exact Hsvg|constructor].
    + destruct (String.eqb (key e) "z" && (ctrlKey e || metaKey e));
        [|repeat split; [exact Hsvg|constructor]].
      unfold undoLastPoint.
      destruct (0 <? length (points s));
        repeat split; first [exact Hsvg|repeat constructor].
  - repeat split. repeat constructor.
  - unfold undoLastPoint.
    destruct (0 <? length (points s));
      repeat split; first [exact Hsvg|repeat constructor].
  - repeat split. repeat constructor.
Qed.

Lemma run_keeps_overlay (inputs : list Input) (s : SamSelection) :
  svg s = markers (points s) ->
  svg (run inputs s).2 = markers (points (run inputs s).2) /\
  match lastPointsChanged (run inputs s).1 with
  | Some l => l = points (run inputs s).2
  | None => points (run inputs s).2 = points s
  end /\
  segmentsHavePoints (run inputs s).1.
Proof.
  revert s. induction inputs as [|i inputs IH]; intros s Hsvg.
  - repeat split; [exact Hsvg|constructor].
  - cbn [run].
    destruct (step_keeps_overlay i s Hsvg) as (Hsvg1 & Hlast1 & Hseg1).
    destruct (step i s) as [evs s1]. cbn [fst snd] in *.
    destruct (IH s1 Hsvg1) as (Hsvg2 & Hlast2 & Hseg2).
    destruct (run inputs s1) as [evs' s2]. cbn [fst snd] in *.
    split; [exact Hsvg2|]. split.
    + rewrite lastPointsChanged_app.
      destruct (lastPointsChanged evs') as [l|]; [exact Hlast2|].
      destruct (lastPointsChanged evs) as [l|]; congruence.
    + apply Forall_app. split; assumption.
Qed.

(** Whatever happens to a new selection tool, its SVG shows exactly its
    points: one marker per point in the order the points were added,
    numbered from 1, green for a foreground and red for a background
    point.  The last [sam.pointsChanged] it fired carries its current
    points (when it fired none, it has no point), and no [sam.segment] it
    fired carries an empty list. *)
Theorem selection_overlay_shows_the_points (inputs : list Input) :
  let evs := (run inputs Selection.new).1 in
  let s := (run inputs Selection.new).2 in
  svg s = markers (getPoints s) /\
  length (svg s) = length (getPoints s) /\
  (forall index point,
      getPoints s !! index = Some point ->
      svg s !! index =
      Some {| cx := pt_x point; cy := pt_y point;
              fill := match pt_type point with
                      | fg => "#22c55e"
                      | bg => "#ef4444"
                      end;
              label := index + 1 |}) /\
  match lastPointsChanged evs with
  | Some l => l = getPoints s
  | None => getPoints s = []
  end /\
  segmentsHavePoints evs.
Proof.
  intros evs s. subst evs s. unfold getPoints.
  destruct (run_keeps_overlay inputs Selection.new eq_refl)
    as (Hsvg & Hlast & Hseg).
  split; [exact Hsvg|]. split; [|split; [|split; assumption]].
  - rewrite Hsvg. unfold markers. apply length_imap.
  - intros index point Hp. rewrite Hsvg. unfold markers.
    rewrite list_lookup_imap, Hp. reflexivity.
Qed.

Lemma run_app (inputs inputs' : list Input) (s : SamSelection) :
  (run (inputs ++ inputs') s).2 = (run inputs' (run inputs s).2).2.
Proof.
  revert s. induction inputs as [|i inputs IH]; intros s; [reflexivity|].
  cbn [app run]. destruct (step i s) as [evs s1]. specialize (IH s1).
  destruct (run (inputs ++ inputs') s1) as [evs1 s2].
  destruct (run inputs s1) as [evs2 s3]. cbn [fst snd] in *. exact IH.
Qed.

Lemma run_adds (l : list SAM2Point) (s : SamSelection) :
  points (run (map OnAddPoint l) s).2 = points s ++ l.
Proof.
  revert s. induction l as [|p l IH]; intros s.
  - cbn. rewrite app_nil_r. reflexivity.
  - cbn [map run step addPoint paint set_points].
    specialize (IH {| points := points s ++ [p];
                      svg := markers (points s ++ [p]);
                      listening := listening s |}).
    cbn [points] in *.
    destruct (run (map OnAddPoint l) _) as [evs s1]. cbn [fst snd] in *.
    rewrite IH, <- app_assoc. reflexivity.
Qed.

Lemma removelast_take {A : Type} (l : list A) :
  removelast l = take (length l - 1) l.
Proof.
  induction l as [|a l IH]; [reflexivity|].
  destruct l as [|b l]; [reflexivity|].
  change (removelast (a :: b :: l)) with (a :: removelast (b :: l)).
  rewrite IH. cbn [length].
  replace (S (S (length l)) - 1) with (S (S (length l) - 1)) by lia.
  reflexivity.
Qed.

Lemma run_undos (n : nat) (s : SamSelection) :
  points (run (repeat OnUndoPoint n) s).2 = take (length (points s) - n) (points s).
Proof.
  revert s. induction n as [|n IH]; intros s.
  - cbn [repeat run snd]. rewrite take_ge by lia. reflexivity.
  - cbn [repeat run step]. unfold undoLastPoint.
    destruct (0 <? length (points s)) eqn:Hlen.
    + cbn [paint set_points points].
      specialize (IH {| points := removelast (points s);
                        svg := markers (removelast (points s));
                        listening := listening s |}).
      cbn [points] in IH.
      destruct (run (repeat OnUndoPoint n) _) as [evs s1]. cbn [fst snd] in *.
      rewrite IH, removelast_take, length_take, take_take.
      apply Nat.ltb_lt in Hlen. f_equal. lia.
    + specialize (IH s).
      destruct (run (repeat OnUndoPoint n) s) as [evs s1]. cbn [fst snd] in *.
      rewrite IH. apply Nat.ltb_ge in Hlen.
      replace (length (points s)) with 0 by lia. reflexivity.
Qed.

(** The points form a stack: after [sam.addPoint] for each point of a
    list and then [n] times [sam.undoPoint], the tool holds its earlier
    points followed by the added ones, less the last [n] of them.  Undoing
    as many points as were added gives back the earlier points; undoing
    more than there are leaves no point and is no error. *)
Theorem undo_takes_back_the_last_points (l : list SAM2Point) (n : nat)
        (s : SamSelection) :
  let s' := (run (map OnAddPoint l ++ repeat OnUndoPoint n) s).2 in
  getPoints s' =
    take (length (getPoints s) + length l - n) (getPoints s ++ l) /\
  (n = length l -> getPoints s' = getPoints s) /\
  (length (getPoints s) + length l <= n -> getPoints s' = []) /\
  listening s' = listening s.
Proof.
  intros s'. subst s'. unfold getPoints.
  assert (points (run (map OnAddPoint l ++ repeat OnUndoPoint n) s).2 =
          take (length (points s) + length l - n) (points s ++ l)) as Hpoints.
  { rewrite run_app, run_undos, run_adds, length_app. reflexivity. }
  split; [exact Hpoints|]. split; [|split].
  - intros ->. rewrite Hpoints.
    replace (length (points s) + length l - length l) with (length (points s))
      by lia.
    apply take_app_length.
  - intros Hle. rewrite Hpoints.
    replace (length (points s) + length l - n) with 0 by lia. reflexivity.
  - rewrite run_app.
    assert (forall inputs t,
               Forall (fun i => match i with
                                | OnAddPoint _ | OnUndoPoint => True
                                | _ => False
                                end) inputs ->
               listening (run inputs t).2 = listening t) as Hkeep.
    { induction inputs as [|i inputs IH]; intros t Hall; [reflexivity|].
      inversion Hall as [|? ? Hi Hrest]; subst.
      cbn [run]. specialize (IH (step i t).2 Hrest).
      assert (listening (step i t).2 = listening t) as Hstep.
      { destruct i; try contradiction; cbn [step]; [|reflexivity].
        unfold undoLastPoint. destruct (0 <? length (points t)); reflexivity. }
      destruct (step i t) as [evs t1]. cbn [fst snd] in *.
      destruct (run inputs t1) as [evs' t2]. cbn [fst snd] in *. congruence. }
    rewrite Hkeep by (apply Forall_forall; intros i Hi;
                      apply list_elem_of_In, repeat_spec in Hi; subst; exact I).
    apply Hkeep. apply Forall_forall. intros i Hi.
    apply list_elem_of_In, in_map_iff in Hi as (p & <- & _). exact I.
Qed.

End SelectionTool.
